(** * Outgoing webhook delivery of listmonk: a shallow embedding

    The development embeds the webhook manager (package [webhooks]:
    [Trigger], the worker loop, [deliverWebhook], [computeHMAC] and the
    log-state updates), the prepared statements of [queries/webhooks.sql]
    over the schema of migration v5.3.0, and the admin operations
    [Core.CreateWebhook] / [Core.UpdateWebhook].

    Conventions.
    - Go [string] and [[]byte] are byte sequences: [string].
    - Go [int], [int64] and [time.Duration] are 64-bit two's complement:
      [Z] with the wrap-around written out ([wrap64]).
    - [time.Time] is a number of nanoseconds since the Unix epoch ([Z]).
    - A Go [error] result is [option error] ([None] is [nil]).
    - Effects (database, clock, HTTP client, logger) are threaded through
      a state monad over [World]; what the environment decides (time that
      passes, statements the database rejects, what receivers answer) is
      read from the [World] too.
    - Goroutines are interleaved by explicit schedules: [Sys] follows the
      start and the stop of the workers, [Race] the reads and updates of
      workers that run at the same time. *)

From Stdlib Require Import ZArith List String Ascii Bool Lia.
From Stdlib Require Import Sorting.Sorted Permutation DecimalString.
Import ListNotations.
Open Scope string_scope.
Open Scope Z_scope.
Open Scope list_scope.

(** Go's [+] on strings. *)
Infix "+++" := String.append (right associativity, at level 60).

(** ** Machine integers *)

Definition wrap64 (x : Z) : Z := (x + 2^63) mod 2^64 - 2^63.

Definition int_add (a b : Z) : Z := wrap64 (a + b).
Definition int_mul (a b : Z) : Z := wrap64 (a * b).

(** [uint(x)] for an [int] x. *)
Definition uint (x : Z) : Z := x mod 2^64.

(** [x << n] on an [int64] x with an unsigned count: bits shifted out are
    lost, a count of 64 or more leaves 0. *)
Definition int_shl (x n : Z) : Z := wrap64 (Z.shiftl x n).

(** Values a PostgreSQL [INTEGER] column can hold. *)
Definition is_int32 (x : Z) : Prop := - 2^31 <= x < 2^31.

(** ** [time] *)

Definition Nanosecond : Z := 1.
Definition Second : Z := 1000000000.
Definition Hour : Z := 3600 * Second.

(** [t.Unix()] *)
Definition Unix (t : Z) : Z := t / Second.

(** [t.Add(d)]: a [time.Time] has 64 bits of seconds of its own, the sum
    does not wrap for any wall-clock time. *)
Definition Time_Add (t d : Z) : Z := t + d.

(** ** [fmt] and [encoding/hex] *)

(** [fmt.Sprintf("%d", n)] *)
Definition decimal (n : Z) : string := NilZero.string_of_int (Z.to_int n).

Definition hex_digit (n : N) : ascii :=
  match n with
  | 0 => "0" | 1 => "1" | 2 => "2" | 3 => "3" | 4 => "4" | 5 => "5"
  | 6 => "6" | 7 => "7" | 8 => "8" | 9 => "9" | 10 => "a" | 11 => "b"
  | 12 => "c" | 13 => "d" | 14 => "e" | _ => "f"
  end%N%char.

(** [hex.EncodeToString] *)
Fixpoint hex_EncodeToString (s : string) : string :=
  match s with
  | EmptyString => EmptyString
  | String c r =>
      let n := N_of_ascii c in
      String (hex_digit (n / 16)) (String (hex_digit (n mod 16)) (hex_EncodeToString r))
  end.

(** the first [n] bytes of [s]: [io.ReadAll(io.LimitReader(r, n))] *)
Definition LimitRead (n : nat) (s : string) : string := substring 0 n s.

(** ** package [models] *)

Definition error := string.

Definition WebhookAuthTypeNone := "none".
Definition WebhookAuthTypeBasic := "basic".
Definition WebhookAuthTypeHMAC := "hmac".

Definition WebhookStatusEnabled := "enabled".
Definition WebhookStatusDisabled := "disabled".

Definition WebhookLogStatusPending := "pending".
Definition WebhookLogStatusSuccess := "success".
Definition WebhookLogStatusFailed := "failed".

Definition AllWebhookEvents : list string :=
  [ "subscriber.created"; "subscriber.updated"; "subscriber.deleted";
    "subscriber.optin_start"; "subscriber.optin_finish";
    "subscriber.added_to_list"; "subscriber.removed_from_list";
    "subscriber.unsubscribed"; "subscriber.bounced";
    "campaign.started"; "campaign.paused"; "campaign.cancelled";
    "campaign.finished" ].

Module Webhook.
Record t := mk {
  ID : Z;
  UUID : string;
  Name : string;
  URL : string;
  Status : string;
  Events : list string;
  AuthType : string;
  AuthBasicUser : string;
  AuthBasicPass : string;
  AuthHMACSecret : string;
  MaxRetries : Z;
  RetryInterval : string;
  Timeout : string;
  CreatedAt : Z;
  UpdatedAt : Z
}.

(** assignments to single fields of a [Webhook] *)
Definition with_Status (v : string) (w : t) : t :=
  mk (ID w) (UUID w) (Name w) (URL w) v (Events w) (AuthType w) (AuthBasicUser w)
    (AuthBasicPass w) (AuthHMACSecret w) (MaxRetries w) (RetryInterval w) (Timeout w)
    (CreatedAt w) (UpdatedAt w).
Definition with_AuthType (v : string) (w : t) : t :=
  mk (ID w) (UUID w) (Name w) (URL w) (Status w) (Events w) v (AuthBasicUser w)
    (AuthBasicPass w) (AuthHMACSecret w) (MaxRetries w) (RetryInterval w) (Timeout w)
    (CreatedAt w) (UpdatedAt w).
Definition with_AuthBasicPass (v : string) (w : t) : t :=
  mk (ID w) (UUID w) (Name w) (URL w) (Status w) (Events w) (AuthType w) (AuthBasicUser w)
    v (AuthHMACSecret w) (MaxRetries w) (RetryInterval w) (Timeout w)
    (CreatedAt w) (UpdatedAt w).
Definition with_AuthHMACSecret (v : string) (w : t) : t :=
  mk (ID w) (UUID w) (Name w) (URL w) (Status w) (Events w) (AuthType w) (AuthBasicUser w)
    (AuthBasicPass w) v (MaxRetries w) (RetryInterval w) (Timeout w)
    (CreatedAt w) (UpdatedAt w).
Definition with_MaxRetries (v : Z) (w : t) : t :=
  mk (ID w) (UUID w) (Name w) (URL w) (Status w) (Events w) (AuthType w) (AuthBasicUser w)
    (AuthBasicPass w) (AuthHMACSecret w) v (RetryInterval w) (Timeout w)
    (CreatedAt w) (UpdatedAt w).
Definition with_RetryInterval (v : string) (w : t) : t :=
  mk (ID w) (UUID w) (Name w) (URL w) (Status w) (Events w) (AuthType w) (AuthBasicUser w)
    (AuthBasicPass w) (AuthHMACSecret w) (MaxRetries w) v (Timeout w)
    (CreatedAt w) (UpdatedAt w).
Definition with_Timeout (v : string) (w : t) : t :=
  mk (ID w) (UUID w) (Name w) (URL w) (Status w) (Events w) (AuthType w) (AuthBasicUser w)
    (AuthBasicPass w) (AuthHMACSecret w) (MaxRetries w) (RetryInterval w) v
    (CreatedAt w) (UpdatedAt w).
End Webhook.

(** The pseudo-fields [Total] and [WebhookName] are filled by the log
    browser's query only and are left out. *)
Module WebhookLog.
Record t := mk {
  ID : Z;
  WebhookID : Z;
  Event : string;
  URL : string;
  Payload : string;
  Status : string;
  ResponseCode : option Z;
  ResponseBody : string;
  Error : string;
  Attempts : Z;
  NextRetryAt : option Z;
  CreatedAt : Z;
  UpdatedAt : Z
}.
End WebhookLog.

Module WebhookEvent.
Record t (any : Type) := mk {
  Event : string;
  Timestamp : Z;
  Data : any
}.
Arguments mk {any}.
Arguments Event {any}.
Arguments Timestamp {any}.
Arguments Data {any}.
End WebhookEvent.

(** [pendingLog]: a log row joined with the delivery policy of its
    webhook. *)
Module pendingLog.
Record t := mk {
  Log : WebhookLog.t;
  MaxRetries : Z;
  Timeout : string;
  AuthType : string;
  AuthBasicUser : string;
  AuthBasicPass : string;
  AuthHMACSecret : string
}.
Definition ID (l : t) := WebhookLog.ID (Log l).
Definition Event (l : t) := WebhookLog.Event (Log l).
Definition URL (l : t) := WebhookLog.URL (Log l).
Definition Payload (l : t) := WebhookLog.Payload (Log l).
Definition Attempts (l : t) := WebhookLog.Attempts (Log l).
End pendingLog.

(** ** What the Go runtime and its libraries provide

    [crypto/hmac] with [crypto/sha256], [encoding/json], [time.ParseDuration],
    the URL check of [http.NewRequest] and the encoding of
    [Request.SetBasicAuth] are library code: the manager is embedded over
    any implementation of them. *)
Class Runtime := {
  any : Type;
  json_Marshal : WebhookEvent.t any -> error + string;
  hmac_sha256 : string -> string -> string;   (* key, message *)
  ParseDuration : string -> error + Z;
  NewRequest_check : string -> option error;  (* method is POST; the URL *)
  basic_auth : string -> string -> string;
  gen_random_uuid : Z -> string
}.

(** ** HTTP *)

Definition Header := list (string * string).

Fixpoint Header_Del (k : string) (h : Header) : Header :=
  match h with
  | [] => []
  | (k', v) :: r => if String.eqb k k' then Header_Del k r else (k', v) :: Header_Del k r
  end.

(** [h.Set(k, v)]; every key the manager uses is in canonical form. *)
Definition Header_Set (k v : string) (h : Header) : Header :=
  Header_Del k h ++ [(k, v)].

Fixpoint Header_Get (k : string) (h : Header) : option string :=
  match h with
  | [] => None
  | (k', v) :: r => if String.eqb k k' then Some v else Header_Get k r
  end.

(** A request as handed to the client; [req_Timeout] is the [Timeout] of
    the [http.Client] it is sent with. *)
Record Request := mkRequest {
  req_Method : string;
  req_URL : string;
  req_Header : Header;
  req_Body : string;
  req_Timeout : Z
}.

Definition set_Header (f : Header -> Header) (r : Request) : Request :=
  mkRequest (req_Method r) (req_URL r) (f (req_Header r)) (req_Body r) (req_Timeout r).

(** What [client.Do] comes back with. *)
Inductive HttpOutcome :=
| TransportError (err : error)
| Response (StatusCode : Z) (Body : string).

(** ** The database *)

Record DB := mkDB {
  webhooks : list Webhook.t;
  webhook_logs : list WebhookLog.t;
  webhooks_id_seq : Z;
  webhook_logs_id_seq : Z
}.

(** Statements as the manager and the core issue them. *)
Inductive Stmt :=
| CreateWebhookStmt (w : Webhook.t)
| GetWebhooksStmt (id : Z)
| GetWebhooksByEventStmt (event : string)
| UpdateWebhookStmt (id : Z) (w : Webhook.t)
| CreateWebhookLogStmt (webhook_id : Z) (event url payload status : string)
    (next_retry_at : option Z)
| UpdateWebhookLogStmt (id : Z) (status : string) (response_code : Z)
    (response_body err : string) (attempts : Z) (next_retry_at : option Z)
| GetPendingWebhookLogsStmt (limit : Z).

(** ** The world *)

Record World := mkWorld {
  db : DB;
  clock : Z;
  ticks : list N;               (* time that passes before each clock read *)
  faults : list (option error); (* whether the database rejects each statement *)
  responses : list HttpOutcome; (* what each HTTP round trip comes back with *)
  sent : list Request;          (* requests given to the HTTP client *)
  issued : list Stmt;           (* statements given to the database *)
  out : list string             (* lines of the logger *)
}.

Definition M (A : Type) : Type := World -> A * World.

Definition ret {A} (a : A) : M A := fun w => (a, w).
Definition bind {A B} (m : M A) (k : A -> M B) : M B :=
  fun w => let (a, w') := m w in k a w'.

Declare Scope go_scope.
Delimit Scope go_scope with go.
Notation "x <- c ;; k" := (bind c (fun x => k))
  (at level 100, c at next level, right associativity) : go_scope.
Notation "c ;;; k" := (bind c (fun _ => k))
  (at level 100, right associativity) : go_scope.
Open Scope go_scope.

(** [for _, x := range l { f x }] *)
Fixpoint for_range {A} (l : list A) (f : A -> M unit) : M unit :=
  match l with
  | [] => ret tt
  | x :: r => f x ;;; for_range r f
  end.

(** What the environment holds next. *)
Definition next_tick (w : World) : Z :=
  match ticks w with [] => 0 | d :: _ => Z.of_N d end.

Definition next_fault (w : World) : option error :=
  match faults w with [] => None | x :: _ => x end.

Definition next_response (w : World) : HttpOutcome :=
  match responses w with [] => TransportError "connection refused" | o :: _ => o end.

(** [time.Now()] *)
Definition time_Now : M Z := fun w =>
  let t := clock w + next_tick w in
  (t, mkWorld (db w) t (tl (ticks w)) (faults w) (responses w) (sent w) (issued w) (out w)).

(** [m.log.Printf] *)
Definition log_Printf (line : string) : M unit := fun w =>
  (tt, mkWorld (db w) (clock w) (ticks w) (faults w) (responses w) (sent w) (issued w)
         (out w ++ [line])).

(** [client.Do(req)] *)
Definition client_Do (req : Request) : M HttpOutcome := fun w =>
  (next_response w, mkWorld (db w) (clock w) (ticks w) (faults w) (tl (responses w)) (sent w ++ [req])
        (issued w) (out w)).

(** A statement runs at the database's [NOW()]; the database may reject
    it for a reason of its own (the next entry of [faults]), and then
    leaves its tables as they were. *)
Definition db_run {A} (s : Stmt) (f : Z -> DB -> error + (A * DB)) : M (error + A) := fun w =>
  let (now, w1) := time_Now w in
  let res := match next_fault w1 with Some e => inl e | None => f now (db w1) end in
  let d' := match res with inr (_, d') => d' | inl _ => db w1 end in
  (match res with inr (a, _) => inr a | inl e => inl e end,
   mkWorld d' (clock w1) (ticks w1) (tl (faults w1)) (responses w1) (sent w1)
     (issued w1 ++ [s]) (out w1)).

(** ** [queries/webhooks.sql] over the schema of migration v5.3.0 *)

Definition is_webhook_status (s : string) : bool :=
  String.eqb s "enabled" || String.eqb s "disabled".

Definition is_webhook_log_status (s : string) : bool :=
  String.eqb s "pending" || String.eqb s "success" || String.eqb s "failed".

Definition mem_string (s : string) (l : list string) : bool :=
  existsb (String.eqb s) l.

(** [ORDER BY key] (ascending; rows with equal keys keep their order). *)
Fixpoint insert_by {A} (key : A -> Z) (x : A) (l : list A) : list A :=
  match l with
  | [] => [x]
  | y :: r => if key x <=? key y then x :: y :: r else y :: insert_by key x r
  end.

Definition order_by {A} (key : A -> Z) (l : list A) : list A :=
  fold_right (insert_by key) [] l.

(** [-- name: get-webhooks-by-event] *)
Definition webhook_matches (event : string) (w : Webhook.t) : bool :=
  String.eqb (Webhook.Status w) "enabled" && mem_string event (Webhook.Events w).

Definition get_webhooks_by_event (event : string) (now : Z) (d : DB)
  : error + (list Webhook.t * DB) :=
  inr (order_by Webhook.CreatedAt (filter (webhook_matches event) (webhooks d)), d).

(** [-- name: create-webhook-log]; [attempts], [response_code],
    [response_body] and [error] take the defaults of the table.  The
    [payload] column is taken to hold the bytes it is given. *)
Definition create_webhook_log (webhook_id : Z) (event url payload status : string)
    (next_retry_at : option Z) (now : Z) (d : DB) : error + (Z * DB) :=
  if negb (existsb (fun w => Webhook.ID w =? webhook_id) (webhooks d)) then
    inl "violates foreign key constraint webhook_logs_webhook_id_fkey"
  else if negb (is_webhook_log_status status) then
    inl "invalid input value for enum webhook_log_status"
  else
    let id := webhook_logs_id_seq d + 1 in
    let row := WebhookLog.mk id webhook_id event url payload status None EmptyString EmptyString 0
                 next_retry_at now now in
    inr (id, mkDB (webhooks d) (webhook_logs d ++ [row]) (webhooks_id_seq d) id).

(** [-- name: update-webhook-log] *)
Definition update_log_row (id : Z) (status : string) (response_code : Z)
    (response_body err : string) (attempts : Z) (next_retry_at : option Z) (now : Z)
    (r : WebhookLog.t) : WebhookLog.t :=
  if WebhookLog.ID r =? id then
    WebhookLog.mk (WebhookLog.ID r) (WebhookLog.WebhookID r) (WebhookLog.Event r)
      (WebhookLog.URL r) (WebhookLog.Payload r) status (Some response_code)
      response_body err attempts next_retry_at (WebhookLog.CreatedAt r) now
  else r.

Definition update_webhook_log (id : Z) (status : string) (response_code : Z)
    (response_body err : string) (attempts : Z) (next_retry_at : option Z) (now : Z)
    (d : DB) : error + (unit * DB) :=
  if negb (is_webhook_log_status status) then
    inl "invalid input value for enum webhook_log_status"
  else
    inr (tt, mkDB (webhooks d)
               (map (update_log_row id status response_code response_body err attempts
                       next_retry_at now) (webhook_logs d))
               (webhooks_id_seq d) (webhook_logs_id_seq d)).

(** [-- name: get-pending-webhook-logs] *)
Definition log_is_due (now : Z) (r : WebhookLog.t) : bool :=
  String.eqb (WebhookLog.Status r) "pending"
  && match WebhookLog.NextRetryAt r with None => true | Some t => t <=? now end.

Definition join_webhook (ws : list Webhook.t) (r : WebhookLog.t) : list pendingLog.t :=
  map (fun w => pendingLog.mk r (Webhook.MaxRetries w) (Webhook.Timeout w)
                  (Webhook.AuthType w) (Webhook.AuthBasicUser w)
                  (Webhook.AuthBasicPass w) (Webhook.AuthHMACSecret w))
      (filter (fun w => Webhook.ID w =? WebhookLog.WebhookID r) ws).

Definition pendingLog_CreatedAt (l : pendingLog.t) : Z :=
  WebhookLog.CreatedAt (pendingLog.Log l).

Definition get_pending_webhook_logs (limit : Z) (now : Z) (d : DB)
  : error + (list pendingLog.t * DB) :=
  if limit <? 0 then inl "LIMIT must not be negative"
  else
    inr (firstn (Z.to_nat limit)
           (order_by pendingLog_CreatedAt
              (filter (fun l => log_is_due now (pendingLog.Log l))
                 (flat_map (join_webhook (webhooks d)) (webhook_logs d)))),
         d).

(** [-- name: create-webhook] *)
Definition create_webhook `{Runtime} (w : Webhook.t) (now : Z) (d : DB)
  : error + ((Z * string) * DB) :=
  if negb (is_webhook_status (Webhook.Status w)) then
    inl "invalid input value for enum webhook_status"
  else
    let id := webhooks_id_seq d + 1 in
    let uuid := gen_random_uuid id in
    let row := Webhook.mk id uuid (Webhook.Name w) (Webhook.URL w) (Webhook.Status w)
                 (Webhook.Events w) (Webhook.AuthType w) (Webhook.AuthBasicUser w)
                 (Webhook.AuthBasicPass w) (Webhook.AuthHMACSecret w)
                 (Webhook.MaxRetries w) (Webhook.RetryInterval w) (Webhook.Timeout w)
                 now now in
    inr ((id, uuid), mkDB (webhooks d ++ [row]) (webhook_logs d) id (webhook_logs_id_seq d)).

(** [-- name: get-webhooks] *)
Definition get_webhooks (id : Z) (now : Z) (d : DB) : error + (list Webhook.t * DB) :=
  inr (rev (order_by Webhook.CreatedAt
              (filter (fun w => (id =? 0) || (Webhook.ID w =? id)) (webhooks d))), d).

(** [-- name: update-webhook]; the result is the number of rows affected. *)
Definition update_webhook_row (id : Z) (w : Webhook.t) (now : Z) (r : Webhook.t) : Webhook.t :=
  if Webhook.ID r =? id then
    Webhook.mk (Webhook.ID r) (Webhook.UUID r) (Webhook.Name w) (Webhook.URL w)
      (Webhook.Status w) (Webhook.Events w) (Webhook.AuthType w) (Webhook.AuthBasicUser w)
      (if String.eqb (Webhook.AuthBasicPass w) EmptyString then Webhook.AuthBasicPass r
       else Webhook.AuthBasicPass w)
      (if String.eqb (Webhook.AuthHMACSecret w) EmptyString then Webhook.AuthHMACSecret r
       else Webhook.AuthHMACSecret w)
      (Webhook.MaxRetries w) (Webhook.RetryInterval w) (Webhook.Timeout w)
      (Webhook.CreatedAt r) now
  else r.

Definition update_webhook (id : Z) (w : Webhook.t) (now : Z) (d : DB) : error + (Z * DB) :=
  if negb (is_webhook_status (Webhook.Status w)) then
    inl "invalid input value for enum webhook_status"
  else
    inr (Z.of_nat (List.length (filter (fun r => Webhook.ID r =? id) (webhooks d))),
         mkDB (map (update_webhook_row id w now) (webhooks d)) (webhook_logs d)
           (webhooks_id_seq d) (webhook_logs_id_seq d)).

(** The prepared statements of [Queries], run against the world. *)
Module Queries.
Definition GetWebhooksByEvent (event : string) : M (error + list Webhook.t) :=
  db_run (GetWebhooksByEventStmt event) (get_webhooks_by_event event).

Definition CreateWebhookLog (webhook_id : Z) (event url payload status : string)
    (next_retry_at : option Z) : M (error + Z) :=
  db_run (CreateWebhookLogStmt webhook_id event url payload status next_retry_at)
    (create_webhook_log webhook_id event url payload status next_retry_at).

Definition UpdateWebhookLog (id : Z) (status : string) (response_code : Z)
    (response_body err : string) (attempts : Z) (next_retry_at : option Z)
  : M (error + unit) :=
  db_run (UpdateWebhookLogStmt id status response_code response_body err attempts
            next_retry_at)
    (update_webhook_log id status response_code response_body err attempts next_retry_at).

Definition GetPendingWebhookLogs (limit : Z) : M (error + list pendingLog.t) :=
  db_run (GetPendingWebhookLogsStmt limit) (get_pending_webhook_logs limit).

Definition CreateWebhook `{Runtime} (w : Webhook.t) : M (error + (Z * string)) :=
  db_run (CreateWebhookStmt w) (create_webhook w).

Definition GetWebhooks (id : Z) : M (error + list Webhook.t) :=
  db_run (GetWebhooksStmt id) (get_webhooks id).

Definition UpdateWebhook (id : Z) (w : Webhook.t) : M (error + Z) :=
  db_run (UpdateWebhookStmt id w) (update_webhook id w).
End Queries.

(** ** package [webhooks]: the manager *)

(** [Manager.computeHMAC] *)
Definition computeHMAC `{Runtime} (payload secret : string) (timestamp : Z) : string :=
  let data := decimal timestamp +++ "." +++ payload in
  "sha256=" +++ hex_EncodeToString (hmac_sha256 secret data).

(** [Manager.updateLogSuccess] *)
Definition updateLogSuccess (l : pendingLog.t) (statusCode : Z) (responseBody : string)
  : M unit :=
  r <- Queries.UpdateWebhookLog (pendingLog.ID l) WebhookLogStatusSuccess statusCode
         responseBody EmptyString (int_add (pendingLog.Attempts l) 1) None ;;
  match r with
  | inl err => log_Printf ("error updating webhook log " +++ decimal (pendingLog.ID l)
                           +++ ": " +++ err)
  | inr _ => ret tt
  end.

(** [Manager.updateLogFailed] *)
Definition updateLogFailed (l : pendingLog.t) (statusCode : Z)
    (responseBody errMsg : string) : M unit :=
  r <- Queries.UpdateWebhookLog (pendingLog.ID l) WebhookLogStatusFailed statusCode
         responseBody errMsg (int_add (pendingLog.Attempts l) 1) None ;;
  match r with
  | inl err => log_Printf ("error updating webhook log " +++ decimal (pendingLog.ID l)
                           +++ ": " +++ err)
  | inr _ => ret tt
  end.

(** The delay computed in [Manager.handleDeliveryError]:
    [backoff := time.Duration(1<<uint(attempts)) * 30 * time.Second],
    cut to [2*time.Hour] when it is above it. *)
Definition backoff (attempts : Z) : Z :=
  let backoff := int_mul (int_mul (int_shl 1 (uint attempts)) 30) Second in
  if backoff >? 2 * Hour then 2 * Hour else backoff.

(** [Manager.handleDeliveryError] *)
Definition handleDeliveryError (l : pendingLog.t) (statusCode : Z)
    (responseBody errMsg : string) : M unit :=
  let attempts := int_add (pendingLog.Attempts l) 1 in
  if attempts >? pendingLog.MaxRetries l then
    updateLogFailed l statusCode responseBody errMsg
  else
    now <- time_Now ;;
    let nextRetry := Time_Add now (backoff attempts) in
    r <- Queries.UpdateWebhookLog (pendingLog.ID l) WebhookLogStatusPending statusCode
           responseBody errMsg attempts (Some nextRetry) ;;
    match r with
    | inl err => log_Printf ("error scheduling retry for webhook log "
                             +++ decimal (pendingLog.ID l) +++ ": " +++ err)
    | inr _ => ret tt
    end.

(** The authentication [switch] of [Manager.deliverWebhook]. *)
Definition apply_auth `{Runtime} (l : pendingLog.t) (req : Request) : M Request :=
  if String.eqb (pendingLog.AuthType l) WebhookAuthTypeBasic then
    ret (set_Header (Header_Set "Authorization"
           ("Basic " +++ basic_auth (pendingLog.AuthBasicUser l) (pendingLog.AuthBasicPass l)))
           req)
  else if String.eqb (pendingLog.AuthType l) WebhookAuthTypeHMAC then
    now <- time_Now ;;
    let timestamp := Unix now in
    let signature := computeHMAC (pendingLog.Payload l) (pendingLog.AuthHMACSecret l)
                       timestamp in
    ret (set_Header (Header_Set "X-Listmonk-Timestamp" (decimal timestamp))
           (set_Header (Header_Set "X-Listmonk-Signature" signature) req))
  else ret req.

(** [Manager.deliverWebhook] *)
Definition deliverWebhook `{Runtime} (l : pendingLog.t) : M unit :=
  let timeout := match ParseDuration (pendingLog.Timeout l) with
                 | inr d => d
                 | inl _ => 30 * Second
                 end in
  match NewRequest_check (pendingLog.URL l) with
  | Some err => updateLogFailed l 0 EmptyString ("error creating request: " +++ err)
  | None =>
      let req := mkRequest "POST" (pendingLog.URL l) [] (pendingLog.Payload l) timeout in
      let req := set_Header (Header_Set "Content-Type" "application/json") req in
      let req := set_Header (Header_Set "User-Agent" "listmonk-webhook/1.0") req in
      let req := set_Header (Header_Set "X-Listmonk-Event" (pendingLog.Event l)) req in
      let req := set_Header (Header_Set "X-Listmonk-Delivery" (decimal (pendingLog.ID l)))
                   req in
      req <- apply_auth l req ;;
      resp <- client_Do req ;;
      match resp with
      | TransportError err => handleDeliveryError l 0 EmptyString ("request failed: " +++ err)
      | Response StatusCode Body =>
          let bodyStr := LimitRead 1024 Body in
          if (StatusCode >=? 200) && (StatusCode <? 300) then
            updateLogSuccess l StatusCode bodyStr
          else
            handleDeliveryError l StatusCode bodyStr
              ("non-2xx status: " +++ decimal StatusCode)
      end
  end.

(** [Manager.processPendingLogs] *)
Definition processPendingLogs `{Runtime} : M unit :=
  r <- Queries.GetPendingWebhookLogs 100 ;;
  match r with
  | inl err => log_Printf ("error fetching pending webhook logs: " +++ err)
  | inr logs => for_range logs deliverWebhook
  end.

(** [Manager.Trigger]; [.UTC()] changes the location of the time read,
    not the instant. *)
Definition Trigger `{Runtime} (event : string) (data : any) : M (option error) :=
  r <- Queries.GetWebhooksByEvent event ;;
  match r with
  | inl err =>
      log_Printf ("error getting webhooks for event " +++ event +++ ": " +++ err) ;;;
      ret (Some err)
  | inr webhooks =>
      if (List.length webhooks =? 0)%nat then ret None
      else
        now <- time_Now ;;
        let payload := WebhookEvent.mk event now data in
        match json_Marshal payload with
        | inl err =>
            log_Printf ("error marshaling webhook payload: " +++ err) ;;;
            ret (Some err)
        | inr payloadBytes =>
            for_range webhooks (fun wh =>
              r <- Queries.CreateWebhookLog (Webhook.ID wh) event (Webhook.URL wh)
                     payloadBytes WebhookLogStatusPending None ;;
              match r with
              | inl err => log_Printf ("error creating webhook log for webhook "
                                       +++ decimal (Webhook.ID wh) +++ ": " +++ err)
              | inr _ => ret tt
              end) ;;;
            ret None
        end
  end.

(** ** package [core]: administration of webhooks *)

(** [echo.NewHTTPError(code, c.i18n.Ts(key, args...))] *)
Inductive HTTPError := NewHTTPError (code : Z) (key : string) (args : list string).

Definition StatusBadRequest := 400.
Definition StatusInternalServerError := 500.

(** Modelled from the spec: [strHasLen] is declared in another file of
    package [core]; section 6.4 gives the two uses as "URL length
    (1..2000), name length (1..200)": the length in bytes lies between
    the two bounds, both included. *)
Definition strHasLen (str : string) (min max : Z) : bool :=
  (Z.of_nat (String.length str) >=? min) && (Z.of_nat (String.length str) <=? max).

(** [strings.Repeat("•", 8)]; the bullet is three bytes of UTF-8. *)
Definition bullet : string := String "226" (String "128" (String "162" EmptyString))%char.
Definition mask : string :=
  bullet +++ bullet +++ bullet +++ bullet +++ bullet +++ bullet +++ bullet +++ bullet.

Module Core.

Definition mask_secrets (w : Webhook.t) : Webhook.t :=
  let w := if negb (String.eqb (Webhook.AuthBasicPass w) EmptyString)
           then Webhook.with_AuthBasicPass mask w else w in
  if negb (String.eqb (Webhook.AuthHMACSecret w) EmptyString)
  then Webhook.with_AuthHMACSecret mask w else w.

(** [Core.GetWebhooks] *)
Definition GetWebhooks (id : Z) : M (HTTPError + list Webhook.t) :=
  r <- Queries.GetWebhooks id ;;
  match r with
  | inl err =>
      log_Printf ("error fetching webhooks: " +++ err) ;;;
      ret (inl (NewHTTPError StatusInternalServerError "globals.messages.errorFetching"
                  ["name"; "{globals.terms.webhook}"; "error"; err]))
  | inr out => ret (inr (map mask_secrets out))
  end.

(** [Core.GetWebhook] *)
Definition GetWebhook (id : Z) : M (HTTPError + Webhook.t) :=
  r <- GetWebhooks id ;;
  match r with
  | inl err => ret (inl err)
  | inr [] => ret (inl (NewHTTPError StatusBadRequest "globals.messages.notFound"
                          ["name"; "{globals.terms.webhook}"]))
  | inr (w :: _) => ret (inr w)
  end.

(** The checks both [CreateWebhook] and [UpdateWebhook] start with. *)
Definition validate (w : Webhook.t) : option HTTPError :=
  if negb (strHasLen (Webhook.Name w) 1 200) then
    Some (NewHTTPError StatusBadRequest "globals.messages.invalidFields" ["name"; "name"])
  else if negb (strHasLen (Webhook.URL w) 1 2000) then
    Some (NewHTTPError StatusBadRequest "globals.messages.invalidFields" ["name"; "url"])
  else if (List.length (Webhook.Events w) =? 0)%nat then
    Some (NewHTTPError StatusBadRequest "globals.messages.invalidFields" ["name"; "events"])
  else if negb (forallb (fun e => mem_string e AllWebhookEvents) (Webhook.Events w)) then
    Some (NewHTTPError StatusBadRequest "globals.messages.invalidFields" ["name"; "events"])
  else None.

Definition coerce_auth_type (w : Webhook.t) : Webhook.t :=
  if negb (String.eqb (Webhook.AuthType w) WebhookAuthTypeNone)
     && negb (String.eqb (Webhook.AuthType w) WebhookAuthTypeBasic)
     && negb (String.eqb (Webhook.AuthType w) WebhookAuthTypeHMAC)
  then Webhook.with_AuthType WebhookAuthTypeNone w else w.

(** The "Set defaults" block of [CreateWebhook]. *)
Definition set_defaults (w : Webhook.t) : Webhook.t :=
  let w := if String.eqb (Webhook.Status w) EmptyString
           then Webhook.with_Status WebhookStatusEnabled w else w in
  let w := if Webhook.MaxRetries w <=? 0 then Webhook.with_MaxRetries 3 w else w in
  let w := if String.eqb (Webhook.RetryInterval w) EmptyString
           then Webhook.with_RetryInterval "30s" w else w in
  if String.eqb (Webhook.Timeout w) EmptyString then Webhook.with_Timeout "30s" w else w.

(** [Core.CreateWebhook] *)
Definition CreateWebhook `{Runtime} (w : Webhook.t) : M (HTTPError + Webhook.t) :=
  match validate w with
  | Some e => ret (inl e)
  | None =>
      let w := coerce_auth_type w in
      let w := set_defaults w in
      r <- Queries.CreateWebhook w ;;
      match r with
      | inl err =>
          log_Printf ("error creating webhook: " +++ err) ;;;
          ret (inl (NewHTTPError StatusInternalServerError "globals.messages.errorCreating"
                      ["name"; "{globals.terms.webhook}"; "error"; err]))
      | inr (id, uuid) => GetWebhook id
      end
  end.

(** [Core.UpdateWebhook] *)
Definition UpdateWebhook (id : Z) (w : Webhook.t) : M (HTTPError + Webhook.t) :=
  match validate w with
  | Some e => ret (inl e)
  | None =>
      let w := coerce_auth_type w in
      r <- Queries.UpdateWebhook id w ;;
      match r with
      | inl err =>
          log_Printf ("error updating webhook: " +++ err) ;;;
          ret (inl (NewHTTPError StatusInternalServerError "globals.messages.errorUpdating"
                      ["name"; "{globals.terms.webhook}"; "error"; err]))
      | inr n =>
          if n =? 0 then
            ret (inl (NewHTTPError StatusBadRequest "globals.messages.notFound"
                        ["name"; "{globals.terms.webhook}"]))
          else GetWebhook id
      end
  end.

End Core.

(** ** The worker pool

    The manager's goroutines are interleaved by the scheduler: the pool is
    a transition system over [Sys], one [Event] per step.  A worker is
    blocked in its [select] between two steps; a batch
    ([processPendingLogs]) runs as one step here, and is split into its
    statements in [Race], further down. *)

Record Opt := mkOpt {
  Workers : Z;
  Interval : Z
}.

(** A goroutine running [Manager.worker(id)], and whether its ticker's
    channel holds a tick. *)
Record Goroutine := mkGoroutine {
  gid : nat;
  worker_id : Z;
  tick_ready : bool
}.

Record Sys := mkSys {
  opts : Opt;
  isRunning : bool;
  stopCh_closed : bool;
  workers : list Goroutine;   (* the goroutines counted by [wg] *)
  spawned : nat;
  waiting : nat;              (* calls of [Close] blocked in [wg.Wait()] *)
  panicked : bool;
  world : World
}.

(** The cases of the [select] in [Manager.worker]. *)
Inductive SelectCase := RecvStop | RecvTick.

Inductive Event :=
| CallRun
| CallClose
| CloseReturns
| TickerFires (g : nat)
| Select (g : nat) (c : SelectCase).

(** [New] *)
Definition New (opt : Opt) (w : World) : Sys :=
  let opt := if Workers opt <=? 0 then mkOpt 2 (Interval opt) else opt in
  let opt := if Interval opt <=? 0 then mkOpt (Workers opt) (5 * Second) else opt in
  mkSys opt false false [] 0 0 false w.

(** [Manager.Run] *)
Definition Run (s : Sys) : Sys :=
  if isRunning s then s
  else
    let n := Z.to_nat (Workers (opts s)) in
    let started := map (fun i => mkGoroutine (spawned s + i) (Z.of_nat i) false) (seq 0 n) in
    mkSys (opts s) true (stopCh_closed s) (workers s ++ started) (spawned s + n)
      (waiting s) (panicked s)
      (snd (log_Printf ("starting webhook manager with "
                        +++ decimal (Workers (opts s)) +++ " workers") (world s))).

(** [Manager.Close], up to [wg.Wait()]; closing a closed channel panics. *)
Definition Close (s : Sys) : Sys :=
  if negb (isRunning s) then s
  else if stopCh_closed s then
    mkSys (opts s) false true (workers s) (spawned s) (waiting s) true (world s)
  else
    mkSys (opts s) false true (workers s) (spawned s) (S (waiting s)) (panicked s) (world s).

Definition is_live (g : nat) (s : Sys) : bool :=
  existsb (fun r => Nat.eqb (gid r) g) (workers s).

Definition has_tick (g : nat) (s : Sys) : bool :=
  existsb (fun r => Nat.eqb (gid r) g && tick_ready r) (workers s).

Definition set_tick (g : nat) (b : bool) (r : Goroutine) : Goroutine :=
  if Nat.eqb (gid r) g then mkGoroutine (gid r) (worker_id r) b else r.

Definition with_workers (ws : list Goroutine) (s : Sys) : Sys :=
  mkSys (opts s) (isRunning s) (stopCh_closed s) ws (spawned s) (waiting s) (panicked s)
    (world s).

Definition with_world (w : World) (s : Sys) : Sys :=
  mkSys (opts s) (isRunning s) (stopCh_closed s) (workers s) (spawned s) (waiting s)
    (panicked s) w.

(** [Manager.worker]: one round of its loop, in which the [select] takes
    case [c]; [None] when that case is not ready.  A [select] may take
    any case whose channel is ready: [RecvStop] once [stopCh] is closed
    (the worker returns, [wg.Done()]), [RecvTick] when the ticker
    delivered a tick (the worker runs a batch and loops). *)
Definition worker `{Runtime} (g : nat) (c : SelectCase) (s : Sys) : option Sys :=
  match c with
  | RecvStop =>
      if is_live g s && stopCh_closed s then
        Some (with_workers (filter (fun r => negb (Nat.eqb (gid r) g)) (workers s)) s)
      else None
  | RecvTick =>
      if has_tick g s then
        Some (with_world (snd (processPendingLogs (world s)))
                (with_workers (map (set_tick g false) (workers s)) s))
      else None
  end.

(** One step of the pool; [None] when the event cannot happen in [s]. *)
Definition sys_step `{Runtime} (e : Event) (s : Sys) : option Sys :=
  if panicked s then None
  else
    match e with
    | CallRun => Some (Run s)
    | CallClose => Some (Close s)
    | CloseReturns =>
        match waiting s, workers s with
        | S n, [] =>
            Some (mkSys (opts s) (isRunning s) (stopCh_closed s) [] (spawned s) n
                    (panicked s) (snd (log_Printf "webhook manager stopped" (world s))))
        | _, _ => None
        end
    | TickerFires g =>
        if is_live g s then Some (with_workers (map (set_tick g true) (workers s)) s)
        else None
    | Select g c => worker g c s
    end.

Fixpoint sys_run `{Runtime} (es : list Event) (s : Sys) : option Sys :=
  match es with
  | [] => Some s
  | e :: r => match sys_step e s with Some s' => sys_run r s' | None => None end
  end.

(** The number of reads of pending logs the database has been given. *)
Definition fetches (w : World) : nat :=
  List.length (filter (fun s => match s with GetPendingWebhookLogsStmt _ => true | _ => false end)
                 (issued w)).

(** ** A runtime to compute with

    A stand-in for the library code, used to run the embedding on concrete
    inputs: a [Data] value is [Some] JSON text or a value [encoding/json]
    refuses ([None]); the keyed hash is not SHA-256. *)
#[export] Instance ExampleRuntime : Runtime := {|
  any := option string;
  json_Marshal := fun ev =>
    match WebhookEvent.Data ev with
    | Some d => inr ("{event:" +++ WebhookEvent.Event ev +++ ",timestamp:"
                     +++ decimal (WebhookEvent.Timestamp ev) +++ ",data:" +++ d +++ "}")
    | None => inl "json: unsupported type: chan int"
    end;
  hmac_sha256 := fun key msg => key +++ "|" +++ msg;
  ParseDuration := fun s =>
    if String.eqb s "30s" then inr (30 * Second)
    else if String.eqb s "10s" then inr (10 * Second)
    else inl "time: invalid duration";
  NewRequest_check := fun url =>
    if String.eqb url "://" then Some "parse: missing protocol scheme" else None;
  basic_auth := fun u p => u +++ ":" +++ p;
  gen_random_uuid := fun id => "uuid-" +++ decimal id
|}.

(** ** Notions used in the statements *)

(** The delays of the first 29 values of [attempts], checked against the
    capped doubling. *)
Definition backoff_table_ok : bool :=
  forallb (fun a => backoff a =? Z.min (2 * Hour) (30 * Second * 2 ^ a))
    (map Z.of_nat (seq 0 29)).

(** The tables after [update-webhook-log] ran at [now]. *)
Definition db_after_update (id : Z) (status : string) (response_code : Z)
    (response_body err : string) (attempts : Z) (next_retry_at : option Z) (now : Z)
    (d : DB) : DB :=
  mkDB (webhooks d)
    (map (update_log_row id status response_code response_body err attempts next_retry_at now)
       (webhook_logs d))
    (webhooks_id_seq d) (webhook_logs_id_seq d).

(** From [w] to [w'] exactly one statement was given to the database, the
    update of log [id] with these values, and the database applied it
    unless it rejected the statement. *)
Definition writes (w w' : World) (id : Z) (status : string) (response_code : Z)
    (response_body err : string) (attempts : Z) (next_retry_at : option Z) : Prop :=
  issued w' = issued w ++ [UpdateWebhookLogStmt id status response_code response_body err
                             attempts next_retry_at]
  /\ clock w <= clock w'
  /\ db w' = match next_fault w with
             | Some _ => db w
             | None => db_after_update id status response_code response_body err attempts
                         next_retry_at (clock w') (db w)
             end.

(** What [handleDeliveryError] leaves behind: out of retries the row is
    closed as failed, otherwise it stays pending and is due again the
    computed delay after a time read during the call. *)
Definition retries_or_fails (w w' : World) (l : pendingLog.t) (code : Z)
    (body err : string) : Prop :=
  let a := int_add (pendingLog.Attempts l) 1 in
  (a > pendingLog.MaxRetries l ->
     writes w w' (pendingLog.ID l) WebhookLogStatusFailed code body err a None) /\
  (a <= pendingLog.MaxRetries l ->
     exists now, clock w <= now <= clock w' /\
       writes w w' (pendingLog.ID l) WebhookLogStatusPending code body err a
         (Some (Time_Add now (backoff a)))).

(** Between [w] and [w1] the database was not touched. *)
Definition db_untouched (w w1 : World) : Prop :=
  issued w1 = issued w /\ db w1 = db w /\ faults w1 = faults w /\ clock w <= clock w1.

(** The outcome of one run of [deliverWebhook] on [l], by what the
    request check and the receiver answer. *)
Definition delivery_outcome `{Runtime} (w w' : World) (l : pendingLog.t) : Prop :=
  match NewRequest_check (pendingLog.URL l) with
  | Some e =>
      writes w w' (pendingLog.ID l) WebhookLogStatusFailed 0 EmptyString
        ("error creating request: " +++ e) (int_add (pendingLog.Attempts l) 1) None
  | None =>
      match next_response w with
      | TransportError e =>
          retries_or_fails w w' l 0 EmptyString ("request failed: " +++ e)
      | Response code body =>
          if (code >=? 200) && (code <? 300) then
            writes w w' (pendingLog.ID l) WebhookLogStatusSuccess code (LimitRead 1024 body)
              EmptyString (int_add (pendingLog.Attempts l) 1) None
          else
            retries_or_fails w w' l code (LimitRead 1024 body)
              ("non-2xx status: " +++ decimal code)
      end
  end.

(** The row of log [id] in the table. *)
Definition stored (id : Z) (w : World) : option WebhookLog.t :=
  find (fun r => WebhookLog.ID r =? id) (webhook_logs (db w)).

(** The columns an update sets. *)
Definition row_has (r : WebhookLog.t) (status : string) (response_code : Z)
    (response_body err : string) (attempts : Z) (next_retry_at : option Z) : Prop :=
  WebhookLog.Status r = status /\
  WebhookLog.ResponseCode r = Some response_code /\
  WebhookLog.ResponseBody r = response_body /\
  WebhookLog.Error r = err /\
  WebhookLog.Attempts r = attempts /\
  WebhookLog.NextRetryAt r = next_retry_at.

(** The columns fixed when the row was created. *)
Definition same_snapshot (r r' : WebhookLog.t) : Prop :=
  WebhookLog.ID r' = WebhookLog.ID r /\
  WebhookLog.WebhookID r' = WebhookLog.WebhookID r /\
  WebhookLog.Event r' = WebhookLog.Event r /\
  WebhookLog.URL r' = WebhookLog.URL r /\
  WebhookLog.Payload r' = WebhookLog.Payload r /\
  WebhookLog.CreatedAt r' = WebhookLog.CreatedAt r.

(** ** Concrete inputs to run the embedding on *)

Definition example_webhook (max_retries : Z) : Webhook.t :=
  Webhook.mk 1 "uuid-1" "hook" "http://r/ok" "enabled" ["subscriber.created"] "hmac"
    EmptyString EmptyString "k" max_retries "30s" "30s" 5 5.

Definition example_log (attempts : Z) : WebhookLog.t :=
  WebhookLog.mk 1 1 "subscriber.created" "http://r/ok" "{}" "pending" None
    EmptyString EmptyString attempts None 10 10.

(** a log row as [get-pending-webhook-logs] joins it with its webhook *)
Definition example_pending (attempts max_retries : Z) : pendingLog.t :=
  pendingLog.mk (example_log attempts) max_retries "30s" "hmac" EmptyString EmptyString "k".

(** One webhook, one pending log of it; the clock stands at 1700000000
    seconds and moves by 1 ns at each of the first reads. *)
Definition example_world (attempts max_retries : Z) (fl : list (option error))
    (rs : list HttpOutcome) : World :=
  mkWorld (mkDB [example_webhook max_retries] [example_log attempts] 1 1)
    (1700000000 * Second) [1%N; 1%N; 1%N; 1%N] fl rs [] [] [].

(** The end of [deliverWebhook], from the result of [client.Do] on, and
    the request it builds before authentication; named to state lemmas
    about the parts of the function. *)
Definition record_outcome (l : pendingLog.t) (resp : HttpOutcome) : M unit :=
  match resp with
  | TransportError err => handleDeliveryError l 0 EmptyString ("request failed: " +++ err)
  | Response StatusCode Body =>
      if (StatusCode >=? 200) && (StatusCode <? 300) then
        updateLogSuccess l StatusCode (LimitRead 1024 Body)
      else
        handleDeliveryError l StatusCode (LimitRead 1024 Body)
          ("non-2xx status: " +++ decimal StatusCode)
  end.

Definition base_request `{Runtime} (l : pendingLog.t) : Request :=
  mkRequest "POST" (pendingLog.URL l)
    [("Content-Type", "application/json"); ("User-Agent", "listmonk-webhook/1.0");
     ("X-Listmonk-Event", pendingLog.Event l);
     ("X-Listmonk-Delivery", decimal (pendingLog.ID l))]
    (pendingLog.Payload l)
    match ParseDuration (pendingLog.Timeout l) with inr d => d | inl _ => 30 * Second end.

(** The webhooks [get-webhooks-by-event] selects for [event]. *)
Definition matching (event : string) (d : DB) : list Webhook.t :=
  filter (webhook_matches event) (webhooks d).

(** The body of the loop of [Trigger], and the statement it issues. *)
Definition insert_log (event payloadBytes : string) (wh : Webhook.t) : M unit :=
  r <- Queries.CreateWebhookLog (Webhook.ID wh) event (Webhook.URL wh)
         payloadBytes WebhookLogStatusPending None ;;
  match r with
  | inl err => log_Printf ("error creating webhook log for webhook "
                           +++ decimal (Webhook.ID wh) +++ ": " +++ err)
  | inr _ => ret tt
  end.

Definition insert_stmt (event payloadBytes : string) (wh : Webhook.t) : Stmt :=
  CreateWebhookLogStmt (Webhook.ID wh) event (Webhook.URL wh) payloadBytes
    WebhookLogStatusPending None.

(** How many of the next [n] statements the database rejects. *)
Fixpoint rejected_among (n : nat) (fl : list (option error)) : nat :=
  match n, fl with
  | S n', Some _ :: r => S (rejected_among n' r)
  | S n', None :: r => rejected_among n' r
  | _, _ => 0%nat
  end.

(** The time of the [n]-th clock read from [w] on (counting from 0). *)
Fixpoint time_of_read (n : nat) (c : Z) (tk : list N) : Z :=
  match n with
  | O => c + match tk with [] => 0 | d :: _ => Z.of_N d end
  | S n' => time_of_read n' (c + match tk with [] => 0 | d :: _ => Z.of_N d end) (tl tk)
  end.

(** A row as [Trigger] creates it for one of [whs]. *)
Definition fresh_row (event payloadBytes : string) (whs : list Webhook.t)
    (r : WebhookLog.t) : Prop :=
  WebhookLog.Status r = WebhookLogStatusPending /\
  WebhookLog.Attempts r = 0 /\
  WebhookLog.NextRetryAt r = None /\
  WebhookLog.Payload r = payloadBytes /\
  WebhookLog.Event r = event /\
  WebhookLog.ResponseCode r = None /\
  exists wh, In wh whs /\ WebhookLog.WebhookID r = Webhook.ID wh /\
             WebhookLog.URL r = Webhook.URL wh.

(** a value that serializes, and one that [encoding/json] refuses *)
Definition example_data : @any ExampleRuntime := Some "{}".
Definition example_chan : @any ExampleRuntime := None.

(** The log an update statement names. *)
Definition updated_id (s : Stmt) : option Z :=
  match s with
  | UpdateWebhookLogStmt id _ _ _ _ _ _ => Some id
  | _ => None
  end.

(** A joined row that is pending and due at [now]. *)
Definition is_due (now : Z) (l : pendingLog.t) : Prop :=
  WebhookLog.Status (pendingLog.Log l) = WebhookLogStatusPending /\
  (WebhookLog.NextRetryAt (pendingLog.Log l) = None \/
   exists t, WebhookLog.NextRetryAt (pendingLog.Log l) = Some t /\ t <= now).

(** a webhook as the admin API receives it, with [max_retries] as given *)
Definition example_input (max_retries : Z) : Webhook.t :=
  Webhook.mk 0 EmptyString "hook" "http://r/ok" "enabled" ["subscriber.created"] "none"
    EmptyString EmptyString EmptyString max_retries EmptyString EmptyString 0 0.

(** ** Notions about the pool *)

(** Goroutine numbers are given out in order. *)
Definition gids_bounded (s : Sys) : Prop :=
  Forall (fun r => (gid r < spawned s)%nat) (workers s).

(** C9 as stated: once [stopCh] is closed, no step of the pool begins a
    read of pending logs. *)
Definition no_fetch_after_Close `{Runtime} : Prop :=
  forall (opt : Opt) (w : World) (es : list Event) (s s' : Sys) (e : Event),
    sys_run es (New opt w) = Some s ->
    stopCh_closed s = true ->
    sys_step e s = Some s' ->
    fetches (world s') = fetches (world s).

(** A pool of one worker that was started, whose ticker fired, and on
    which [Close] was then called. *)
Definition example_pool : Sys :=
  New (mkOpt 1 (5 * Second)) (example_world 0 3 [] []).

Definition example_closed_pool : Sys :=
  match @sys_run ExampleRuntime [CallRun; TickerFires 0; CallClose] example_pool with
  | Some s => s
  | None => example_pool
  end.

(** The world of the end-to-end scenarios: one webhook with hmac
    authentication, no log yet; [tk] is the time that passes before each
    clock read, [rs] what the receiver answers. *)
Definition scenario_world (max_retries : Z) (tk : list N) (rs : list HttpOutcome) : World :=
  mkWorld (mkDB [example_webhook max_retries] [] 1 0) (1700000000 * Second) tk [] rs
    [] [] [].

(** the columns of the log table a scenario looks at *)
Definition log_summary (w : World) : list (string * Z * option Z * option Z) :=
  map (fun r => (WebhookLog.Status r, WebhookLog.Attempts r, WebhookLog.ResponseCode r,
                 WebhookLog.NextRetryAt r))
    (webhook_logs (db w)).

(** ** More of the code: deletion and the test handler *)

(** [-- name: delete-webhooks]; the foreign key of [webhook_logs] is
    declared [ON DELETE CASCADE]: the logs of a deleted webhook go with
    it. *)
Definition delete_webhooks (ids : list Z) (now : Z) (d : DB) : error + (unit * DB) :=
  let deleted := filter (fun w => existsb (Z.eqb (Webhook.ID w)) ids) (webhooks d) in
  inr (tt,
       mkDB (filter (fun w => negb (existsb (Z.eqb (Webhook.ID w)) ids)) (webhooks d))
         (filter (fun r => negb (existsb (fun w => Webhook.ID w =? WebhookLog.WebhookID r)
                                   deleted))
            (webhook_logs d))
         (webhooks_id_seq d) (webhook_logs_id_seq d)).

Module App.

(** [App.TestWebhook]; [id] is what [getID(c)] reads from the request,
    [testData id name] the Go map the handler builds from the webhook's
    id and name, and [inr true] the reply [okResp{true}] with status 200. *)
Definition TestWebhook `{Runtime} (testData : Z -> string -> any) (id : Z)
  : M (HTTPError + bool) :=
  r <- Core.GetWebhook id ;;
  match r with
  | inl err => ret (inl err)
  | inr wh =>
      e <- Trigger "webhook.test" (testData (Webhook.ID wh) (Webhook.Name wh)) ;;
      match e with
      | Some err =>
          ret (inl (NewHTTPError StatusInternalServerError "globals.messages.errorCreating"
                      ["name"; "test webhook"; "error"; err]))
      | None => ret (inr true)
      end
  end.

End App.

(** ** Notions used in the further statements *)

(** Every stored webhook subscribes only to events of [AllWebhookEvents]. *)
Definition events_admitted (d : DB) : Prop :=
  Forall (fun w => forallb (fun e => mem_string e AllWebhookEvents) (Webhook.Events w) = true)
    (webhooks d).

(** Referential integrity: every log refers to a stored webhook. *)
Definition fk_ok (d : DB) : Prop :=
  Forall (fun r => exists w, In w (webhooks d) /\ Webhook.ID w = WebhookLog.WebhookID r)
    (webhook_logs d).

(** The ids of the logs are distinct and were given out by the sequence. *)
Definition log_ids_fresh (d : DB) : Prop :=
  NoDup (map WebhookLog.ID (webhook_logs d)) /\
  Forall (fun r => WebhookLog.ID r <= webhook_logs_id_seq d) (webhook_logs d).

(** The columns of a log row that are set once, when it is created. *)
Definition snapshot (r : WebhookLog.t) : Z * Z * string * string * string * Z :=
  (WebhookLog.ID r, WebhookLog.WebhookID r, WebhookLog.Event r, WebhookLog.URL r,
   WebhookLog.Payload r, WebhookLog.CreatedAt r).

(** A character [hex.EncodeToString] can produce. *)
Definition is_lower_hex (c : ascii) : bool :=
  let n := N_of_ascii c in
  ((48 <=? n) && (n <=? 57) || (97 <=? n) && (n <=? 102))%N.

Fixpoint all_chars (p : ascii -> bool) (s : string) : bool :=
  match s with
  | EmptyString => true
  | String c r => p c && all_chars p r
  end.


(** The rows of a batch that get as far as the HTTP client. *)
Definition sendable `{Runtime} (batch : list pendingLog.t) : list pendingLog.t :=
  filter (fun l => match NewRequest_check (pendingLog.URL l) with
                   | None => true
                   | Some _ => false
                   end) batch.

(** a secret as [GetWebhooks] shows it *)
Definition shown_secret (stored_secret : string) : string :=
  if String.eqb stored_secret EmptyString then EmptyString else mask.

(** What is checked of the delay for a count of attempts [a]. *)
Definition backoff_profile_ok (a : Z) : bool :=
  (backoff a =? Z.min (2 * Hour) (30 * Second * 2 ^ a))
  && (0 <? backoff a) && (backoff a <=? 2 * Hour)
  && (if a <=? 7 then backoff a =? 30 * Second * 2 ^ a else backoff a =? 2 * Hour).

(** The world once statement [s] ran without changing the tables. *)
Definition after_statement (s : Stmt) (w : World) : World :=
  mkWorld (db w) (clock w + next_tick w) (tl (ticks w)) (tl (faults w)) (responses w)
    (sent w) (issued w ++ [s]) (out w).

(** The rows a worker polling at [w] gets. *)
Definition batch_of (w : World) : list pendingLog.t :=
  match get_pending_webhook_logs 100 (clock w + next_tick w) (db w) with
  | inr (rows, _) => rows
  | inl _ => []
  end.

(** ** Workers racing on the log table

    [processPendingLogs] reads its batch with one statement and then
    updates the rows of the batch one at a time.  [get-pending-webhook-logs]
    takes no lock, [update-webhook-log] names its row by id alone, and
    [New] starts two workers unless told otherwise: between the read of a
    worker and one of its updates, another worker may read or update the
    same row, [Trigger] may add rows and [UpdateWebhook] may change the
    webhook, [max_retries] included, which is joined anew at each read.

    Here a batch is split into its statements.  Every worker holds the
    copies it has read and not yet delivered, and an [Action] is a call
    of [Trigger], the read of a worker, one call of [deliverWebhook] on
    the next copy a worker holds, or a call of [UpdateWebhook]; a run is
    any sequence of them.  [deliverWebhook] touches the tables with its
    last statement only, the update, computed from the copy, the answer
    of the receiver and the clock: the call is placed where its update
    falls.  Creating and deleting webhooks and deleting log rows are not
    followed, nor are the start and the stop of the manager (see [Sys]). *)

Inductive Action `{Runtime} :=
| Fire (event : string) (data : any)        (* [Trigger] *)
| Poll (g : nat)                            (* the read of worker [g] *)
| Deliver (g : nat)                         (* [deliverWebhook] on its next copy *)
| AdminUpdate (id : Z) (input : Webhook.t). (* [Core.UpdateWebhook] *)

(** [held g] is the rest of [logs] in the loop of worker [g]. *)
Record Race := mkRace {
  held : nat -> list pendingLog.t;
  shared : World
}.

Definition set_held (g : nat) (q : list pendingLog.t) (h : nat -> list pendingLog.t)
  : nat -> list pendingLog.t :=
  fun g' => if Nat.eqb g' g then q else h g'.

(** One action; [None] when it cannot happen in [s].  A worker is
    sequential: it reads a new batch only when it is through with the
    last one, and [Poll g] followed by a [Deliver g] per row read is
    [processPendingLogs]. *)
Definition race_step `{Runtime} (a : Action) (s : Race) : option Race :=
  match a with
  | Fire event data => Some (mkRace (held s) (snd (Trigger event data (shared s))))
  | Poll g =>
      match held s g with
      | _ :: _ => None
      | [] =>
          let (r, w1) := Queries.GetPendingWebhookLogs 100 (shared s) in
          match r with
          | inl err =>
              Some (mkRace (held s)
                      (snd (log_Printf ("error fetching pending webhook logs: " +++ err)
                              w1)))
          | inr logs => Some (mkRace (set_held g logs (held s)) w1)
          end
      end
  | Deliver g =>
      match held s g with
      | [] => None
      | l :: rest =>
          Some (mkRace (set_held g rest (held s)) (snd (deliverWebhook l (shared s))))
      end
  | AdminUpdate id input =>
      Some (mkRace (held s) (snd (Core.UpdateWebhook id input (shared s))))
  end.

Fixpoint race_run `{Runtime} (es : list Action) (s : Race) : option Race :=
  match es with
  | [] => Some s
  | a :: r => match race_step a s with Some s' => race_run r s' | None => None end
  end.

(** No worker holds a copy. *)
Definition idle (w : World) : Race := mkRace (fun _ => []) w.










(** ** Runs of racing workers to compute with *)

Definition example_fire : @Action ExampleRuntime := Fire "subscriber.created" example_data.


(** The status and the attempts of row [id] after the run of [es]. *)
Definition row_after `{Runtime} (es : list Action) (s : Race) (id : Z) : option (string * Z) :=
  match race_run es s with
  | Some s' => option_map (fun r => (WebhookLog.Status r, WebhookLog.Attempts r))
                 (stored id (shared s'))
  | None => None
  end.








(** A row closed as success, and a second one that is pending; no worker
    holds a copy. *)
Definition example_settled : Race :=
  idle (mkWorld (mkDB [example_webhook 3]
                   [WebhookLog.mk 1 1 "subscriber.created" "http://r/ok" "{}" "success"
                      (Some 200) "ok" EmptyString 1 None 10 11;
                    WebhookLog.mk 2 1 "subscriber.created" "http://r/ok" "{}" "pending"
                      None EmptyString EmptyString 0 None 12 12] 1 2)
          (1700000000 * Second) [] [] [Response 500 "no"] [] [] []).

(** * Properties *)

(** ** Machine arithmetic *)

Lemma wrap64_small (x : Z) : - 2^63 <= x < 2^63 -> wrap64 x = x.
Proof.
  intros Hx. unfold wrap64.
  rewrite Z.mod_small by lia. lia.
Qed.

Lemma int_add_1 (a : Z) : is_int32 a -> int_add a 1 = a + 1.
Proof.
  unfold is_int32, int_add. intros Ha. apply wrap64_small. lia.
Qed.

(** ** The backoff schedule *)


(** Up to 28 attempts the delay is the capped doubling of 30 seconds. *)
Lemma backoff_exact (a : Z) :
  0 <= a <= 28 -> backoff a = Z.min (2 * Hour) (30 * Second * 2 ^ a).
Proof.
  intros Ha.
  assert (Hall : backoff_table_ok = true) by (vm_compute; reflexivity).
  unfold backoff_table_ok in Hall. rewrite forallb_forall in Hall.
  apply Z.eqb_eq, Hall.
  rewrite <- (Z2Nat.id a) by lia.
  apply in_map, in_seq. lia.
Qed.

Lemma backoff_default_schedule :
  backoff 1 = 60 * Second /\ backoff 2 = 120 * Second /\ backoff 3 = 240 * Second.
Proof. repeat split; vm_compute; reflexivity. Qed.

Lemma backoff_positive (a : Z) : 0 <= a <= 28 -> 0 < backoff a.
Proof.
  intros Ha. rewrite backoff_exact by exact Ha.
  assert (0 < 2 ^ a) by (apply Z.pow_pos_nonneg; lia).
  unfold Hour, Second. lia.
Qed.

(** C3: with 29 attempts the product [2^29 * 30 * 10^9] no longer fits 64
    bits; the delay the code computes is negative, not the two hours of
    [min(2h, 30s * 2^a)]. *)
Theorem backoff_wraps_at_29 :
  backoff 29 = - 2340616713709551616 /\
  Z.min (2 * Hour) (30 * Second * 2 ^ 29) = 2 * Hour /\
  backoff 29 <> Z.min (2 * Hour) (30 * Second * 2 ^ 29).
Proof.
  repeat split; try (vm_compute; reflexivity).
  vm_compute. discriminate.
Qed.

(** ** The log-state updates *)

Lemma next_tick_nonneg (w : World) : 0 <= next_tick w.
Proof. unfold next_tick. destruct (ticks w); lia. Qed.

(** Case analysis on what the environment holds next. *)
Ltac world_cases w :=
  let d := fresh "d" in let c := fresh "c" in let tk := fresh "tk" in
  let fl := fresh "fl" in let rs := fresh "rs" in let sn := fresh "sn" in
  let iss := fresh "iss" in let o := fresh "o" in
  destruct w as [d c tk fl rs sn iss o];
  destruct tk as [|? [|? tk]]; destruct fl as [|[?|] fl].

Lemma updateLogSuccess_writes (l : pendingLog.t) (code : Z) (body : string) (w : World) :
  writes w (snd (updateLogSuccess l code body w)) (pendingLog.ID l) WebhookLogStatusSuccess
    code body EmptyString (int_add (pendingLog.Attempts l) 1) None.
Proof.
  world_cases w; unfold writes; cbn; repeat split; try reflexivity; lia.
Qed.

Lemma updateLogFailed_writes (l : pendingLog.t) (code : Z) (body err : string) (w : World) :
  writes w (snd (updateLogFailed l code body err w)) (pendingLog.ID l) WebhookLogStatusFailed
    code body err (int_add (pendingLog.Attempts l) 1) None.
Proof.
  world_cases w; unfold writes; cbn; repeat split; try reflexivity; lia.
Qed.

Lemma handleDeliveryError_writes (l : pendingLog.t) (code : Z) (body err : string)
    (w : World) :
  retries_or_fails w (snd (handleDeliveryError l code body err w)) l code body err.
Proof.
  unfold retries_or_fails, handleDeliveryError. cbv zeta.
  destruct (Z.gtb_spec (int_add (pendingLog.Attempts l) 1) (pendingLog.MaxRetries l)) as [Hgt|Hle].
  - split; [intros _; apply updateLogFailed_writes | lia].
  - split; [lia | intros _].
    exists (clock w + next_tick w).
    world_cases w; unfold writes; cbn;
      repeat split; try reflexivity; lia.
Qed.

Lemma db_untouched_refl (w : World) : db_untouched w w.
Proof. unfold db_untouched. repeat split; lia. Qed.

Lemma db_untouched_trans (w w1 w2 : World) :
  db_untouched w w1 -> db_untouched w1 w2 -> db_untouched w w2.
Proof.
  unfold db_untouched. intros (A & B & C & D) (A' & B' & C' & D').
  repeat split; try congruence; lia.
Qed.

Lemma writes_after_untouched (w w1 w' : World) id st code body err a next :
  db_untouched w w1 -> writes w1 w' id st code body err a next ->
  writes w w' id st code body err a next.
Proof.
  unfold db_untouched, writes, next_fault.
  intros (A & B & C & D) (A' & B' & C').
  rewrite A, B, C in *. repeat split; try assumption; lia.
Qed.

Lemma retries_or_fails_after_untouched (w w1 w' : World) l code body err :
  db_untouched w w1 -> retries_or_fails w1 w' l code body err ->
  retries_or_fails w w' l code body err.
Proof.
  intros Hu [Hf Hp]. split.
  - intros Ha. eapply writes_after_untouched; eauto.
  - intros Ha. destruct (Hp Ha) as (now & Hnow & Hw).
    exists now. split.
    + destruct Hu as (_ & _ & _ & Hc). lia.
    + eapply writes_after_untouched; eauto.
Qed.

Lemma apply_auth_untouched `{Runtime} (l : pendingLog.t) (req : Request) (w : World) :
  db_untouched w (snd (apply_auth l req w)) /\
  responses (snd (apply_auth l req w)) = responses w /\
  sent (snd (apply_auth l req w)) = sent w.
Proof.
  pose proof (next_tick_nonneg w).
  unfold apply_auth, db_untouched.
  destruct (String.eqb (pendingLog.AuthType l) WebhookAuthTypeBasic);
    [|destruct (String.eqb (pendingLog.AuthType l) WebhookAuthTypeHMAC)];
    cbn; repeat split; try reflexivity; lia.
Qed.

Lemma client_Do_untouched (req : Request) (w : World) :
  db_untouched w (snd (client_Do req w)).
Proof. unfold db_untouched. cbn. repeat split; lia. Qed.

(** Every run of [deliverWebhook] ends in exactly one update of its row. *)
Lemma deliverWebhook_outcome `{Runtime} (l : pendingLog.t) (w : World) :
  delivery_outcome w (snd (deliverWebhook l w)) l.
Proof.
  unfold delivery_outcome, deliverWebhook.
  destruct (NewRequest_check (pendingLog.URL l)) as [e|].
  - apply updateLogFailed_writes.
  - unfold bind.
    match goal with |- context [apply_auth l ?r w] => set (req := r) end.
    destruct (apply_auth_untouched l req w) as (Hu & Hr & _).
    destruct (apply_auth l req w) as [req' w1]. cbn [snd] in Hu, Hr.
    pose proof (client_Do_untouched req' w1) as Hu'.
    assert (Hnext : next_response w1 = next_response w)
      by (unfold next_response; rewrite Hr; reflexivity).
    pose proof (db_untouched_trans _ _ _ Hu Hu') as Hu2.
    unfold client_Do in *. cbn [snd] in Hu2. rewrite Hnext.
    destruct (next_response w) as [e|code body].
    + eapply retries_or_fails_after_untouched; [exact Hu2|].
      apply handleDeliveryError_writes.
    + destruct ((code >=? 200) && (code <? 300)).
      * eapply writes_after_untouched; [exact Hu2|]. apply updateLogSuccess_writes.
      * eapply retries_or_fails_after_untouched; [exact Hu2|].
        apply handleDeliveryError_writes.
Qed.

(** ** What an update leaves in the table *)

Lemma find_update_log_row id st code body err a next now (rows : list WebhookLog.t) r :
  find (fun r => WebhookLog.ID r =? id) rows = Some r ->
  find (fun r => WebhookLog.ID r =? id)
    (map (update_log_row id st code body err a next now) rows)
  = Some (update_log_row id st code body err a next now r).
Proof.
  induction rows as [|x rows IH]; cbn [find map]; [discriminate|].
  destruct (WebhookLog.ID x =? id) eqn:Hx.
  - intros [= ->]. unfold update_log_row at 1. rewrite Hx. cbn [WebhookLog.ID].
    rewrite Hx. reflexivity.
  - intros Hf. unfold update_log_row at 1. rewrite Hx, Hx. apply IH, Hf.
Qed.

Lemma writes_stored (w w' : World) id st code body err a next r :
  writes w w' id st code body err a next ->
  next_fault w = None ->
  stored id w = Some r ->
  exists r', stored id w' = Some r' /\ row_has r' st code body err a next /\
             same_snapshot r r'.
Proof.
  intros (_ & _ & Hdb) Hf Hs. rewrite Hf in Hdb.
  unfold stored in *. rewrite Hdb. unfold db_after_update. cbn [webhook_logs].
  erewrite find_update_log_row by exact Hs.
  eexists. split; [reflexivity|].
  apply find_some in Hs. destruct Hs as [_ Hid].
  unfold update_log_row. rewrite Hid.
  unfold row_has, same_snapshot. cbn. repeat split; reflexivity.
Qed.



(** ** C5: the success path *)



(** ** C2: the failure path *)

(** C2: a row with 28 attempts behind it, of a webhook with
    [max_retries = 29], answered with status 500: the row stays pending
    with 29 attempts, and its retry time lies before the time of the
    call, not in the future. *)
Theorem retry_scheduled_in_the_past :
  let w := example_world 28 29 [] [Response 500 "oops"] in
  let w' := snd (deliverWebhook (example_pending 28 29) w) in
  exists r' t,
    stored 1 w' = Some r' /\
    WebhookLog.Status r' = WebhookLogStatusPending /\
    WebhookLog.Attempts r' = 29 /\
    29 <= pendingLog.MaxRetries (example_pending 28 29) /\
    WebhookLog.NextRetryAt r' = Some t /\
    t < clock w.
Proof.
  cbv zeta. eexists. eexists.
  split; [vm_compute; reflexivity|].
  repeat split; try (vm_compute; reflexivity).
  vm_compute. discriminate.
Qed.

(** The failure path as far as it holds: the row is closed as failed once
    the attempts exceed [max_retries]; before that it stays pending, and
    up to 28 attempts its retry time lies after the time read. *)
Lemma failure_path_rows (l : pendingLog.t) (code : Z) (body err : string) (w : World)
    (r : WebhookLog.t) :
  is_int32 (pendingLog.Attempts l) ->
  next_fault w = None ->
  stored (pendingLog.ID l) w = Some r ->
  let a := pendingLog.Attempts l + 1 in
  let w' := snd (handleDeliveryError l code body err w) in
  exists r', stored (pendingLog.ID l) w' = Some r' /\
    (a > pendingLog.MaxRetries l ->
       row_has r' WebhookLogStatusFailed code body err a None) /\
    (a <= pendingLog.MaxRetries l ->
       exists now, clock w <= now <= clock w' /\
         row_has r' WebhookLogStatusPending code body err a (Some (now + backoff a)) /\
         (0 <= a <= 28 -> now < now + backoff a)).
Proof.
  intros Hatt Hfault Hst a w'.
  pose proof (handleDeliveryError_writes l code body err w) as [Hf Hp].
  rewrite (int_add_1 _ Hatt) in Hf, Hp. fold a in Hf, Hp. fold w' in Hf, Hp.
  destruct (Z_gt_le_dec a (pendingLog.MaxRetries l)) as [Hc|Hc].
  - destruct (writes_stored _ _ _ _ _ _ _ _ _ _ (Hf Hc) Hfault Hst) as (r' & Hs' & Hrow & _).
    exists r'. split; [exact Hs'|]. split; [intros _; exact Hrow | lia].
  - destruct (Hp Hc) as (now & Hnow & Hw).
    destruct (writes_stored _ _ _ _ _ _ _ _ _ _ Hw Hfault Hst) as (r' & Hs' & Hrow & _).
    exists r'. split; [exact Hs'|]. split; [lia|].
    intros _. exists now. split; [exact Hnow|]. split; [exact Hrow|].
    intros Ha. pose proof (backoff_positive a Ha). lia.
Qed.

(** ** C4: the signature *)

Lemma updateLogSuccess_sent (l : pendingLog.t) (code : Z) (body : string) (w : World) :
  sent (snd (updateLogSuccess l code body w)) = sent w.
Proof. world_cases w; reflexivity. Qed.

Lemma updateLogFailed_sent (l : pendingLog.t) (code : Z) (body err : string) (w : World) :
  sent (snd (updateLogFailed l code body err w)) = sent w.
Proof. world_cases w; reflexivity. Qed.

Lemma handleDeliveryError_sent (l : pendingLog.t) (code : Z) (body err : string) (w : World) :
  sent (snd (handleDeliveryError l code body err w)) = sent w.
Proof.
  unfold handleDeliveryError.
  destruct (int_add (pendingLog.Attempts l) 1 >? pendingLog.MaxRetries l).
  - apply updateLogFailed_sent.
  - world_cases w; reflexivity.
Qed.

Lemma deliverWebhook_eq `{Runtime} (l : pendingLog.t) (w : World) :
  NewRequest_check (pendingLog.URL l) = None ->
  deliverWebhook l w =
    let (req, w1) := apply_auth l (base_request l) w in
    record_outcome l (next_response w1)
      (mkWorld (db w1) (clock w1) (ticks w1) (faults w1) (tl (responses w1))
         (sent w1 ++ [req]) (issued w1) (out w1)).
Proof.
  intros Hreq. unfold deliverWebhook. rewrite Hreq. unfold bind.
  change (set_Header _ (set_Header _ (set_Header _ (set_Header _ _))))
    with (base_request l).
  destruct (apply_auth l (base_request l) w) as [req w1].
  unfold client_Do, record_outcome. reflexivity.
Qed.

Lemma record_outcome_sent_clock (l : pendingLog.t) (resp : HttpOutcome) (w : World) :
  sent (snd (record_outcome l resp w)) = sent w /\
  clock w <= clock (snd (record_outcome l resp w)).
Proof.
  unfold record_outcome. destruct resp as [e|code body].
  - split; [apply handleDeliveryError_sent|].
    destruct (handleDeliveryError_writes l 0 EmptyString ("request failed: " +++ e) w)
      as [Hf Hp].
    destruct (Z_gt_le_dec (int_add (pendingLog.Attempts l) 1) (pendingLog.MaxRetries l))
      as [Hc|Hc].
    + apply (Hf Hc).
    + destruct (Hp Hc) as (? & _ & Hw). apply Hw.
  - destruct ((code >=? 200) && (code <? 300)).
    + split; [apply updateLogSuccess_sent | apply updateLogSuccess_writes].
    + split; [apply handleDeliveryError_sent|].
      destruct (handleDeliveryError_writes l code (LimitRead 1024 body)
                  ("non-2xx status: " +++ decimal code) w) as [Hf Hp].
      destruct (Z_gt_le_dec (int_add (pendingLog.Attempts l) 1) (pendingLog.MaxRetries l))
        as [Hc|Hc].
      * apply (Hf Hc).
      * destruct (Hp Hc) as (? & _ & Hw). apply Hw.
Qed.

(** C4: in [hmac] mode the request handed to the HTTP client carries
    ["sha256=" + hex(HMAC-SHA256(secret, decimal(ts) + "." + payload))] as
    [X-Listmonk-Signature] and [decimal(ts)] as [X-Listmonk-Timestamp], for
    one Unix time [ts] read during the attempt; [computeHMAC] is a total
    function of payload, secret and timestamp. *)
Theorem hmac_signature_headers `{Runtime} (l : pendingLog.t) (w : World) :
  pendingLog.AuthType l = WebhookAuthTypeHMAC ->
  NewRequest_check (pendingLog.URL l) = None ->
  let w' := snd (deliverWebhook l w) in
  exists req now,
    sent w' = sent w ++ [req] /\
    clock w <= now <= clock w' /\
    req_Body req = pendingLog.Payload l /\
    Header_Get "X-Listmonk-Signature" (req_Header req)
      = Some ("sha256=" +++ hex_EncodeToString
                (hmac_sha256 (pendingLog.AuthHMACSecret l)
                   (decimal (Unix now) +++ "." +++ pendingLog.Payload l))) /\
    Header_Get "X-Listmonk-Timestamp" (req_Header req) = Some (decimal (Unix now)) /\
    Header_Get "X-Listmonk-Signature" (req_Header req)
      = Some (computeHMAC (pendingLog.Payload l) (pendingLog.AuthHMACSecret l) (Unix now)).
Proof.
  intros Hauth Hreq w'. subst w'.
  pose proof (next_tick_nonneg w) as Ht.
  rewrite (deliverWebhook_eq l w Hreq).
  unfold apply_auth. rewrite Hauth.
  change (String.eqb WebhookAuthTypeHMAC WebhookAuthTypeBasic) with false.
  change (String.eqb WebhookAuthTypeHMAC WebhookAuthTypeHMAC) with true.
  cbv iota. unfold bind, time_Now, ret. cbv beta iota zeta.
  cbn [db clock ticks faults responses sent issued out].
  match goal with |- context [sent w ++ [?r]] => exists r end.
  exists (clock w + next_tick w).
  match goal with |- context [record_outcome l ?r ?w1] =>
    destruct (record_outcome_sent_clock l r w1) as [Hs Hc] end.
  cbn [sent clock] in Hs, Hc.
  split; [exact Hs|]. split; [lia|].
  repeat split; reflexivity.
Qed.

(** ** [ORDER BY] *)

Lemma insert_by_perm {A} (key : A -> Z) (x : A) (l : list A) :
  Permutation (insert_by key x l) (x :: l).
Proof.
  induction l as [|y l IH]; cbn; [reflexivity|].
  destruct (key x <=? key y); [reflexivity|].
  rewrite IH. apply perm_swap.
Qed.

Lemma order_by_perm {A} (key : A -> Z) (l : list A) : Permutation (order_by key l) l.
Proof.
  induction l as [|x l IH]; cbn; [constructor|].
  rewrite insert_by_perm. constructor. exact IH.
Qed.

Lemma order_by_length {A} (key : A -> Z) (l : list A) :
  List.length (order_by key l) = List.length l.
Proof. apply Permutation_length, order_by_perm. Qed.

Lemma order_by_In {A} (key : A -> Z) (l : list A) (x : A) :
  In x (order_by key l) <-> In x l.
Proof.
  split; apply Permutation_in; [|symmetry]; apply order_by_perm.
Qed.

Lemma insert_by_sorted {A} (key : A -> Z) (x : A) (l : list A) :
  StronglySorted (fun a b => key a <= key b) l ->
  StronglySorted (fun a b => key a <= key b) (insert_by key x l).
Proof.
  induction 1 as [|y l Hs IH Hall]; cbn.
  - repeat constructor.
  - destruct (Z.leb_spec (key x) (key y)) as [Hle|Hgt].
    + constructor; [constructor; assumption|].
      constructor; [exact Hle|].
      eapply Forall_impl; [|exact Hall]. cbn. intros; lia.
    + constructor; [exact IH|].
      rewrite Forall_forall. intros z Hz.
      apply (Permutation_in _ (insert_by_perm key x l)) in Hz.
      destruct Hz as [<-|Hz]; [lia|].
      rewrite Forall_forall in Hall. apply Hall, Hz.
Qed.

Lemma order_by_sorted {A} (key : A -> Z) (l : list A) :
  StronglySorted (fun a b => key a <= key b) (order_by key l).
Proof.
  induction l as [|x l IH]; cbn; [constructor|].
  apply insert_by_sorted, IH.
Qed.

(** ** [Trigger] *)

Lemma insert_log_step (event payload : string) (wh : Webhook.t) (w : World) :
  existsb (fun x => Webhook.ID x =? Webhook.ID wh) (webhooks (db w)) = true ->
  let w' := snd (insert_log event payload wh w) in
  issued w' = issued w ++ [insert_stmt event payload wh] /\
  faults w' = tl (faults w) /\
  clock w <= clock w' /\
  webhooks (db w') = webhooks (db w) /\
  match next_fault w with
  | Some _ => webhook_logs (db w') = webhook_logs (db w)
  | None =>
      webhook_logs (db w') = webhook_logs (db w) ++
        [WebhookLog.mk (webhook_logs_id_seq (db w) + 1) (Webhook.ID wh) event
           (Webhook.URL wh) payload WebhookLogStatusPending None EmptyString EmptyString 0
           None (clock w') (clock w')]
  end.
Proof.
  intros Hfk w'. subst w'.
  world_cases w; cbn in Hfk;
    unfold insert_log, Queries.CreateWebhookLog, db_run, bind, create_webhook_log;
    cbn; rewrite ?Hfk; cbn; repeat split; try reflexivity; lia.
Qed.

Lemma rejected_among_S (n : nat) (w : World) :
  rejected_among (S n) (faults w) =
  ((match next_fault w with Some _ => 1 | None => 0 end)
   + rejected_among n (tl (faults w)))%nat.
Proof.
  unfold next_fault. destruct (faults w) as [|[e|] fl]; cbn; try reflexivity.
  destruct n; reflexivity.
Qed.

(** The loop of [Trigger]: one insert is issued per webhook, whatever the
    database answers to the ones before; each insert the database accepts
    adds one row. *)
Lemma insert_loop (event payload : string) (whs : list Webhook.t) :
  forall w : World,
  Forall (fun wh => existsb (fun x => Webhook.ID x =? Webhook.ID wh) (webhooks (db w)) = true)
    whs ->
  let w' := snd (for_range whs (insert_log event payload) w) in
  exists rows,
    webhook_logs (db w') = webhook_logs (db w) ++ rows /\
    webhooks (db w') = webhooks (db w) /\
    (List.length rows + rejected_among (List.length whs) (faults w) = List.length whs)%nat /\
    Forall (fresh_row event payload whs) rows /\
    issued w' = issued w ++ map (insert_stmt event payload) whs /\
    clock w <= clock w'.
Proof.
  induction whs as [|wh whs IH]; intros w Hfk; cbn zeta.
  - exists []. cbn. rewrite !app_nil_r. repeat split; try constructor; lia.
  - inversion Hfk as [|? ? Hwh Hrest]; subst.
    cbn [for_range]. unfold bind.
    pose proof (insert_log_step event payload wh w Hwh) as Hstep. cbv zeta in Hstep.
    destruct (insert_log event payload wh w) as [[] w1]. cbn [snd] in Hstep.
    destruct Hstep as (Hiss & Hfl & Hck & Hws & Hlogs).
    assert (Hfk1 : Forall (fun wh0 => existsb (fun x => Webhook.ID x =? Webhook.ID wh0)
                                        (webhooks (db w1)) = true) whs)
      by (rewrite Hws; exact Hrest).
    destruct (IH w1 Hfk1) as (rows & Hl & Hw & Hn & Hrows & Hi & Hc).
    assert (Hweak : Forall (fresh_row event payload (wh :: whs)) rows).
    { eapply Forall_impl; [|exact Hrows].
      intros r (A & B & C & D & E & F & (x & Hx & G)).
      repeat split; try assumption. exists x. split; [right; exact Hx | exact G]. }
    cbn [List.length]. rewrite rejected_among_S. rewrite <- Hfl.
    destruct (next_fault w) as [e|].
    + exists rows. rewrite Hl, Hw, Hi, Hlogs, Hws, Hiss. cbn [map].
      rewrite <- app_assoc. cbn [app].
      repeat split; try reflexivity; try assumption; lia.
    + eexists (_ :: rows). rewrite Hl, Hw, Hi, Hlogs, Hws, Hiss. cbn [map].
      rewrite <- !app_assoc. cbn [app].
      split; [reflexivity|]. split; [reflexivity|].
      split; [cbn [List.length]; lia|].
      split; [|split; [reflexivity | lia]].
      constructor; [|exact Hweak].
      unfold fresh_row. cbn. repeat split; try reflexivity.
      exists wh. repeat split; try reflexivity. left; reflexivity.
Qed.

Lemma GetWebhooksByEvent_eq (event : string) (w : World) :
  Queries.GetWebhooksByEvent event w =
  (match next_fault w with
   | Some err => inl err
   | None => inr (order_by Webhook.CreatedAt (matching event (db w)))
   end,
   mkWorld (db w) (clock w + next_tick w) (tl (ticks w)) (tl (faults w)) (responses w)
     (sent w) (issued w ++ [GetWebhooksByEventStmt event]) (out w)).
Proof.
  unfold Queries.GetWebhooksByEvent, db_run, time_Now, next_fault, get_webhooks_by_event,
    matching.
  cbn [db clock ticks faults responses sent issued out].
  destruct (faults w) as [|[e|] fl]; reflexivity.
Qed.

Lemma Trigger_eq `{Runtime} (event : string) (data : any) (w : World) :
  Trigger event data w =
  let w1 := snd (Queries.GetWebhooksByEvent event w) in
  match fst (Queries.GetWebhooksByEvent event w) with
  | inl err =>
      (Some err, snd (log_Printf ("error getting webhooks for event " +++ event +++ ": "
                                  +++ err) w1))
  | inr whs =>
      if (List.length whs =? 0)%nat then (None, w1)
      else
        match json_Marshal (WebhookEvent.mk event (fst (time_Now w1)) data) with
        | inl err =>
            (Some err, snd (log_Printf ("error marshaling webhook payload: " +++ err)
                              (snd (time_Now w1))))
        | inr p => (None, snd (for_range whs (insert_log event p) (snd (time_Now w1))))
        end
  end.
Proof.
  unfold Trigger, bind.
  destruct (Queries.GetWebhooksByEvent event w) as [[err|whs] w1]; cbn [fst snd].
  - reflexivity.
  - destruct (List.length whs =? 0)%nat; [reflexivity|].
    destruct (time_Now w1) as [now w2]. cbn [fst snd].
    destruct (json_Marshal (WebhookEvent.mk event now data)) as [err|p].
    + reflexivity.
    + match goal with |- context [for_range whs ?f w2] =>
        change f with (insert_log event p) end.
      destruct (for_range whs (insert_log event p) w2) as [[] w3]. reflexivity.
Qed.

Lemma matching_exist (event : string) (d : DB) :
  Forall (fun wh => existsb (fun x => Webhook.ID x =? Webhook.ID wh) (webhooks d) = true)
    (order_by Webhook.CreatedAt (matching event d)).
Proof.
  rewrite Forall_forall. intros wh Hin.
  apply order_by_In in Hin. unfold matching in Hin. apply filter_In in Hin.
  apply existsb_exists. exists wh. split; [apply Hin | apply Z.eqb_refl].
Qed.

Lemma time_of_second_read (event : string) (w : World) :
  fst (time_Now (snd (Queries.GetWebhooksByEvent event w)))
  = time_of_read 1 (clock w) (ticks w).
Proof.
  rewrite GetWebhooksByEvent_eq. unfold time_Now, next_tick. cbn.
  destruct (ticks w); reflexivity.
Qed.

(** What [Trigger] does once the select went through and found webhooks:
    [t] is the time it reads for the payload. *)
Lemma Trigger_found `{Runtime} (event : string) (data : any) (w : World) :
  next_fault w = None ->
  matching event (db w) <> [] ->
  let n := List.length (matching event (db w)) in
  let t := time_of_read 1 (clock w) (ticks w) in
  let res := Trigger event data w in
  clock w <= t /\
  match json_Marshal (WebhookEvent.mk event t data) with
  | inl err =>
      fst res = Some err /\ db (snd res) = db w /\
      issued (snd res) = issued w ++ [GetWebhooksByEventStmt event]
  | inr p =>
      fst res = None /\
      issued (snd res) = issued w ++ GetWebhooksByEventStmt event ::
        map (insert_stmt event p) (order_by Webhook.CreatedAt (matching event (db w))) /\
      t <= clock (snd res) /\
      webhooks (db (snd res)) = webhooks (db w) /\
      exists rows,
        webhook_logs (db (snd res)) = webhook_logs (db w) ++ rows /\
        (List.length rows + rejected_among n (tl (faults w)) = n)%nat /\
        Forall (fresh_row event p (matching event (db w))) rows
  end.
Proof.
  intros Hfault Hne n t res. subst res.
  rewrite Trigger_eq. cbv zeta.
  rewrite time_of_second_read. fold t.
  rewrite GetWebhooksByEvent_eq, Hfault. cbn [fst snd].
  assert (Hlen : (List.length (order_by Webhook.CreatedAt (matching event (db w))) =? 0)%nat
                 = false).
  { apply Nat.eqb_neq. rewrite order_by_length.
    destruct (matching event (db w)); [congruence | cbn; lia]. }
  rewrite Hlen.
  set (w1 := mkWorld _ _ _ _ _ _ _ _).
  assert (Ht : t = clock w1 + next_tick w1).
  { subst t w1. unfold next_tick. cbn. destruct (ticks w); reflexivity. }
  assert (Hct : clock w <= t).
  { rewrite Ht. pose proof (next_tick_nonneg w). pose proof (next_tick_nonneg w1).
    subst w1. cbn [clock] in *. lia. }
  split; [exact Hct|].
  destruct (json_Marshal (WebhookEvent.mk event t data)) as [err|p]; cbn [fst snd].
  - repeat split; reflexivity.
  - pose proof (insert_loop event p _ (snd (time_Now w1)) (matching_exist event (db w)))
      as Hloop.
    cbv zeta in Hloop. destruct Hloop as (rows & Hl & Hw & Hn & Hrows & Hi & Hc).
    split; [reflexivity|]. split; [|split; [|split]].
    + rewrite Hi. subst w1. cbn [time_Now snd issued]. rewrite <- app_assoc. reflexivity.
    + assert (Hmid : clock (snd (time_Now w1)) = t) by (rewrite Ht; reflexivity).
      lia.
    + rewrite Hw. reflexivity.
    + exists rows. split; [rewrite Hl; reflexivity|]. split.
      * rewrite order_by_length in Hn. exact Hn.
      * eapply Forall_impl; [|exact Hrows].
        intros r (A & B & C & D & E & F & (x & Hx & G)).
        repeat split; try assumption. exists x.
        split; [apply order_by_In in Hx; exact Hx | exact G].
Qed.

Lemma Trigger_select_rejected `{Runtime} (event : string) (data : any) (w : World)
    (err : error) :
  next_fault w = Some err ->
  fst (Trigger event data w) = Some err /\ db (snd (Trigger event data w)) = db w.
Proof.
  intros Hf. rewrite Trigger_eq. cbv zeta.
  rewrite GetWebhooksByEvent_eq, Hf. cbn. split; reflexivity.
Qed.

Lemma Trigger_none_found `{Runtime} (event : string) (data : any) (w : World) :
  next_fault w = None ->
  matching event (db w) = [] ->
  fst (Trigger event data w) = None /\
  db (snd (Trigger event data w)) = db w /\
  clock w <= clock (snd (Trigger event data w)) /\
  issued (snd (Trigger event data w)) = issued w ++ [GetWebhooksByEventStmt event].
Proof.
  intros Hf Hm. pose proof (next_tick_nonneg w).
  rewrite Trigger_eq. cbv zeta.
  rewrite GetWebhooksByEvent_eq, Hf, Hm. cbn. repeat split; try reflexivity. lia.
Qed.

(** ** C1: the fan-out of [Trigger] *)




(** ** C8: errors of [Trigger] *)

(** C8: once webhooks were found, a payload that does not serialize makes
    [Trigger] return the error with the tables untouched and no insert
    issued; a payload that serializes gets one insert issued per webhook,
    whichever of them the database rejects, and [Trigger] returns success
    with a row for each insert that went through. *)
Theorem Trigger_errors `{Runtime} (event : string) (data : any) (w : World) :
  next_fault w = None ->
  matching event (db w) <> [] ->
  let n := List.length (matching event (db w)) in
  let t := time_of_read 1 (clock w) (ticks w) in
  let res := Trigger event data w in
  (forall err, json_Marshal (WebhookEvent.mk event t data) = inl err ->
     fst res = Some err /\ db (snd res) = db w /\
     issued (snd res) = issued w ++ [GetWebhooksByEventStmt event]) /\
  (forall p, json_Marshal (WebhookEvent.mk event t data) = inr p ->
     fst res = None /\
     issued (snd res) = issued w ++ GetWebhooksByEventStmt event ::
       map (insert_stmt event p) (order_by Webhook.CreatedAt (matching event (db w))) /\
     exists rows,
       webhook_logs (db (snd res)) = webhook_logs (db w) ++ rows /\
       (List.length rows + rejected_among n (tl (faults w)) = n)%nat).
Proof.
  intros Hf Hne n t res.
  pose proof (Trigger_found event data w Hf Hne) as [_ Hfound].
  cbv zeta in Hfound. fold t res n in Hfound.
  split.
  - intros err Hj. rewrite Hj in Hfound. exact Hfound.
  - intros p Hj. rewrite Hj in Hfound.
    destruct Hfound as (Hr & Hi & _ & _ & rows & Hl & Hn & _).
    split; [exact Hr|]. split; [exact Hi|]. exists rows. split; assumption.
Qed.

Lemma Trigger_errors_witness :
  let w := example_world 0 3 [None; Some "connection reset"] [] in
  (fst (@Trigger ExampleRuntime "subscriber.created" example_chan w) = Some "json: unsupported type: chan int" /\
   db (snd (@Trigger ExampleRuntime "subscriber.created" example_chan w)) = db w) /\
  (fst (@Trigger ExampleRuntime "subscriber.created" example_data w) = None /\
   List.length (issued (snd (@Trigger ExampleRuntime "subscriber.created" example_data w))) = 2%nat).
Proof.
  cbv zeta. split.
  - destruct (@Trigger_errors ExampleRuntime "subscriber.created" example_chan
                (example_world 0 3 [None; Some "connection reset"] []))
      as [Hfail _]; [reflexivity | vm_compute; discriminate |].
    destruct (Hfail "json: unsupported type: chan int") as (Hr & Hdb & _);
      [reflexivity|].
    split; assumption.
  - destruct (@Trigger_errors ExampleRuntime "subscriber.created" example_data
                (example_world 0 3 [None; Some "connection reset"] []))
      as [_ Hok]; [reflexivity | vm_compute; discriminate |].
    destruct (Hok (match @json_Marshal ExampleRuntime
                           (WebhookEvent.mk "subscriber.created"
                              (time_of_read 1
                                 (clock (example_world 0 3 [None; Some "connection reset"] []))
                                 (ticks (example_world 0 3 [None; Some "connection reset"] [])))
                              example_data)
                   with inr p => p | inl _ => EmptyString end))
      as (Hr & Hi & _); [reflexivity|].
    split; [exact Hr|]. rewrite Hi. reflexivity.
Defined.

Lemma hmac_signature_headers_witness :
  let l := example_pending 0 3 in
  let w := example_world 0 3 [] [Response 204 "ok"] in
  exists req now,
    sent (snd (deliverWebhook l w)) = sent w ++ [req] /\
    clock w <= now <= clock (snd (deliverWebhook l w)) /\
    req_Body req = pendingLog.Payload l /\
    Header_Get "X-Listmonk-Signature" (req_Header req)
      = Some ("sha256=" +++ hex_EncodeToString
                (hmac_sha256 (pendingLog.AuthHMACSecret l)
                   (decimal (Unix now) +++ "." +++ pendingLog.Payload l))) /\
    Header_Get "X-Listmonk-Timestamp" (req_Header req) = Some (decimal (Unix now)) /\
    Header_Get "X-Listmonk-Signature" (req_Header req)
      = Some (computeHMAC (pendingLog.Payload l) (pendingLog.AuthHMACSecret l) (Unix now)).
Proof.
  apply (hmac_signature_headers (example_pending 0 3)
           (example_world 0 3 [] [Response 204 "ok"])); reflexivity.
Defined.

(** ** C6: the rows the workers take *)

Lemma In_firstn {A} (n : nat) (l : list A) (x : A) : In x (firstn n l) -> In x l.
Proof.
  revert l. induction n as [|n IH]; intros [|y l]; cbn; try tauto.
  intros [->|Hin]; [left; reflexivity | right; apply IH, Hin].
Qed.

Lemma firstn_sorted {A} (R : A -> A -> Prop) (n : nat) (l : list A) :
  StronglySorted R l -> StronglySorted R (firstn n l).
Proof.
  revert l. induction n as [|n IH]; intros l Hs; [constructor|].
  destruct Hs as [|y l Hs Hall]; cbn; [constructor|].
  constructor; [apply IH, Hs|].
  rewrite Forall_forall in *. intros z Hz. apply Hall. eapply In_firstn, Hz.
Qed.

Lemma log_is_due_spec (now : Z) (l : pendingLog.t) :
  log_is_due now (pendingLog.Log l) = true -> is_due now l.
Proof.
  unfold log_is_due, is_due. intros Hd. apply andb_prop in Hd. destruct Hd as [Hs Hn].
  apply String.eqb_eq in Hs. split; [exact Hs|].
  destruct (WebhookLog.NextRetryAt (pendingLog.Log l)) as [t|]; [right | left; reflexivity].
  exists t. split; [reflexivity | apply Z.leb_le, Hn].
Qed.

Lemma deliverWebhook_issues `{Runtime} (l : pendingLog.t) (w : World) :
  exists s, issued (snd (deliverWebhook l w)) = issued w ++ [s] /\
            updated_id s = Some (pendingLog.ID l).
Proof.
  pose proof (deliverWebhook_outcome l w) as Ho. unfold delivery_outcome in Ho.
  assert (Hw : forall st code body err a next,
             writes w (snd (deliverWebhook l w)) (pendingLog.ID l) st code body err a next ->
             exists s, issued (snd (deliverWebhook l w)) = issued w ++ [s] /\
                       updated_id s = Some (pendingLog.ID l)).
  { intros st code body err a next (Hi & _). eexists. split; [exact Hi | reflexivity]. }
  assert (Hr : forall code body err,
             retries_or_fails w (snd (deliverWebhook l w)) l code body err ->
             exists s, issued (snd (deliverWebhook l w)) = issued w ++ [s] /\
                       updated_id s = Some (pendingLog.ID l)).
  { intros code body err [Hf Hp].
    destruct (Z_gt_le_dec (int_add (pendingLog.Attempts l) 1) (pendingLog.MaxRetries l))
      as [Hc|Hc].
    - eapply Hw, Hf, Hc.
    - destruct (Hp Hc) as (now & _ & Hwr). eapply Hw, Hwr. }
  destruct (NewRequest_check (pendingLog.URL l)); [eapply Hw, Ho|].
  destruct (next_response w) as [e|code body]; [eapply Hr, Ho|].
  destruct ((code >=? 200) && (code <? 300)); [eapply Hw, Ho | eapply Hr, Ho].
Qed.

Lemma deliver_loop_issues `{Runtime} (rows : list pendingLog.t) :
  forall w : World,
  exists ups,
    issued (snd (for_range rows deliverWebhook w)) = issued w ++ ups /\
    map updated_id ups = map (fun l => Some (pendingLog.ID l)) rows.
Proof.
  induction rows as [|l rows IH]; intros w.
  - exists []. cbn. rewrite app_nil_r. split; reflexivity.
  - cbn [for_range]. unfold bind.
    destruct (deliverWebhook_issues l w) as (s & Hs & Hid).
    destruct (deliverWebhook l w) as [[] w1]. cbn [snd] in Hs.
    destruct (IH w1) as (ups & Hi & Hm).
    exists (s :: ups). rewrite Hi, Hs, <- app_assoc. cbn. rewrite Hid, Hm.
    split; reflexivity.
Qed.

(** C6: every row [get-pending-webhook-logs] returns is pending and due at
    the time of the query, the rows come in ascending [created_at], and
    there are at most [limit] of them; a worker asks for 100 and handles
    the rows in the order returned, one update per row. *)
Theorem pending_due_selection `{Runtime} (limit now : Z) (d d' : DB)
    (rows : list pendingLog.t) :
  get_pending_webhook_logs limit now d = inr (rows, d') ->
  (Z.of_nat (List.length rows) <= limit /\
   Forall (is_due now) rows /\
   StronglySorted (fun a b => pendingLog_CreatedAt a <= pendingLog_CreatedAt b) rows /\
   d' = d) /\
  (forall w : World,
     next_fault w = None ->
     exists batch ups,
       get_pending_webhook_logs 100 (clock w + next_tick w) (db w) = inr (batch, db w) /\
       issued (snd (processPendingLogs w)) = issued w ++ GetPendingWebhookLogsStmt 100 :: ups /\
       map updated_id ups = map (fun l => Some (pendingLog.ID l)) batch).
Proof.
  intros Hq. split.
  - unfold get_pending_webhook_logs in Hq.
    destruct (Z.ltb_spec limit 0) as [Hneg|Hpos]; [discriminate|].
    injection Hq as <- <-.
    split; [|split; [|split; [|reflexivity]]].
    + pose proof (firstn_le_length (Z.to_nat limit)
                    (order_by pendingLog_CreatedAt
                       (filter (fun l => log_is_due now (pendingLog.Log l))
                          (flat_map (join_webhook (webhooks d)) (webhook_logs d))))). lia.
    + rewrite Forall_forall. intros l Hin.
      apply In_firstn in Hin. apply order_by_In in Hin. apply filter_In in Hin.
      apply log_is_due_spec, Hin.
    + apply firstn_sorted, order_by_sorted.
  - intros w Hf.
    unfold processPendingLogs, bind, Queries.GetPendingWebhookLogs, db_run, time_Now.
    cbn [db clock ticks faults responses sent issued out next_fault].
    unfold next_fault in Hf |- *. cbn [faults]. rewrite Hf.
    change (100 <? 0) with false. cbv iota.
    unfold get_pending_webhook_logs at 1 2 3. change (100 <? 0) with false. cbv iota.
    eexists. 
    match goal with |- context [for_range ?b deliverWebhook ?w1] =>
      destruct (deliver_loop_issues b w1) as (ups & Hi & Hm) end.
    exists ups. split; [reflexivity|].
    split; [|exact Hm].
    rewrite Hi. cbn [issued]. rewrite <- app_assoc. reflexivity.
Qed.

Lemma pending_due_selection_witness :
  (Z.of_nat (List.length [example_pending 0 3]) <= 100 /\
   Forall (is_due 20) [example_pending 0 3] /\
   StronglySorted (fun a b => pendingLog_CreatedAt a <= pendingLog_CreatedAt b)
     [example_pending 0 3] /\
   db (example_world 0 3 [] []) = db (example_world 0 3 [] [])) /\
  (forall w : World,
     next_fault w = None ->
     exists batch ups,
       get_pending_webhook_logs 100 (clock w + next_tick w) (db w) = inr (batch, db w) /\
       issued (snd (processPendingLogs w)) = issued w ++ GetPendingWebhookLogsStmt 100 :: ups /\
       map updated_id ups = map (fun l => Some (pendingLog.ID l)) batch).
Proof.
  apply (pending_due_selection 100 20 (db (example_world 0 3 [] []))
           (db (example_world 0 3 [] [])) [example_pending 0 3]).
  reflexivity.
Defined.

(** ** The stored row *)


(** ** C10: [max_retries] at creation and at update *)

Lemma GetWebhook_db (id : Z) (w : World) : db (snd (Core.GetWebhook id w)) = db w.
Proof.
  unfold Core.GetWebhook, Core.GetWebhooks, Queries.GetWebhooks, db_run, bind, get_webhooks.
  world_cases w; cbn; try reflexivity;
    match goal with |- context [map Core.mask_secrets ?l] =>
      destruct (map Core.mask_secrets l); reflexivity end.
Qed.

Ltac webhook_fields :=
  cbn [Webhook.with_Status Webhook.with_AuthType Webhook.with_MaxRetries
       Webhook.with_RetryInterval Webhook.with_Timeout
       Webhook.ID Webhook.UUID Webhook.Name Webhook.URL Webhook.Status Webhook.Events
       Webhook.AuthType Webhook.AuthBasicUser Webhook.AuthBasicPass Webhook.AuthHMACSecret
       Webhook.MaxRetries Webhook.RetryInterval Webhook.Timeout Webhook.CreatedAt
       Webhook.UpdatedAt].

(** decide the conditions of the admission code from the inside out *)
Ltac split_defaults :=
  repeat match goal with
         | |- context [if ?c then _ else _] =>
             lazymatch c with
             | context [if _ then _ else _] => fail
             | _ => destruct c; webhook_fields
             end
         end.


Lemma defaults_Status (w : Webhook.t) :
  Webhook.Status (Core.set_defaults (Core.coerce_auth_type w))
  = if String.eqb (Webhook.Status w) EmptyString then WebhookStatusEnabled
    else Webhook.Status w.
Proof.
  destruct w. unfold Core.set_defaults, Core.coerce_auth_type. webhook_fields.
  split_defaults; reflexivity.
Qed.

Lemma coerce_MaxRetries (w : Webhook.t) :
  Webhook.MaxRetries (Core.coerce_auth_type w) = Webhook.MaxRetries w /\
  Webhook.Status (Core.coerce_auth_type w) = Webhook.Status w.
Proof.
  destruct w. unfold Core.coerce_auth_type. webhook_fields.
  split_defaults; split; reflexivity.
Qed.

Lemma defaults_status_valid (w : Webhook.t) :
  Webhook.Status w = EmptyString \/ is_webhook_status (Webhook.Status w) = true ->
  is_webhook_status (Webhook.Status (Core.set_defaults (Core.coerce_auth_type w))) = true.
Proof.
  intros Hs. rewrite defaults_Status.
  destruct (String.eqb_spec (Webhook.Status w) EmptyString) as [He|Hne]; [reflexivity|].
  destruct Hs as [Hs|Hs]; [contradiction | exact Hs].
Qed.


Lemma UpdateWebhook_db (id : Z) (input : Webhook.t) (w : World) :
  Core.validate input = None ->
  next_fault w = None ->
  is_webhook_status (Webhook.Status input) = true ->
  webhooks (db (snd (Core.UpdateWebhook id input w)))
  = map (update_webhook_row id (Core.coerce_auth_type input) (clock w + next_tick w))
      (webhooks (db w)).
Proof.
  intros Hval Hf Hs.
  assert (Hst : is_webhook_status (Webhook.Status (Core.coerce_auth_type input)) = true)
    by (rewrite (proj2 (coerce_MaxRetries input)); exact Hs).
  unfold Core.UpdateWebhook. rewrite Hval.
  unfold bind, Queries.UpdateWebhook, db_run, time_Now, update_webhook.
  unfold next_fault in *.
  cbn [db clock ticks faults responses sent issued out].
  rewrite Hf, Hst. cbn [negb].
  match goal with |- context [if ?c then _ else _] => destruct c end.
  - reflexivity.
  - rewrite GetWebhook_db. reflexivity.
Qed.



(** ** C9: shutdown *)

Lemma is_live_spec (g : nat) (s : Sys) :
  is_live g s = true <-> In g (map gid (workers s)).
Proof.
  unfold is_live. rewrite existsb_exists, in_map_iff. split.
  - intros (r & Hin & He). apply Nat.eqb_eq in He. exists r. split; assumption.
  - intros (r & He & Hin). exists r. split; [exact Hin | apply Nat.eqb_eq, He].
Qed.

Lemma map_gid_set_tick (g : nat) (b : bool) (ws : list Goroutine) :
  map gid (map (set_tick g b) ws) = map gid ws.
Proof.
  rewrite map_map. apply map_ext. intros r. unfold set_tick.
  destruct (Nat.eqb (gid r) g); reflexivity.
Qed.

Lemma has_tick_live (g : nat) (s : Sys) : has_tick g s = true -> is_live g s = true.
Proof.
  unfold has_tick, is_live. rewrite !existsb_exists.
  intros (r & Hin & He). apply andb_prop in He. exists r. split; [exact Hin | apply He].
Qed.

(** What a step does to the set of workers: [Run] starts goroutines with
    fresh numbers, nothing else adds any. *)
Lemma sys_step_workers `{Runtime} (e : Event) (s s' : Sys) :
  gids_bounded s ->
  sys_step e s = Some s' ->
  gids_bounded s' /\ (spawned s <= spawned s')%nat /\
  forall g, In g (map gid (workers s')) ->
            In g (map gid (workers s)) \/ (spawned s <= g)%nat.
Proof.
  unfold gids_bounded, sys_step, worker. intros Hb Hstep.
  destruct (panicked s); [discriminate|].
  destruct e as [| | |g|g [|]].
  - injection Hstep as <-. unfold Run.
    destruct (isRunning s); [repeat split; auto|]. cbn [workers spawned].
    split; [|split; [lia|]].
    + apply Forall_app. split.
      * eapply Forall_impl; [|exact Hb]. cbn. intros; lia.
      * rewrite Forall_forall. intros r Hin. apply in_map_iff in Hin.
        destruct Hin as (i & <- & Hi). apply in_seq in Hi. cbn. lia.
    + intros g Hin. rewrite map_app, in_app_iff in Hin.
      destruct Hin as [Hin|Hin]; [left; exact Hin | right].
      rewrite map_map in Hin. apply in_map_iff in Hin.
      destruct Hin as (i & <- & _). cbn. lia.
  - injection Hstep as <-. unfold Close.
    destruct (isRunning s); cbn [negb]; [destruct (stopCh_closed s)|];
      cbn [workers spawned]; repeat split; auto.
  - destruct (waiting s); [discriminate|].
    destruct (workers s) eqn:Hw; [|discriminate].
    injection Hstep as <-. cbn [workers spawned]. repeat split; auto.
  - destruct (is_live g s); [|discriminate]. injection Hstep as <-.
    unfold with_workers. cbn [workers spawned].
    split; [|split; [lia|]].
    + rewrite Forall_forall in *. intros r Hin. apply in_map_iff in Hin.
      destruct Hin as (r0 & <- & Hin0). specialize (Hb r0 Hin0).
      unfold set_tick. destruct (Nat.eqb (gid r0) g); exact Hb.
    + intros g0. rewrite map_gid_set_tick. auto.
  - destruct (is_live g s && stopCh_closed s); [|discriminate]. injection Hstep as <-.
    unfold with_workers. cbn [workers spawned].
    split; [|split; [lia|]].
    + rewrite Forall_forall in *. intros r Hin. apply filter_In in Hin. apply Hb, Hin.
    + intros g0 Hin. left. apply in_map_iff in Hin. destruct Hin as (r & <- & Hin).
      apply filter_In in Hin. apply in_map, Hin.
  - destruct (has_tick g s); [|discriminate]. injection Hstep as <-.
    unfold with_world, with_workers. cbn [workers spawned].
    split; [|split; [lia|]].
    + rewrite Forall_forall in *. intros r Hin. apply in_map_iff in Hin.
      destruct Hin as (r0 & <- & Hin0). specialize (Hb r0 Hin0).
      unfold set_tick. destruct (Nat.eqb (gid r0) g); exact Hb.
    + intros g0. rewrite map_gid_set_tick. auto.
Qed.

Lemma sys_run_workers `{Runtime} (es : list Event) :
  forall s s' : Sys,
  gids_bounded s ->
  sys_run es s = Some s' ->
  gids_bounded s' /\ (spawned s <= spawned s')%nat /\
  forall g, In g (map gid (workers s')) ->
            In g (map gid (workers s)) \/ (spawned s <= g)%nat.
Proof.
  induction es as [|e es IH]; intros s s' Hb Hrun; cbn [sys_run] in Hrun.
  - injection Hrun as <-. repeat split; auto.
  - destruct (sys_step e s) as [s1|] eqn:Hstep; [|discriminate].
    destruct (sys_step_workers e s s1 Hb Hstep) as (Hb1 & Hle1 & Hin1).
    destruct (IH s1 s' Hb1 Hrun) as (Hb' & Hle' & Hin').
    split; [exact Hb'|]. split; [lia|].
    intros g Hg. destruct (Hin' g Hg) as [Hg1|Hg1]; [|right; lia].
    destruct (Hin1 g Hg1) as [Hg0|Hg0]; [left; exact Hg0 | right; lia].
Qed.

Lemma New_bounded (opt : Opt) (w : World) : gids_bounded (New opt w).
Proof. unfold gids_bounded, New. cbn. constructor. Qed.

Lemma select_needs_live `{Runtime} (g : nat) (c : SelectCase) (s : Sys) :
  ~ In g (map gid (workers s)) -> sys_step (Select g c) s = None.
Proof.
  intros Hdead. unfold sys_step, worker. destruct (panicked s); [reflexivity|].
  assert (Hl : is_live g s = false).
  { destruct (is_live g s) eqn:Hl; [|reflexivity].
    apply is_live_spec in Hl. contradiction. }
  destruct c.
  - rewrite Hl. reflexivity.
  - destruct (has_tick g s) eqn:Ht; [|reflexivity].
    apply has_tick_live in Ht. congruence.
Qed.

Lemma log_Printf_fetches (line : string) (w : World) :
  fetches (snd (log_Printf line w)) = fetches w.
Proof. reflexivity. Qed.

(** C9 (as amended): a worker whose [select] takes the stop case, which it
    can only once [Close] closed the channel, returns without touching
    the database and never reads pending logs again; and a read of
    pending logs begins only where a [select] takes a tick that is ready,
    closed channel or not. *)
Theorem stop_case_ends_worker `{Runtime} (opt : Opt) (w : World) (es : list Event)
    (s s' : Sys) (g : nat) :
  sys_run es (New opt w) = Some s ->
  sys_step (Select g RecvStop) s = Some s' ->
  stopCh_closed s = true /\
  world s' = world s /\
  (forall es' s'', sys_run es' s' = Some s'' ->
     forall c, sys_step (Select g c) s'' = None) /\
  (forall e s1, sys_step e s = Some s1 ->
     fetches (world s1) <> fetches (world s) ->
     exists g', e = Select g' RecvTick /\ has_tick g' s = true).
Proof.
  intros Hreach Hstop.
  destruct (sys_run_workers es _ _ (New_bounded opt w) Hreach) as (Hb & _ & _).
  pose proof (sys_step_workers _ _ _ Hb Hstop) as (Hb' & _ & _).
  unfold sys_step, worker in Hstop.
  destruct (panicked s) eqn:Hp; [discriminate|].
  destruct (is_live g s) eqn:Hl; [|discriminate].
  destruct (stopCh_closed s) eqn:Hc; [|discriminate].
  cbn [andb] in Hstop. injection Hstop as <-.
  split; [reflexivity|]. split; [reflexivity|]. split.
  - intros es' s'' Hrun c. apply select_needs_live. intros Hin.
    destruct (sys_run_workers es' _ _ Hb' Hrun) as (_ & _ & Hsub).
    destruct (Hsub g Hin) as [Hold|Hnew].
    + unfold with_workers in Hold. cbn [workers] in Hold.
      apply in_map_iff in Hold. destruct Hold as (r & Hg & Hr).
      apply filter_In in Hr. destruct Hr as [_ Hr].
      rewrite Hg, Nat.eqb_refl in Hr. discriminate.
    + unfold with_workers in Hnew. cbn [spawned] in Hnew.
      apply is_live_spec, in_map_iff in Hl. destruct Hl as (r & Hg & Hr).
      unfold gids_bounded in Hb. rewrite Forall_forall in Hb. specialize (Hb r Hr). lia.
  - intros e s1 Hstep Hdiff. unfold sys_step, worker in Hstep. rewrite Hp in Hstep.
    destruct e as [| | |g'|g' [|]].
    + injection Hstep as <-. exfalso. apply Hdiff. unfold Run.
      destruct (isRunning s); reflexivity.
    + injection Hstep as <-. exfalso. apply Hdiff. unfold Close.
      destruct (isRunning s); cbn [negb]; [rewrite Hc|]; reflexivity.
    + destruct (waiting s); [discriminate|]. destruct (workers s); [|discriminate].
      injection Hstep as <-. exfalso. apply Hdiff. reflexivity.
    + destruct (is_live g' s); [|discriminate]. injection Hstep as <-.
      exfalso. apply Hdiff. reflexivity.
    + destruct (is_live g' s && stopCh_closed s); [|discriminate]. injection Hstep as <-.
      exfalso. apply Hdiff. reflexivity.
    + destruct (has_tick g' s) eqn:Ht; [|discriminate].
      exists g'. split; [reflexivity | exact Ht].
Qed.

Lemma stop_case_ends_worker_witness :
  let s := example_closed_pool in
  stopCh_closed s = true /\
  world (with_workers [] s) = world s /\
  (forall es' s'', @sys_run ExampleRuntime es' (with_workers [] s) = Some s'' ->
     forall c, @sys_step ExampleRuntime (Select 0%nat c) s'' = None) /\
  (forall e s1, @sys_step ExampleRuntime e s = Some s1 ->
     fetches (world s1) <> fetches (world s) ->
     exists g', e = Select g' RecvTick /\ has_tick g' s = true).
Proof.
  apply (@stop_case_ends_worker ExampleRuntime (mkOpt 1 (5 * Second))
           (example_world 0 3 [] []) [CallRun; TickerFires 0; CallClose]
           example_closed_pool (with_workers [] example_closed_pool) 0%nat);
    vm_compute; reflexivity.
Defined.

(** C9 as stated fails: one worker is started, its ticker fires, [Close]
    closes [stopCh]; the [select] then has both channels ready and may
    take the tick, and the worker reads the pending logs after [Close]. *)
Lemma fetch_after_Close : ~ @no_fetch_after_Close ExampleRuntime.
Proof.
  unfold no_fetch_after_Close. intros Hclaim.
  assert (Hrun : @sys_run ExampleRuntime [CallRun; TickerFires 0; CallClose]
                   (New (mkOpt 1 (5 * Second)) (example_world 0 3 [] []))
                 = Some example_closed_pool) by (vm_compute; reflexivity).
  destruct (@sys_step ExampleRuntime (Select 0 RecvTick) example_closed_pool)
    as [s'|] eqn:Hstep; [|vm_compute in Hstep; discriminate].
  specialize (Hclaim _ _ _ _ s' _ Hrun eq_refl Hstep).
  vm_compute in Hstep. injection Hstep as <-.
  vm_compute in Hclaim. discriminate.
Qed.

(** ** End-to-end scenarios *)

(** Happy path: one trigger, one poll, the receiver answers 204. *)
Example scenario_happy_path :
  let w1 := snd (@Trigger ExampleRuntime "subscriber.created" example_data
                   (scenario_world 3 [] [Response 204 EmptyString])) in
  let w2 := snd (@processPendingLogs ExampleRuntime w1) in
  log_summary w1 = [("pending", 0, None, None)] /\
  log_summary w2 = [("success", 1, Some 204, None)].
Proof. split; vm_compute; reflexivity. Qed.

(** Retries exhausted: [max_retries = 2], the receiver always answers
    500; the polls come 61 s and 121 s after the attempts before them. *)
Example scenario_exhaust_retries :
  let tk := [1; 1; 1;  1; 1; 1; 1;  61000000000; 1; 1; 1;  121000000000; 1; 1; 1]%N in
  let w1 := snd (@Trigger ExampleRuntime "subscriber.created" example_data
                   (scenario_world 2 tk [Response 500 "no"; Response 500 "no";
                                         Response 500 "no"])) in
  let w2 := snd (@processPendingLogs ExampleRuntime w1) in
  let w3 := snd (@processPendingLogs ExampleRuntime w2) in
  let w4 := snd (@processPendingLogs ExampleRuntime w3) in
  log_summary w2 = [("pending", 1, Some 500, Some (1700000000 * Second + 6 + 60 * Second))] /\
  log_summary w3 = [("pending", 2, Some 500,
                     Some (1700000000 * Second + 61 * Second + 9 + 120 * Second))] /\
  log_summary w4 = [("failed", 3, Some 500, None)] /\
  List.length (sent w4) = 3%nat.
Proof. repeat split; vm_compute; reflexivity. Qed.

(** A disabled webhook gets no log row. *)
Example scenario_disabled :
  let w := mkWorld (mkDB [Webhook.with_Status WebhookStatusDisabled (example_webhook 3)]
                      [] 1 0) 0 [] [] [] [] [] [] in
  fst (@Trigger ExampleRuntime "subscriber.created" example_data w) = None /\
  log_summary (snd (@Trigger ExampleRuntime "subscriber.created" example_data w)) = [].
Proof. split; vm_compute; reflexivity. Qed.

(** * Further properties of the code *)

(** ** The request of an attempt *)

Lemma apply_auth_request `{Runtime} (l : pendingLog.t) (req : Request) (w : World) :
  fst (apply_auth l req w) =
  if String.eqb (pendingLog.AuthType l) WebhookAuthTypeBasic then
    set_Header (Header_Set "Authorization"
                  ("Basic " +++ basic_auth (pendingLog.AuthBasicUser l)
                                  (pendingLog.AuthBasicPass l))) req
  else if String.eqb (pendingLog.AuthType l) WebhookAuthTypeHMAC then
    set_Header (Header_Set "X-Listmonk-Timestamp" (decimal (Unix (clock w + next_tick w))))
      (set_Header (Header_Set "X-Listmonk-Signature"
                     (computeHMAC (pendingLog.Payload l) (pendingLog.AuthHMACSecret l)
                        (Unix (clock w + next_tick w)))) req)
  else req.
Proof.
  unfold apply_auth.
  destruct (String.eqb (pendingLog.AuthType l) WebhookAuthTypeBasic); [reflexivity|].
  destruct (String.eqb (pendingLog.AuthType l) WebhookAuthTypeHMAC); reflexivity.
Qed.

(** What an attempt hands to the HTTP client: nothing when the request
    cannot be built, else the authenticated request, once. *)
Lemma deliverWebhook_sent `{Runtime} (l : pendingLog.t) (w : World) :
  sent (snd (deliverWebhook l w)) =
  match NewRequest_check (pendingLog.URL l) with
  | Some _ => sent w
  | None => sent w ++ [fst (apply_auth l (base_request l) w)]
  end.
Proof.
  destruct (NewRequest_check (pendingLog.URL l)) as [e|] eqn:Hreq.
  - unfold deliverWebhook. rewrite Hreq. apply updateLogFailed_sent.
  - rewrite (deliverWebhook_eq l w Hreq).
    destruct (apply_auth_untouched l (base_request l) w) as (_ & _ & Hs).
    destruct (apply_auth l (base_request l) w) as [req w1]. cbn [fst snd] in *.
    match goal with |- context [record_outcome l ?r ?w2] =>
      destruct (record_outcome_sent_clock l r w2) as [Hsent _] end.
    rewrite Hsent. cbn [sent]. rewrite Hs. reflexivity.
Qed.

(** X1: a request that cannot be built closes the row as failed at once,
    whatever [max_retries] allows: nothing is handed to the HTTP client,
    and the one update issued carries code 0, an empty body, the reason,
    one attempt more and no retry time. *)
Theorem request_build_error_is_terminal `{Runtime} (l : pendingLog.t) (w : World)
    (e : error) :
  NewRequest_check (pendingLog.URL l) = Some e ->
  let w' := snd (deliverWebhook l w) in
  sent w' = sent w /\
  issued w' = issued w ++
    [UpdateWebhookLogStmt (pendingLog.ID l) WebhookLogStatusFailed 0 EmptyString
       ("error creating request: " +++ e) (int_add (pendingLog.Attempts l) 1) None] /\
  (forall r, next_fault w = None -> stored (pendingLog.ID l) w = Some r ->
     exists r', stored (pendingLog.ID l) w' = Some r' /\
       row_has r' WebhookLogStatusFailed 0 EmptyString ("error creating request: " +++ e)
         (int_add (pendingLog.Attempts l) 1) None).
Proof.
  intros Hreq w'. subst w'.
  pose proof (deliverWebhook_outcome l w) as Ho. unfold delivery_outcome in Ho.
  rewrite Hreq in Ho.
  split; [rewrite deliverWebhook_sent, Hreq; reflexivity|].
  split; [apply Ho|].
  intros r Hf Hst.
  destruct (writes_stored _ _ _ _ _ _ _ _ _ _ Ho Hf Hst) as (r' & Hs' & Hrow & _).
  exists r'. split; assumption.
Qed.

Lemma request_build_error_is_terminal_witness :
  let l := pendingLog.mk
             (WebhookLog.mk 1 1 "subscriber.created" "://" "{}" "pending" None
                EmptyString EmptyString 0 None 10 10)
             3 "30s" "none" EmptyString EmptyString EmptyString in
  let w := example_world 0 3 [] [Response 204 "ok"] in
  let w' := snd (deliverWebhook l w) in
  sent w' = sent w /\
  issued w' = issued w ++
    [UpdateWebhookLogStmt 1 WebhookLogStatusFailed 0 EmptyString
       ("error creating request: " +++ "parse: missing protocol scheme")
       (int_add 0 1) None] /\
  (forall r, next_fault w = None -> stored 1 w = Some r ->
     exists r', stored 1 w' = Some r' /\
       row_has r' WebhookLogStatusFailed 0 EmptyString
         ("error creating request: " +++ "parse: missing protocol scheme")
         (int_add 0 1) None).
Proof.
  cbv zeta.
  apply (request_build_error_is_terminal
           (pendingLog.mk
              (WebhookLog.mk 1 1 "subscriber.created" "://" "{}" "pending" None
                 EmptyString EmptyString 0 None 10 10)
              3 "30s" "none" EmptyString EmptyString EmptyString)
           (example_world 0 3 [] [Response 204 "ok"])).
  reflexivity.
Defined.

(** X2: whatever the authentication mode, the request of an attempt is a
    POST to the URL kept on the log row with the payload kept on the row
    as body, sent with the webhook's timeout (30 s when it does not
    parse), and it carries [Content-Type], [User-Agent], the event as
    [X-Listmonk-Event] and the log id as [X-Listmonk-Delivery]. *)
Theorem request_always_carries `{Runtime} (l : pendingLog.t) (w : World) :
  NewRequest_check (pendingLog.URL l) = None ->
  exists req,
    sent (snd (deliverWebhook l w)) = sent w ++ [req] /\
    req_Method req = "POST" /\
    req_URL req = pendingLog.URL l /\
    req_Body req = pendingLog.Payload l /\
    req_Timeout req = match ParseDuration (pendingLog.Timeout l) with
                      | inr d => d
                      | inl _ => 30 * Second
                      end /\
    Header_Get "Content-Type" (req_Header req) = Some "application/json" /\
    Header_Get "User-Agent" (req_Header req) = Some "listmonk-webhook/1.0" /\
    Header_Get "X-Listmonk-Event" (req_Header req) = Some (pendingLog.Event l) /\
    Header_Get "X-Listmonk-Delivery" (req_Header req) = Some (decimal (pendingLog.ID l)).
Proof.
  intros Hreq. rewrite deliverWebhook_sent, Hreq.
  eexists. split; [reflexivity|].
  rewrite apply_auth_request.
  destruct (String.eqb (pendingLog.AuthType l) WebhookAuthTypeBasic);
    [|destruct (String.eqb (pendingLog.AuthType l) WebhookAuthTypeHMAC)];
    repeat split; reflexivity.
Qed.

Lemma request_always_carries_witness :
  let l := example_pending 0 3 in
  let w := example_world 0 3 [] [Response 204 "ok"] in
  exists req,
    sent (snd (deliverWebhook l w)) = sent w ++ [req] /\
    req_Method req = "POST" /\
    req_URL req = pendingLog.URL l /\
    req_Body req = pendingLog.Payload l /\
    req_Timeout req = match ParseDuration (pendingLog.Timeout l) with
                      | inr d => d
                      | inl _ => 30 * Second
                      end /\
    Header_Get "Content-Type" (req_Header req) = Some "application/json" /\
    Header_Get "User-Agent" (req_Header req) = Some "listmonk-webhook/1.0" /\
    Header_Get "X-Listmonk-Event" (req_Header req) = Some (pendingLog.Event l) /\
    Header_Get "X-Listmonk-Delivery" (req_Header req) = Some (decimal (pendingLog.ID l)).
Proof.
  apply (request_always_carries (example_pending 0 3)
           (example_world 0 3 [] [Response 204 "ok"])).
  reflexivity.
Defined.

(** X3: the authentication headers by mode.  [basic] adds [Authorization]
    and no signature; [hmac] adds signature and timestamp and no
    [Authorization]; any other mode, [none] and unknown values alike, adds
    none of the three. *)
Theorem auth_headers_by_mode `{Runtime} (l : pendingLog.t) (w : World) :
  NewRequest_check (pendingLog.URL l) = None ->
  exists req,
    sent (snd (deliverWebhook l w)) = sent w ++ [req] /\
    let auth := Header_Get "Authorization" (req_Header req) in
    let sig := Header_Get "X-Listmonk-Signature" (req_Header req) in
    let ts := Header_Get "X-Listmonk-Timestamp" (req_Header req) in
    if String.eqb (pendingLog.AuthType l) WebhookAuthTypeBasic then
      auth = Some ("Basic " +++ basic_auth (pendingLog.AuthBasicUser l)
                                  (pendingLog.AuthBasicPass l))
      /\ sig = None /\ ts = None
    else if String.eqb (pendingLog.AuthType l) WebhookAuthTypeHMAC then
      auth = None /\ sig <> None /\ ts <> None
    else
      auth = None /\ sig = None /\ ts = None /\ req = base_request l.
Proof.
  intros Hreq. rewrite deliverWebhook_sent, Hreq.
  eexists. split; [reflexivity|].
  rewrite apply_auth_request. cbv zeta.
  destruct (String.eqb (pendingLog.AuthType l) WebhookAuthTypeBasic);
    [|destruct (String.eqb (pendingLog.AuthType l) WebhookAuthTypeHMAC)].
  - repeat split; reflexivity.
  - split; [reflexivity|]. split; cbn; discriminate.
  - repeat split; reflexivity.
Qed.

Lemma auth_headers_by_mode_witness :
  let l := pendingLog.mk (example_log 0) 3 "30s" "basic" "u" "p" EmptyString in
  let w := example_world 0 3 [] [Response 204 "ok"] in
  exists req,
    sent (snd (deliverWebhook l w)) = sent w ++ [req] /\
    Header_Get "Authorization" (req_Header req) = Some ("Basic " +++ basic_auth "u" "p") /\
    Header_Get "X-Listmonk-Signature" (req_Header req) = None /\
    Header_Get "X-Listmonk-Timestamp" (req_Header req) = None.
Proof.
  cbv zeta.
  destruct (auth_headers_by_mode
              (pendingLog.mk (example_log 0) 3 "30s" "basic" "u" "p" EmptyString)
              (example_world 0 3 [] [Response 204 "ok"])) as (req & Hs & Hh);
    [reflexivity|].
  exists req. split; [exact Hs | exact Hh].
Defined.

(** ** Failed attempts and the delay *)



(** X5: up to 28 attempts the delay is [min(2h, 30s * 2^a)]: it doubles
    from 30 s * 2^a while [a <= 7] (64 minutes at 7) and is two hours from
    the 8th attempt on; it is positive and never above two hours. *)
Theorem backoff_capped_doubling (a : Z) :
  0 <= a <= 28 ->
  backoff a = Z.min (2 * Hour) (30 * Second * 2 ^ a) /\
  0 < backoff a <= 2 * Hour /\
  (a <= 7 -> backoff a = 30 * Second * 2 ^ a) /\
  (8 <= a -> backoff a = 2 * Hour).
Proof.
  intros Ha.
  assert (Hall : forallb backoff_profile_ok (map Z.of_nat (seq 0 29)) = true)
    by (vm_compute; reflexivity).
  rewrite forallb_forall in Hall.
  assert (Hin : In a (map Z.of_nat (seq 0 29))).
  { rewrite <- (Z2Nat.id a) by lia. apply in_map, in_seq. lia. }
  specialize (Hall a Hin). unfold backoff_profile_ok in Hall.
  apply andb_prop in Hall. destruct Hall as [Hall H4].
  apply andb_prop in Hall. destruct Hall as [Hall H3].
  apply andb_prop in Hall. destruct Hall as [H1 H2].
  apply Z.eqb_eq in H1. apply Z.ltb_lt in H2. apply Z.leb_le in H3.
  split; [exact H1|]. split; [lia|].
  destruct (Z.leb_spec a 7) as [Hs|Hs]; apply Z.eqb_eq in H4.
  - split; [intros _; exact H4 | lia].
  - split; [lia | intros _; exact H4].
Qed.

Lemma backoff_capped_doubling_witness :
  backoff 7 = Z.min (2 * Hour) (30 * Second * 2 ^ 7) /\
  0 < backoff 7 <= 2 * Hour /\
  (7 <= 7 -> backoff 7 = 30 * Second * 2 ^ 7) /\
  (8 <= 7 -> backoff 7 = 2 * Hour).
Proof. apply (backoff_capped_doubling 7). lia. Defined.

(** ** The form of the signature *)

Lemma hex_EncodeToString_form (s : string) :
  all_chars is_lower_hex (hex_EncodeToString s) = true /\
  String.length (hex_EncodeToString s) = (2 * String.length s)%nat.
Proof.
  induction s as [|c s [IHc IHl]]; [split; reflexivity|].
  cbn [hex_EncodeToString all_chars String.length]. rewrite IHc, IHl.
  split; [|lia].
  rewrite !andb_true_r.
  destruct c as [[] [] [] [] [] [] [] []]; reflexivity.
Qed.

(** X6: a signature is ["sha256="] followed by the digest in hexadecimal:
    two characters per byte of the digest, each one of [0-9a-f]. *)
Theorem signature_format `{Runtime} (payload secret : string) (timestamp : Z) :
  exists h,
    computeHMAC payload secret timestamp = "sha256=" +++ h /\
    all_chars is_lower_hex h = true /\
    String.length h
      = (2 * String.length (hmac_sha256 secret (decimal timestamp +++ "." +++ payload)))%nat.
Proof.
  eexists. split; [reflexivity|]. apply hex_EncodeToString_form.
Qed.

(** ** A batch *)

Lemma processPendingLogs_eq `{Runtime} (w : World) :
  processPendingLogs w =
  match next_fault w with
  | Some e => log_Printf ("error fetching pending webhook logs: " +++ e)
                (after_statement (GetPendingWebhookLogsStmt 100) w)
  | None => for_range (batch_of w) deliverWebhook
              (after_statement (GetPendingWebhookLogsStmt 100) w)
  end.
Proof.
  unfold processPendingLogs, bind, Queries.GetPendingWebhookLogs, db_run, time_Now,
    batch_of, after_statement, get_pending_webhook_logs.
  cbn [db clock ticks faults responses sent issued out].
  unfold next_fault. cbn [faults].
  change (100 <? 0) with false. cbv iota.
  destruct (faults w) as [|[e|] fl]; reflexivity.
Qed.

(** The tables after an attempt: as before, or with the one update of the
    attempt's row applied. *)
Lemma deliverWebhook_db `{Runtime} (l : pendingLog.t) (w : World) :
  db (snd (deliverWebhook l w)) = db w \/
  exists st code body err a next now,
    db (snd (deliverWebhook l w))
    = db_after_update (pendingLog.ID l) st code body err a next now (db w).
Proof.
  pose proof (deliverWebhook_outcome l w) as Ho. unfold delivery_outcome in Ho.
  assert (Hw : forall st code body err a next,
             writes w (snd (deliverWebhook l w)) (pendingLog.ID l) st code body err a next ->
             db (snd (deliverWebhook l w)) = db w \/
             exists st code body err a next now,
               db (snd (deliverWebhook l w))
               = db_after_update (pendingLog.ID l) st code body err a next now (db w)).
  { intros st code body err a next (_ & _ & Hdb).
    destruct (next_fault w); [left; exact Hdb | right].
    do 7 eexists. exact Hdb. }
  assert (Hr : forall code body err,
             retries_or_fails w (snd (deliverWebhook l w)) l code body err ->
             db (snd (deliverWebhook l w)) = db w \/
             exists st code body err a next now,
               db (snd (deliverWebhook l w))
               = db_after_update (pendingLog.ID l) st code body err a next now (db w)).
  { intros code body err [Hf Hp].
    destruct (Z_gt_le_dec (int_add (pendingLog.Attempts l) 1) (pendingLog.MaxRetries l))
      as [Hc|Hc].
    - eapply Hw, Hf, Hc.
    - destruct (Hp Hc) as (now & _ & Hwr). eapply Hw, Hwr. }
  destruct (NewRequest_check (pendingLog.URL l)); [eapply Hw, Ho|].
  destruct (next_response w) as [e|code body]; [eapply Hr, Ho|].
  destruct ((code >=? 200) && (code <? 300)); [eapply Hw, Ho | eapply Hr, Ho].
Qed.

(** What every update of a row of [rows] keeps, the loop over [rows]
    keeps. *)
Lemma deliver_loop_keeps `{Runtime} (Q : DB -> Prop) (rows : list pendingLog.t) :
  (forall l d st code body err a next now,
     In l rows -> Q d ->
     Q (db_after_update (pendingLog.ID l) st code body err a next now d)) ->
  forall w : World, Q (db w) -> Q (db (snd (for_range rows deliverWebhook w))).
Proof.
  induction rows as [|l rows IH]; intros Hstep w HQ; [exact HQ|].
  cbn [for_range]. unfold bind.
  assert (HQ1 : Q (db (snd (deliverWebhook l w)))).
  { destruct (deliverWebhook_db l w) as [Hsame | (st & code & body & err & a & next & now & Hup)].
    - rewrite Hsame. exact HQ.
    - rewrite Hup. apply Hstep; [left; reflexivity | exact HQ]. }
  destruct (deliverWebhook l w) as [[] w1]. cbn [snd] in HQ1.
  apply IH; [|exact HQ1].
  intros l0 d st code body err a next now Hin. apply Hstep. right. exact Hin.
Qed.

Lemma processPendingLogs_keeps `{Runtime} (Q : DB -> Prop) (w : World) :
  (forall l d st code body err a next now,
     In l (batch_of w) -> Q d ->
     Q (db_after_update (pendingLog.ID l) st code body err a next now d)) ->
  Q (db w) -> Q (db (snd (processPendingLogs w))).
Proof.
  intros Hstep HQ. rewrite processPendingLogs_eq.
  destruct (next_fault w) as [e|]; [exact HQ|].
  apply deliver_loop_keeps; assumption.
Qed.

Lemma snapshot_update_log_row id st code body err a next now (r : WebhookLog.t) :
  snapshot (update_log_row id st code body err a next now r) = snapshot r.
Proof.
  unfold update_log_row. destruct (WebhookLog.ID r =? id); reflexivity.
Qed.

(** X7: a batch changes no column that was set when a row was created
    (id, webhook, event, URL, payload, creation time), adds and removes
    no log row, and leaves the webhooks table and both sequences as they
    are. *)
Theorem batch_keeps_snapshots `{Runtime} (w : World) :
  let w' := snd (processPendingLogs w) in
  map snapshot (webhook_logs (db w')) = map snapshot (webhook_logs (db w)) /\
  webhooks (db w') = webhooks (db w) /\
  webhooks_id_seq (db w') = webhooks_id_seq (db w) /\
  webhook_logs_id_seq (db w') = webhook_logs_id_seq (db w).
Proof.
  cbv zeta.
  apply (processPendingLogs_keeps
           (fun d => map snapshot (webhook_logs d) = map snapshot (webhook_logs (db w)) /\
                     webhooks d = webhooks (db w) /\
                     webhooks_id_seq d = webhooks_id_seq (db w) /\
                     webhook_logs_id_seq d = webhook_logs_id_seq (db w))).
  - intros l d st code body err a next now _ (Hs & Hw & Hq1 & Hq2).
    unfold db_after_update. cbn [webhook_logs webhooks webhooks_id_seq webhook_logs_id_seq].
    split; [|repeat split; assumption].
    rewrite <- Hs, map_map. apply map_ext. intros r. apply snapshot_update_log_row.
  - repeat split; reflexivity.
Qed.

Lemma NoDup_map_inj {A B} (f : A -> B) (l : list A) (x y : A) :
  NoDup (map f l) -> In x l -> In y l -> f x = f y -> x = y.
Proof.
  induction l as [|z l IH]; cbn; [tauto|].
  intros Hnd Hx Hy Hf. inversion Hnd as [|? ? Hnotin Hnd']; subst.
  destruct Hx as [->|Hx]; destruct Hy as [->|Hy]; try reflexivity.
  - exfalso. apply Hnotin. rewrite Hf. apply in_map, Hy.
  - exfalso. apply Hnotin. rewrite <- Hf. apply in_map, Hx.
  - apply IH; assumption.
Qed.

(** X9: when the database refuses the poll, the worker logs one line and
    skips the tick: the tables are as before, nothing is handed to the
    HTTP client and no update is issued. *)
Theorem batch_skipped_on_select_error `{Runtime} (w : World) (e : error) :
  next_fault w = Some e ->
  let w' := snd (processPendingLogs w) in
  db w' = db w /\
  sent w' = sent w /\
  issued w' = issued w ++ [GetPendingWebhookLogsStmt 100] /\
  out w' = out w ++ ["error fetching pending webhook logs: " +++ e].
Proof.
  intros Hf. cbv zeta. rewrite processPendingLogs_eq, Hf.
  repeat split; reflexivity.
Qed.

Lemma batch_skipped_on_select_error_witness :
  let w := example_world 0 3 [Some "connection refused"] [Response 204 "ok"] in
  let w' := snd (processPendingLogs w) in
  db w' = db w /\
  sent w' = sent w /\
  issued w' = issued w ++ [GetPendingWebhookLogsStmt 100] /\
  out w' = out w ++ ["error fetching pending webhook logs: " +++ "connection refused"].
Proof.
  apply (batch_skipped_on_select_error
           (example_world 0 3 [Some "connection refused"] [Response 204 "ok"])).
  reflexivity.
Defined.

Lemma firstn_short {A} (n : nat) (l : list A) :
  (List.length (firstn n l) < n)%nat -> firstn n l = l.
Proof.
  revert l. induction n as [|n IH]; intros l Hlt; [lia|].
  destruct l as [|x l]; [reflexivity|].
  cbn [firstn List.length] in *. f_equal. apply IH. lia.
Qed.

(** X10: a poll that comes back with fewer rows than its limit left
    nothing out: every pending log that is due and whose webhook is
    stored is among the rows, joined with that webhook's policy. *)
Theorem short_batch_is_complete (limit now : Z) (d d' : DB) (rows : list pendingLog.t)
    (r : WebhookLog.t) (wh : Webhook.t) :
  get_pending_webhook_logs limit now d = inr (rows, d') ->
  Z.of_nat (List.length rows) < limit ->
  In r (webhook_logs d) ->
  log_is_due now r = true ->
  In wh (webhooks d) ->
  Webhook.ID wh = WebhookLog.WebhookID r ->
  In (pendingLog.mk r (Webhook.MaxRetries wh) (Webhook.Timeout wh) (Webhook.AuthType wh)
        (Webhook.AuthBasicUser wh) (Webhook.AuthBasicPass wh) (Webhook.AuthHMACSecret wh))
     rows.
Proof.
  unfold get_pending_webhook_logs. intros Hq Hshort Hr Hdue Hwh Hid.
  destruct (Z.ltb_spec limit 0) as [Hneg|Hpos]; [discriminate|].
  injection Hq as <- <-.
  rewrite firstn_short by lia.
  apply order_by_In. apply filter_In. split; [|exact Hdue].
  apply in_flat_map. exists r. split; [exact Hr|].
  unfold join_webhook.
  apply (in_map (fun w => pendingLog.mk r (Webhook.MaxRetries w) (Webhook.Timeout w)
                            (Webhook.AuthType w) (Webhook.AuthBasicUser w)
                            (Webhook.AuthBasicPass w) (Webhook.AuthHMACSecret w))).
  apply filter_In. split; [exact Hwh | apply Z.eqb_eq, Hid].
Qed.

Lemma short_batch_is_complete_witness :
  In (example_pending 0 3) [example_pending 0 3].
Proof.
  apply (short_batch_is_complete 100 20 (db (example_world 0 3 [] []))
           (db (example_world 0 3 [] [])) [example_pending 0 3]
           (example_log 0) (example_webhook 3)).
  - reflexivity.
  - cbn. lia.
  - left. reflexivity.
  - reflexivity.
  - left. reflexivity.
  - reflexivity.
Defined.

Lemma delivery_header `{Runtime} (l : pendingLog.t) (w : World) :
  Header_Get "X-Listmonk-Delivery" (req_Header (fst (apply_auth l (base_request l) w)))
  = Some (decimal (pendingLog.ID l)).
Proof.
  rewrite apply_auth_request.
  destruct (String.eqb (pendingLog.AuthType l) WebhookAuthTypeBasic);
    [|destruct (String.eqb (pendingLog.AuthType l) WebhookAuthTypeHMAC)]; reflexivity.
Qed.

Lemma deliver_loop_sent `{Runtime} (rows : list pendingLog.t) :
  forall w : World,
  exists reqs,
    sent (snd (for_range rows deliverWebhook w)) = sent w ++ reqs /\
    map (fun q => Header_Get "X-Listmonk-Delivery" (req_Header q)) reqs
    = map (fun l => Some (decimal (pendingLog.ID l))) (sendable rows).
Proof.
  induction rows as [|l rows IH]; intros w.
  - exists []. cbn. rewrite app_nil_r. split; reflexivity.
  - cbn [for_range]. unfold bind.
    pose proof (deliverWebhook_sent l w) as Hs.
    pose proof (delivery_header l w) as Hh.
    destruct (deliverWebhook l w) as [[] w1]. cbn [snd] in Hs.
    destruct (IH w1) as (reqs & Hr & Hm).
    unfold sendable in *. cbn [filter].
    destruct (NewRequest_check (pendingLog.URL l)).
    + exists reqs. rewrite Hr, Hs. split; [reflexivity | exact Hm].
    + eexists (_ :: reqs). rewrite Hr, Hs, <- app_assoc. cbn [app map].
      split; [reflexivity|]. rewrite Hh, Hm. reflexivity.
Qed.

(** X11: a batch hands the HTTP client one request for each of its rows
    whose URL makes a request, in the order of the rows, each marked with
    the id of its row as [X-Listmonk-Delivery]; rows whose request cannot
    be built get none. *)
Theorem batch_sends_one_request_per_row `{Runtime} (w : World) :
  next_fault w = None ->
  exists reqs,
    sent (snd (processPendingLogs w)) = sent w ++ reqs /\
    List.length reqs = List.length (sendable (batch_of w)) /\
    map (fun q => Header_Get "X-Listmonk-Delivery" (req_Header q)) reqs
    = map (fun l => Some (decimal (pendingLog.ID l))) (sendable (batch_of w)).
Proof.
  intros Hf. rewrite processPendingLogs_eq, Hf.
  destruct (deliver_loop_sent (batch_of w)
              (after_statement (GetPendingWebhookLogsStmt 100) w)) as (reqs & Hs & Hm).
  exists reqs. split; [exact Hs|]. split; [|exact Hm].
  rewrite <- (length_map (fun q => Header_Get "X-Listmonk-Delivery" (req_Header q)) reqs).
  rewrite Hm. apply length_map.
Qed.

Lemma batch_sends_one_request_per_row_witness :
  let w := example_world 0 3 [] [Response 204 "ok"] in
  exists reqs,
    sent (snd (processPendingLogs w)) = sent w ++ reqs /\
    List.length reqs = List.length (sendable (batch_of w)) /\
    map (fun q => Header_Get "X-Listmonk-Delivery" (req_Header q)) reqs
    = map (fun l => Some (decimal (pendingLog.ID l))) (sendable (batch_of w)).
Proof.
  apply (batch_sends_one_request_per_row (example_world 0 3 [] [Response 204 "ok"])).
  reflexivity.
Defined.

(** ** More on [Trigger] *)

Lemma db_run_frame {A} (s : Stmt) (f : Z -> DB -> error + (A * DB)) (w : World) :
  sent (snd (db_run s f w)) = sent w /\
  responses (snd (db_run s f w)) = responses w /\
  issued (snd (db_run s f w)) = issued w ++ [s] /\
  (db (snd (db_run s f w)) = db w \/
   exists a, f (clock w + next_tick w) (db w) = inr (a, db (snd (db_run s f w)))).
Proof.
  unfold db_run, time_Now. cbn [db clock ticks faults responses sent issued out snd].
  unfold next_fault. cbn [faults].
  repeat split.
  destruct (match faults w with [] => None | x :: _ => x end); [left; reflexivity|].
  destruct (f (clock w + next_tick w) (db w)) as [e|[a d']]; [left; reflexivity|].
  right. exists a. reflexivity.
Qed.

Lemma insert_log_frame (event payload : string) (wh : Webhook.t) (w : World) :
  sent (snd (insert_log event payload wh w)) = sent w /\
  (db (snd (insert_log event payload wh w)) = db w \/
   exists now id,
     create_webhook_log (Webhook.ID wh) event (Webhook.URL wh) payload
       WebhookLogStatusPending None now (db w)
     = inr (id, db (snd (insert_log event payload wh w)))).
Proof.
  unfold insert_log, bind, Queries.CreateWebhookLog.
  match goal with |- context [db_run ?s ?f w] =>
    destruct (db_run_frame s f w) as (Hs & _ & _ & Hd);
    destruct (db_run s f w) as [r w1] end.
  cbn [snd] in Hs, Hd.
  assert (Hout : sent (snd (match r with
                            | inl err => log_Printf ("error creating webhook log for webhook "
                                           +++ decimal (Webhook.ID wh) +++ ": " +++ err)
                            | inr _ => ret tt
                            end w1)) = sent w1 /\
                 db (snd (match r with
                          | inl err => log_Printf ("error creating webhook log for webhook "
                                         +++ decimal (Webhook.ID wh) +++ ": " +++ err)
                          | inr _ => ret tt
                          end w1)) = db w1)
    by (destruct r; split; reflexivity).
  destruct Hout as [Ho1 Ho2]. rewrite Ho1, Ho2. split; [exact Hs|].
  destruct Hd as [Hd | (a & Hd)]; [left; exact Hd | right].
  exists (clock w + next_tick w), a. exact Hd.
Qed.

(** What every accepted insert of [Trigger] keeps, [Trigger] keeps; and
    it hands nothing to the HTTP client. *)
Lemma Trigger_keeps `{Runtime} (Q : DB -> Prop) (event : string) (data : any) (w : World) :
  (forall wid url payload now d id d',
     create_webhook_log wid event url payload WebhookLogStatusPending None now d
     = inr (id, d') -> Q d -> Q d') ->
  Q (db w) ->
  Q (db (snd (Trigger event data w))) /\ sent (snd (Trigger event data w)) = sent w.
Proof.
  intros Hstep HQ. rewrite Trigger_eq. cbv zeta.
  rewrite GetWebhooksByEvent_eq. cbn [fst snd].
  set (w1 := mkWorld _ _ _ _ _ _ _ _).
  assert (H1 : Q (db w1) /\ sent w1 = sent w) by (split; [exact HQ | reflexivity]).
  destruct (next_fault w) as [err|]; [exact H1|].
  destruct (List.length _ =? 0)%nat; [exact H1|].
  destruct (json_Marshal _) as [err|p]; [exact H1|]. cbn [snd].
  assert (Hloop : forall whs w2, Q (db w2) ->
            Q (db (snd (for_range whs (insert_log event p) w2))) /\
            sent (snd (for_range whs (insert_log event p) w2)) = sent w2).
  { induction whs as [|wh whs IH]; intros w2 HQ2; [split; [exact HQ2 | reflexivity]|].
    cbn [for_range]. unfold bind.
    destruct (insert_log_frame event p wh w2) as (Hs & Hd).
    destruct (insert_log event p wh w2) as [[] w3]. cbn [snd] in Hs, Hd.
    assert (HQ3 : Q (db w3)).
    { destruct Hd as [Hd | (now & id & Hd)]; [rewrite Hd; exact HQ2|].
      eapply Hstep; [exact Hd | exact HQ2]. }
    destruct (IH w3 HQ3) as [HQ' Hs']. split; [exact HQ' | congruence]. }
  match goal with |- context [for_range ?whs _ ?w2] =>
    destruct (Hloop whs w2 HQ) as [HQ' Hs'] end.
  split; [exact HQ' | rewrite Hs'; reflexivity].
Qed.

Lemma create_webhook_log_inv wid event url payload status next now d id d' :
  create_webhook_log wid event url payload status next now d = inr (id, d') ->
  id = webhook_logs_id_seq d + 1 /\
  webhooks d' = webhooks d /\
  webhooks_id_seq d' = webhooks_id_seq d /\
  webhook_logs_id_seq d' = id /\
  (exists w, In w (webhooks d) /\ Webhook.ID w = wid) /\
  webhook_logs d' = webhook_logs d ++
    [WebhookLog.mk id wid event url payload status None EmptyString EmptyString 0 next
       now now].
Proof.
  unfold create_webhook_log. intros Hc.
  destruct (existsb (fun w => Webhook.ID w =? wid) (webhooks d)) eqn:Hfk;
    cbn [negb] in Hc; [|discriminate].
  destruct (is_webhook_log_status status); cbn [negb] in Hc; [|discriminate].
  injection Hc as <- <-. cbn. repeat split; try reflexivity.
  apply existsb_exists in Hfk. destruct Hfk as (x & Hx & He).
  exists x. split; [exact Hx | apply Z.eqb_eq, He].
Qed.

(** X12: [Trigger] only queues: it hands nothing to the HTTP client,
    leaves the webhooks table as it is, and keeps every log row that was
    there, in place, adding its rows after them. *)
Theorem Trigger_only_appends `{Runtime} (event : string) (data : any) (w : World) :
  let w' := snd (Trigger event data w) in
  sent w' = sent w /\
  webhooks (db w') = webhooks (db w) /\
  exists rows, webhook_logs (db w') = webhook_logs (db w) ++ rows.
Proof.
  cbv zeta.
  destruct (Trigger_keeps
              (fun d => webhooks d = webhooks (db w) /\
                        exists rows, webhook_logs d = webhook_logs (db w) ++ rows)
              event data w) as [(Hw & Hrows) Hs].
  - intros wid url payload now d id d' Hc (Hw & rows & Hl).
    apply create_webhook_log_inv in Hc. destruct Hc as (_ & Hw' & _ & _ & _ & Hl').
    split; [congruence|]. eexists. rewrite Hl', Hl, <- app_assoc. reflexivity.
  - split; [reflexivity|]. exists []. rewrite app_nil_r. reflexivity.
  - split; [exact Hs|]. split; [exact Hw | exact Hrows].
Qed.

(** X13: when the select of the webhooks fails, [Trigger] returns that
    error; it has issued nothing but the select and the tables are
    untouched. *)
Theorem Trigger_select_error `{Runtime} (event : string) (data : any) (w : World)
    (err : error) :
  next_fault w = Some err ->
  fst (Trigger event data w) = Some err /\
  db (snd (Trigger event data w)) = db w /\
  issued (snd (Trigger event data w)) = issued w ++ [GetWebhooksByEventStmt event] /\
  out (snd (Trigger event data w))
  = out w ++ ["error getting webhooks for event " +++ event +++ ": " +++ err].
Proof.
  intros Hf. rewrite Trigger_eq. cbv zeta.
  rewrite GetWebhooksByEvent_eq, Hf. cbn. repeat split; reflexivity.
Qed.

Lemma Trigger_select_error_witness :
  let w := example_world 0 3 [Some "connection refused"] [] in
  fst (@Trigger ExampleRuntime "subscriber.created" example_data w)
    = Some "connection refused" /\
  db (snd (@Trigger ExampleRuntime "subscriber.created" example_data w)) = db w /\
  issued (snd (@Trigger ExampleRuntime "subscriber.created" example_data w))
    = issued w ++ [GetWebhooksByEventStmt "subscriber.created"] /\
  out (snd (@Trigger ExampleRuntime "subscriber.created" example_data w))
    = out w ++ ["error getting webhooks for event " +++ "subscriber.created" +++ ": "
                +++ "connection refused"].
Proof.
  apply (@Trigger_select_error ExampleRuntime "subscriber.created" example_data
           (example_world 0 3 [Some "connection refused"] [])).
  reflexivity.
Defined.

Lemma mem_string_In (s : string) (l : list string) : mem_string s l = true <-> In s l.
Proof.
  unfold mem_string. rewrite existsb_exists. split.
  - intros (x & Hx & He). apply String.eqb_eq in He. subst. exact Hx.
  - intros Hin. exists s. split; [exact Hin | apply String.eqb_refl].
Qed.

(** X14: every row [Trigger] adds belongs to a stored webhook that is
    enabled and subscribed to the event: it carries that webhook's id and
    its URL as it was at the time of the call, the event, and no response
    code yet. *)
Theorem Trigger_rows_snapshot `{Runtime} (event : string) (data : any) (w : World) :
  fst (Trigger event data w) = None ->
  exists rows,
    webhook_logs (db (snd (Trigger event data w))) = webhook_logs (db w) ++ rows /\
    Forall (fun r =>
              WebhookLog.Event r = event /\
              WebhookLog.ResponseCode r = None /\
              exists wh, In wh (webhooks (db w)) /\
                         Webhook.Status wh = WebhookStatusEnabled /\
                         In event (Webhook.Events wh) /\
                         WebhookLog.WebhookID r = Webhook.ID wh /\
                         WebhookLog.URL r = Webhook.URL wh) rows.
Proof.
  intros Hok.
  destruct (next_fault w) as [err|] eqn:Hf.
  { destruct (Trigger_select_rejected event data w err Hf) as [Hr _]. congruence. }
  destruct (matching event (db w)) as [|wh0 whs] eqn:Hm.
  - destruct (Trigger_none_found event data w Hf Hm) as (_ & Hdb & _).
    exists []. rewrite Hdb, app_nil_r. split; [reflexivity | constructor].
  - assert (Hne : matching event (db w) <> []) by (rewrite Hm; discriminate).
    pose proof (Trigger_found event data w Hf Hne) as [_ Hfound].
    cbv zeta in Hfound.
    destruct (json_Marshal _) as [err|p].
    { destruct Hfound as (Hr & _). congruence. }
    destruct Hfound as (_ & _ & _ & _ & rows & Hl & _ & Hrows).
    exists rows. split; [exact Hl|].
    eapply Forall_impl; [|exact Hrows].
    intros r (_ & _ & _ & _ & He & Hc & (wh & Hwh & Hid & Hurl)).
    split; [exact He|]. split; [exact Hc|].
    exists wh. unfold matching in Hwh. apply filter_In in Hwh. destruct Hwh as [Hin Hmatch].
    unfold webhook_matches in Hmatch. apply andb_prop in Hmatch.
    destruct Hmatch as [Hst Hev].
    split; [exact Hin|]. split; [apply String.eqb_eq, Hst|].
    split; [apply mem_string_In, Hev|]. split; assumption.
Qed.

Lemma Trigger_rows_snapshot_witness :
  let w := example_world 0 3 [] [] in
  exists rows,
    webhook_logs (db (snd (@Trigger ExampleRuntime "subscriber.created" example_data w)))
    = webhook_logs (db w) ++ rows /\
    Forall (fun r =>
              WebhookLog.Event r = "subscriber.created" /\
              WebhookLog.ResponseCode r = None /\
              exists wh, In wh (webhooks (db w)) /\
                         Webhook.Status wh = WebhookStatusEnabled /\
                         In "subscriber.created" (Webhook.Events wh) /\
                         WebhookLog.WebhookID r = Webhook.ID wh /\
                         WebhookLog.URL r = Webhook.URL wh) rows.
Proof.
  apply (@Trigger_rows_snapshot ExampleRuntime "subscriber.created" example_data
           (example_world 0 3 [] [])).
  vm_compute. reflexivity.
Defined.

(** ** Invariants of the tables *)

Lemma NoDup_snoc {A} (l : list A) (x : A) : NoDup l -> ~ In x l -> NoDup (l ++ [x]).
Proof.
  intros Hnd Hx.
  apply (Permutation_NoDup (l := x :: l)); [apply Permutation_cons_append|].
  constructor; assumption.
Qed.

Lemma ID_update_log_row id st code body err a next now (r : WebhookLog.t) :
  WebhookLog.ID (update_log_row id st code body err a next now r) = WebhookLog.ID r.
Proof. unfold update_log_row. destruct (WebhookLog.ID r =? id); reflexivity. Qed.

(** X15: log ids stay distinct and within the sequence: [Trigger] gives
    each new row the next value of the sequence, and a batch changes
    neither the ids nor the sequence. *)
Theorem log_ids_stay_fresh `{Runtime} (event : string) (data : any) (w : World) :
  log_ids_fresh (db w) ->
  log_ids_fresh (db (snd (Trigger event data w))) /\
  log_ids_fresh (db (snd (processPendingLogs w))).
Proof.
  intros Hfresh. split.
  - apply (Trigger_keeps log_ids_fresh event data w); [|exact Hfresh].
    intros wid url payload now d id d' Hc [Hnd Hle].
    apply create_webhook_log_inv in Hc.
    destruct Hc as (Hid & _ & _ & Hseq & _ & Hl).
    unfold log_ids_fresh. rewrite Hl, Hseq, map_app. cbn [map WebhookLog.ID]. split.
    + apply NoDup_snoc; [exact Hnd|].
      intros Hin. apply in_map_iff in Hin. destruct Hin as (r & Hr & Hin).
      rewrite Forall_forall in Hle. specialize (Hle r Hin). lia.
    + apply Forall_app. split.
      * eapply Forall_impl; [|exact Hle]. cbn. intros; lia.
      * constructor; [cbn; lia | constructor].
  - apply (processPendingLogs_keeps log_ids_fresh w); [|exact Hfresh].
    intros l d st code body err a next now _ [Hnd Hle].
    unfold log_ids_fresh, db_after_update. cbn [webhook_logs webhook_logs_id_seq].
    split.
    + rewrite map_map.
      rewrite (map_ext _ WebhookLog.ID
                 (fun r => ID_update_log_row (pendingLog.ID l) st code body err a next now r)).
      exact Hnd.
    + rewrite Forall_forall in *. intros r Hin. apply in_map_iff in Hin.
      destruct Hin as (r0 & <- & Hin0). rewrite ID_update_log_row. apply Hle, Hin0.
Qed.

Lemma log_ids_stay_fresh_witness :
  let w := example_world 0 3 [] [Response 204 "ok"] in
  log_ids_fresh (db (snd (@Trigger ExampleRuntime "subscriber.created" example_data w))) /\
  log_ids_fresh (db (snd (@processPendingLogs ExampleRuntime w))).
Proof.
  apply (@log_ids_stay_fresh ExampleRuntime "subscriber.created" example_data
           (example_world 0 3 [] [Response 204 "ok"])).
  unfold log_ids_fresh. cbn. split.
  - repeat constructor. intros [].
  - repeat constructor. cbn. lia.
Defined.

Lemma WebhookID_update_log_row id st code body err a next now (r : WebhookLog.t) :
  WebhookLog.WebhookID (update_log_row id st code body err a next now r)
  = WebhookLog.WebhookID r.
Proof. unfold update_log_row. destruct (WebhookLog.ID r =? id); reflexivity. Qed.

Lemma ID_update_webhook_row id (input : Webhook.t) now (r : Webhook.t) :
  Webhook.ID (update_webhook_row id input now r) = Webhook.ID r.
Proof. unfold update_webhook_row. destruct (Webhook.ID r =? id); reflexivity. Qed.

(** X16: the statements that write keep referential integrity: when every
    log refers to a stored webhook before an insert or update of a log or
    of a webhook, it does so after. *)
Theorem referential_integrity_kept `{Runtime} (d : DB) :
  fk_ok d ->
  (forall wid event url payload status next now id d',
     create_webhook_log wid event url payload status next now d = inr (id, d') ->
     fk_ok d') /\
  (forall id status code body err a next now u d',
     update_webhook_log id status code body err a next now d = inr (u, d') -> fk_ok d') /\
  (forall input now x d', create_webhook input now d = inr (x, d') -> fk_ok d') /\
  (forall id input now n d', update_webhook id input now d = inr (n, d') -> fk_ok d').
Proof.
  unfold fk_ok. intros Hfk. repeat split.
  - intros wid event url payload status next now id d' Hc.
    apply create_webhook_log_inv in Hc. destruct Hc as (_ & Hw & _ & _ & Hex & Hl).
    rewrite Hl, Hw. apply Forall_app. split; [exact Hfk|].
    constructor; [exact Hex | constructor].
  - intros id status code body err a next now u d'. unfold update_webhook_log.
    destruct (is_webhook_log_status status); cbn [negb]; [|discriminate].
    intros [= <- <-]. cbn [webhook_logs webhooks].
    rewrite Forall_forall in *. intros r Hin. apply in_map_iff in Hin.
    destruct Hin as (r0 & <- & Hin0). rewrite WebhookID_update_log_row. apply Hfk, Hin0.
  - intros input now x d'. unfold create_webhook.
    destruct (is_webhook_status (Webhook.Status input)); cbn [negb]; [|discriminate].
    intros [= <- <-]. cbn [webhook_logs webhooks].
    eapply Forall_impl; [|exact Hfk].
    intros r (w & Hw & Hid). exists w. split; [apply in_or_app; left; exact Hw | exact Hid].
  - intros id input now n d'. unfold update_webhook.
    destruct (is_webhook_status (Webhook.Status input)); cbn [negb]; [|discriminate].
    intros [= <- <-]. cbn [webhook_logs webhooks].
    eapply Forall_impl; [|exact Hfk].
    intros r (w & Hw & Hid). exists (update_webhook_row id input now w).
    split; [apply in_map, Hw | rewrite ID_update_webhook_row; exact Hid].
Qed.

Lemma referential_integrity_kept_witness :
  let d := db (example_world 0 3 [] []) in
  (forall wid event url payload status next now id d',
     create_webhook_log wid event url payload status next now d = inr (id, d') ->
     fk_ok d') /\
  (forall id status code body err a next now u d',
     update_webhook_log id status code body err a next now d = inr (u, d') -> fk_ok d') /\
  (forall input now x d',
     @create_webhook ExampleRuntime input now d = inr (x, d') -> fk_ok d') /\
  (forall id input now n d', update_webhook id input now d = inr (n, d') -> fk_ok d').
Proof.
  apply (@referential_integrity_kept ExampleRuntime (db (example_world 0 3 [] []))).
  unfold fk_ok. cbn. constructor; [|constructor].
  exists (example_webhook 3). split; [left; reflexivity | reflexivity].
Defined.

Lemma existsb_eqb_In (x : Z) (ids : list Z) : existsb (Z.eqb x) ids = true <-> In x ids.
Proof.
  rewrite existsb_exists. split.
  - intros (y & Hy & He). apply Z.eqb_eq in He. subst. exact Hy.
  - intros Hin. exists x. split; [exact Hin | apply Z.eqb_refl].
Qed.

(** X17: deleting webhooks removes exactly the webhooks with the given
    ids and, by the cascade of the foreign key, exactly the logs that
    refer to them; every other webhook and log stays, and every remaining
    log still refers to a stored webhook. *)
Theorem delete_webhooks_cascades (ids : list Z) (now : Z) (d : DB) :
  fk_ok d ->
  exists d',
    delete_webhooks ids now d = inr (tt, d') /\
    (forall w, In w (webhooks d') <-> In w (webhooks d) /\ ~ In (Webhook.ID w) ids) /\
    (forall r, In r (webhook_logs d') <->
               In r (webhook_logs d) /\ ~ In (WebhookLog.WebhookID r) ids) /\
    fk_ok d'.
Proof.
  intros Hfk. eexists. split; [reflexivity|].
  cbn [webhooks webhook_logs].
  assert (Hw : forall w,
             In w (filter (fun w => negb (existsb (Z.eqb (Webhook.ID w)) ids)) (webhooks d))
             <-> In w (webhooks d) /\ ~ In (Webhook.ID w) ids).
  { intros w. rewrite filter_In, negb_true_iff, <- not_true_iff_false, existsb_eqb_In.
    reflexivity. }
  assert (Hl : forall r,
             In r (filter (fun r => negb (existsb
                                     (fun w => Webhook.ID w =? WebhookLog.WebhookID r)
                                     (filter (fun w => existsb (Z.eqb (Webhook.ID w)) ids)
                                        (webhooks d))))
                     (webhook_logs d))
             <-> In r (webhook_logs d) /\ ~ In (WebhookLog.WebhookID r) ids).
  { intros r. rewrite filter_In, negb_true_iff, <- not_true_iff_false, existsb_exists.
    split; intros [Hin Hno]; (split; [exact Hin|]).
    - intros Hid. apply Hno.
      unfold fk_ok in Hfk. rewrite Forall_forall in Hfk.
      destruct (Hfk r Hin) as (w & Hwin & Hwid).
      exists w. split; [|apply Z.eqb_eq, Hwid].
      apply filter_In. split; [exact Hwin|]. apply existsb_eqb_In. rewrite Hwid. exact Hid.
    - intros (w & Hwdel & He). apply Hno.
      apply filter_In in Hwdel. destruct Hwdel as [_ Hwids].
      apply existsb_eqb_In in Hwids. apply Z.eqb_eq in He. rewrite <- He. exact Hwids. }
  split; [exact Hw|]. split; [exact Hl|].
  unfold fk_ok. cbn [webhooks webhook_logs]. rewrite Forall_forall. intros r Hr.
  apply Hl in Hr. destruct Hr as [Hin Hno].
  unfold fk_ok in Hfk. rewrite Forall_forall in Hfk.
  destruct (Hfk r Hin) as (w & Hwin & Hwid).
  exists w. split; [|exact Hwid]. apply Hw. split; [exact Hwin|]. rewrite Hwid. exact Hno.
Qed.

Lemma delete_webhooks_cascades_witness :
  let d := db (example_world 0 3 [] []) in
  exists d',
    delete_webhooks [1] 20 d = inr (tt, d') /\
    (forall w, In w (webhooks d') <-> In w (webhooks d) /\ ~ In (Webhook.ID w) [1]) /\
    (forall r, In r (webhook_logs d') <->
               In r (webhook_logs d) /\ ~ In (WebhookLog.WebhookID r) [1]) /\
    fk_ok d'.
Proof.
  apply (delete_webhooks_cascades [1] 20 (db (example_world 0 3 [] []))).
  unfold fk_ok. cbn. constructor; [|constructor].
  exists (example_webhook 3). split; [left; reflexivity | reflexivity].
Defined.

(** ** Admission of webhooks *)

(** X18: a webhook passes the checks of [CreateWebhook] and
    [UpdateWebhook] exactly when its name has 1 to 200 bytes, its URL 1 to
    2000 bytes, and its events are a non-empty list of events of
    [AllWebhookEvents]; what the checks answer otherwise is a 400. *)
Theorem validate_spec (w : Webhook.t) :
  (Core.validate w = None <->
   (1 <= Z.of_nat (String.length (Webhook.Name w)) <= 200 /\
    1 <= Z.of_nat (String.length (Webhook.URL w)) <= 2000 /\
    Webhook.Events w <> [] /\
    forall e, In e (Webhook.Events w) -> In e AllWebhookEvents)) /\
  (forall err, Core.validate w = Some err ->
     exists args, err = NewHTTPError 400 "globals.messages.invalidFields" args).
Proof.
  unfold Core.validate, strHasLen. split.
  - destruct (Z.geb_spec (Z.of_nat (String.length (Webhook.Name w))) 1);
      destruct (Z.leb_spec (Z.of_nat (String.length (Webhook.Name w))) 200);
      cbn [andb negb]; try (split; [discriminate | intros; lia]).
    destruct (Z.geb_spec (Z.of_nat (String.length (Webhook.URL w))) 1);
      destruct (Z.leb_spec (Z.of_nat (String.length (Webhook.URL w))) 2000);
      cbn [andb negb]; try (split; [discriminate | intros; lia]).
    destruct (Webhook.Events w) as [|e0 es] eqn:He; cbn [List.length Nat.eqb].
    { split; [discriminate | intros (_ & _ & Hne & _); congruence]. }
    destruct (forallb (fun e => mem_string e AllWebhookEvents) (e0 :: es)) eqn:Hall;
      cbn [negb].
    + rewrite forallb_forall in Hall. split; [intros _ | reflexivity].
      split; [lia|]. split; [lia|]. split; [discriminate|].
      intros e Hin. apply mem_string_In, Hall, Hin.
    + split; [discriminate|]. intros (_ & _ & _ & Hin).
      assert (Htrue : forallb (fun e => mem_string e AllWebhookEvents) (e0 :: es) = true)
        by (apply forallb_forall; intros e He'; apply mem_string_In, Hin, He').
      congruence.
  - intros err.
    repeat match goal with
           | |- context [if ?c then _ else _] =>
               lazymatch c with
               | context [if _ then _ else _] => fail
               | _ => destruct c
               end
           end; intros [= <-]; eexists; reflexivity.
Qed.

Lemma validate_spec_witness :
  (Core.validate (example_input 0) = None <->
   (1 <= Z.of_nat (String.length (Webhook.Name (example_input 0))) <= 200 /\
    1 <= Z.of_nat (String.length (Webhook.URL (example_input 0))) <= 2000 /\
    Webhook.Events (example_input 0) <> [] /\
    forall e, In e (Webhook.Events (example_input 0)) -> In e AllWebhookEvents)) /\
  (forall err, Core.validate (example_input 0) = Some err ->
     exists args, err = NewHTTPError 400 "globals.messages.invalidFields" args).
Proof. apply (validate_spec (example_input 0)). Defined.

(** What [CreateWebhook] and [UpdateWebhook] can do to the tables: nothing,
    or the one statement applied to an input that passed the checks. *)
Lemma CreateWebhook_cases `{Runtime} (input : Webhook.t) (w : World) :
  db (snd (Core.CreateWebhook input w)) = db w \/
  (Core.validate input = None /\
   exists now x,
     create_webhook (Core.set_defaults (Core.coerce_auth_type input)) now (db w)
     = inr (x, db (snd (Core.CreateWebhook input w)))).
Proof.
  unfold Core.CreateWebhook.
  destruct (Core.validate input) as [e|]; [left; reflexivity|].
  unfold bind, Queries.CreateWebhook.
  match goal with |- context [db_run ?s ?f w] =>
    destruct (db_run_frame s f w) as (_ & _ & _ & Hd);
    destruct (db_run s f w) as [r w1] end.
  cbn [snd] in Hd.
  assert (Hgoal : forall P : DB -> Prop, P (db w1) ->
            P (db (snd ((match r with
                         | inl err =>
                             log_Printf ("error creating webhook: " +++ err) ;;;
                             ret (inl (NewHTTPError StatusInternalServerError
                                         "globals.messages.errorCreating"
                                         ["name"; "{globals.terms.webhook}"; "error"; err]))
                         | inr (id, uuid) => Core.GetWebhook id
                         end) w1)))).
  { intros P HP. destruct r as [err|[id uuid]]; [exact HP|].
    rewrite GetWebhook_db. exact HP. }
  apply (Hgoal (fun d' => d' = db w \/
                  (None = None /\
                   exists now x,
                     create_webhook (Core.set_defaults (Core.coerce_auth_type input)) now (db w)
                     = inr (x, d')))).
  clear Hgoal.
  destruct Hd as [Hd | (x & Hd)]; [left; exact Hd | right].
  split; [reflexivity|]. exists (clock w + next_tick w), x. exact Hd.
Qed.

Lemma UpdateWebhook_cases (id : Z) (input : Webhook.t) (w : World) :
  db (snd (Core.UpdateWebhook id input w)) = db w \/
  (Core.validate input = None /\
   exists now n,
     update_webhook id (Core.coerce_auth_type input) now (db w)
     = inr (n, db (snd (Core.UpdateWebhook id input w)))).
Proof.
  unfold Core.UpdateWebhook.
  destruct (Core.validate input) as [e|]; [left; reflexivity|].
  unfold bind, Queries.UpdateWebhook.
  match goal with |- context [db_run ?s ?f w] =>
    destruct (db_run_frame s f w) as (_ & _ & _ & Hd);
    destruct (db_run s f w) as [r w1] end.
  cbn [snd] in Hd.
  assert (Hgoal : forall P : DB -> Prop, P (db w1) ->
            P (db (snd ((match r with
                         | inl err =>
                             log_Printf ("error updating webhook: " +++ err) ;;;
                             ret (inl (NewHTTPError StatusInternalServerError
                                         "globals.messages.errorUpdating"
                                         ["name"; "{globals.terms.webhook}"; "error"; err]))
                         | inr n =>
                             if n =? 0
                             then ret (inl (NewHTTPError StatusBadRequest
                                              "globals.messages.notFound"
                                              ["name"; "{globals.terms.webhook}"]))
                             else Core.GetWebhook id
                         end) w1)))).
  { intros P HP. destruct r as [err|n]; [exact HP|].
    destruct (n =? 0); [exact HP|]. rewrite GetWebhook_db. exact HP. }
  apply (Hgoal (fun d' => d' = db w \/
                  (None = None /\
                   exists now n,
                     update_webhook id (Core.coerce_auth_type input) now (db w)
                     = inr (n, d')))).
  clear Hgoal.
  destruct Hd as [Hd | (x & Hd)]; [left; exact Hd | right].
  split; [reflexivity|]. exists (clock w + next_tick w), x. exact Hd.
Qed.

(** X19: an input the checks refuse is answered with the 400 of the
    checks and nothing else happens: no statement is issued, no line
    logged, the world is as before. *)
Theorem refused_input_touches_nothing `{Runtime} (id : Z) (input : Webhook.t) (w : World)
    (err : HTTPError) :
  Core.validate input = Some err ->
  Core.CreateWebhook input w = (inl err, w) /\
  Core.UpdateWebhook id input w = (inl err, w).
Proof.
  intros Hv. unfold Core.CreateWebhook, Core.UpdateWebhook. rewrite Hv.
  split; reflexivity.
Qed.

Lemma refused_input_touches_nothing_witness :
  let input := Webhook.with_Status "enabled"
                 (Webhook.mk 0 EmptyString "hook" "http://r/ok" EmptyString ["webhook.test"]
                    "none" EmptyString EmptyString EmptyString 3 "30s" "30s" 0 0) in
  let w := example_world 0 3 [] [] in
  let err := NewHTTPError StatusBadRequest "globals.messages.invalidFields"
               ["name"; "events"] in
  @Core.CreateWebhook ExampleRuntime input w = (inl err, w) /\
  Core.UpdateWebhook 1 input w = (inl err, w).
Proof.
  cbv zeta.
  apply (@refused_input_touches_nothing ExampleRuntime 1
           (Webhook.with_Status "enabled"
              (Webhook.mk 0 EmptyString "hook" "http://r/ok" EmptyString ["webhook.test"]
                 "none" EmptyString EmptyString EmptyString 3 "30s" "30s" 0 0))
           (example_world 0 3 [] [])).
  reflexivity.
Defined.

Lemma defaults_Events (w : Webhook.t) :
  Webhook.Events (Core.coerce_auth_type w) = Webhook.Events w /\
  Webhook.Events (Core.set_defaults (Core.coerce_auth_type w)) = Webhook.Events w.
Proof.
  destruct w. unfold Core.set_defaults, Core.coerce_auth_type. webhook_fields.
  split; split_defaults; reflexivity.
Qed.

Lemma validate_events (w : Webhook.t) :
  Core.validate w = None ->
  forallb (fun e => mem_string e AllWebhookEvents) (Webhook.Events w) = true.
Proof.
  unfold Core.validate.
  destruct (negb (strHasLen (Webhook.Name w) 1 200)); [discriminate|].
  destruct (negb (strHasLen (Webhook.URL w) 1 2000)); [discriminate|].
  destruct (List.length (Webhook.Events w) =? 0)%nat; [discriminate|].
  destruct (forallb (fun e => mem_string e AllWebhookEvents) (Webhook.Events w));
    [reflexivity | discriminate].
Qed.

(** X20: admission keeps the events of every stored webhook within
    [AllWebhookEvents]: if that holds of the table, it holds after any
    call of [CreateWebhook] or [UpdateWebhook], accepted or not. *)
Theorem admission_keeps_events_admitted `{Runtime} (id : Z) (input : Webhook.t)
    (w : World) :
  events_admitted (db w) ->
  events_admitted (db (snd (Core.CreateWebhook input w))) /\
  events_admitted (db (snd (Core.UpdateWebhook id input w))).
Proof.
  unfold events_admitted. intros Hadm. split.
  - destruct (CreateWebhook_cases input w) as [Hsame | (Hv & now & x & Hc)];
      [rewrite Hsame; exact Hadm|].
    unfold create_webhook in Hc.
    destruct (is_webhook_status _); cbn [negb] in Hc; [|discriminate].
    injection Hc as _ Hd. rewrite <- Hd. cbn [webhooks].
    apply Forall_app. split; [exact Hadm|].
    constructor; [|constructor]. cbn [Webhook.Events].
    rewrite (proj2 (defaults_Events input)). apply validate_events, Hv.
  - destruct (UpdateWebhook_cases id input w) as [Hsame | (Hv & now & n & Hc)];
      [rewrite Hsame; exact Hadm|].
    unfold update_webhook in Hc.
    destruct (is_webhook_status _); cbn [negb] in Hc; [|discriminate].
    injection Hc as _ Hd. rewrite <- Hd. cbn [webhooks].
    rewrite Forall_forall in *. intros r Hin. apply in_map_iff in Hin.
    destruct Hin as (r0 & <- & Hin0). unfold update_webhook_row.
    destruct (Webhook.ID r0 =? id); [|apply Hadm, Hin0].
    cbn [Webhook.Events]. rewrite (proj1 (defaults_Events input)).
    apply validate_events, Hv.
Qed.

Lemma admission_keeps_events_admitted_witness :
  let w := example_world 0 3 [] [] in
  events_admitted (db (snd (@Core.CreateWebhook ExampleRuntime (example_input 0) w))) /\
  events_admitted (db (snd (Core.UpdateWebhook 1 (example_input 0) w))).
Proof.
  apply (@admission_keeps_events_admitted ExampleRuntime 1 (example_input 0)
           (example_world 0 3 [] [])).
  unfold events_admitted. cbn. repeat constructor.
Defined.

(** ** The test handler *)

Lemma test_event_matches_none (d : DB) :
  events_admitted d -> matching "webhook.test" d = [].
Proof.
  unfold events_admitted, matching. intros Hadm.
  induction (webhooks d) as [|wh whs IH]; [reflexivity|].
  inversion Hadm as [|? ? Hwh Hrest]; subst. cbn [filter].
  rewrite (IH Hrest).
  assert (Hno : webhook_matches "webhook.test" wh = false); [|rewrite Hno; reflexivity].
  unfold webhook_matches. apply andb_false_iff. right.
  destruct (mem_string "webhook.test" (Webhook.Events wh)) eqn:Hm; [|reflexivity].
  apply mem_string_In in Hm. rewrite forallb_forall in Hwh.
  specialize (Hwh _ Hm). vm_compute in Hwh. discriminate.
Qed.

(** X21: the test handler triggers the event ["webhook.test"], which is
    not among [AllWebhookEvents]: as long as every stored webhook has only
    admitted events, no webhook matches it, so a test queues no delivery
    and sends nothing, also when it answers with success. *)
Theorem TestWebhook_queues_nothing `{Runtime} (testData : Z -> string -> any) (id : Z)
    (w : World) :
  events_admitted (db w) ->
  db (snd (App.TestWebhook testData id w)) = db w /\
  sent (snd (App.TestWebhook testData id w)) = sent w.
Proof.
  intros Hadm. unfold App.TestWebhook, bind.
  pose proof (GetWebhook_db id w) as Hdb.
  assert (Hsent : sent (snd (Core.GetWebhook id w)) = sent w).
  { unfold Core.GetWebhook, Core.GetWebhooks, bind, Queries.GetWebhooks.
    match goal with |- context [db_run ?s ?f w] =>
      destruct (db_run_frame s f w) as (Hs & _);
      destruct (db_run s f w) as [r w1] end.
    cbn [snd] in Hs. rewrite <- Hs.
    destruct r as [e|out]; [reflexivity|].
    cbn. destruct (map Core.mask_secrets out); reflexivity. }
  destruct (Core.GetWebhook id w) as [[err|wh] w1]; cbn [snd] in Hdb, Hsent.
  - split; assumption.
  - set (data := testData (Webhook.ID wh) (Webhook.Name wh)).
    assert (Hm : matching "webhook.test" (db w1) = [])
      by (apply test_event_matches_none; rewrite Hdb; exact Hadm).
    assert (Ht : db (snd (Trigger "webhook.test" data w1)) = db w1 /\
                 sent (snd (Trigger "webhook.test" data w1)) = sent w1).
    { split;
        [|apply (Trigger_keeps (fun _ => True) "webhook.test" data w1
                   (fun _ _ _ _ _ _ _ _ _ => I) I)].
      destruct (next_fault w1) as [e|] eqn:Hf.
      - apply (Trigger_select_rejected _ _ _ _ Hf).
      - apply (Trigger_none_found _ _ _ Hf Hm). }
    destruct (Trigger "webhook.test" data w1) as [[e|] w2]; cbn [snd] in Ht;
      destruct Ht as [Hd2 Hs2]; unfold ret; cbn [snd]; split; congruence.
Qed.

Lemma TestWebhook_queues_nothing_witness :
  let w := example_world 0 3 [] [] in
  db (snd (@App.TestWebhook ExampleRuntime (fun _ _ => example_data) 1 w)) = db w /\
  sent (snd (@App.TestWebhook ExampleRuntime (fun _ _ => example_data) 1 w)) = sent w.
Proof.
  apply (@TestWebhook_queues_nothing ExampleRuntime (fun _ _ => example_data) 1
           (example_world 0 3 [] [])).
  unfold events_admitted. cbn. repeat constructor.
Defined.

(** The test of the stored webhook answers with success, and the log
    table is as before. *)
Example scenario_test_webhook :
  let w := example_world 0 3 [] [] in
  fst (@App.TestWebhook ExampleRuntime (fun _ _ => example_data) 1 w) = inr true /\
  log_summary (snd (@App.TestWebhook ExampleRuntime (fun _ _ => example_data) 1 w))
  = log_summary w.
Proof. split; vm_compute; reflexivity. Qed.

(** ** What admission stores *)

Lemma coerce_fields (w : Webhook.t) :
  let c := Core.coerce_auth_type w in
  Webhook.Name c = Webhook.Name w /\ Webhook.URL c = Webhook.URL w /\
  Webhook.AuthBasicUser c = Webhook.AuthBasicUser w /\
  Webhook.AuthBasicPass c = Webhook.AuthBasicPass w /\
  Webhook.AuthHMACSecret c = Webhook.AuthHMACSecret w /\
  Webhook.RetryInterval c = Webhook.RetryInterval w /\
  Webhook.Timeout c = Webhook.Timeout w /\
  Webhook.AuthType c =
    if negb (String.eqb (Webhook.AuthType w) WebhookAuthTypeNone)
       && negb (String.eqb (Webhook.AuthType w) WebhookAuthTypeBasic)
       && negb (String.eqb (Webhook.AuthType w) WebhookAuthTypeHMAC)
    then WebhookAuthTypeNone else Webhook.AuthType w.
Proof.
  destruct w. unfold Core.coerce_auth_type. webhook_fields. cbv zeta.
  split_defaults; repeat split; reflexivity.
Qed.

Lemma defaults_fields (w : Webhook.t) :
  let i := Core.set_defaults w in
  Webhook.Name i = Webhook.Name w /\ Webhook.URL i = Webhook.URL w /\
  Webhook.AuthBasicUser i = Webhook.AuthBasicUser w /\
  Webhook.AuthBasicPass i = Webhook.AuthBasicPass w /\
  Webhook.AuthHMACSecret i = Webhook.AuthHMACSecret w /\
  Webhook.AuthType i = Webhook.AuthType w /\
  Webhook.RetryInterval i =
    (if String.eqb (Webhook.RetryInterval w) EmptyString then "30s"
     else Webhook.RetryInterval w) /\
  Webhook.Timeout i =
    (if String.eqb (Webhook.Timeout w) EmptyString then "30s" else Webhook.Timeout w).
Proof.
  destruct w. unfold Core.set_defaults. webhook_fields. cbv zeta.
  split_defaults; repeat split; reflexivity.
Qed.

Lemma auth_type_known (t : string) :
  let c := if negb (String.eqb t WebhookAuthTypeNone)
              && negb (String.eqb t WebhookAuthTypeBasic)
              && negb (String.eqb t WebhookAuthTypeHMAC)
           then WebhookAuthTypeNone else t in
  (c = WebhookAuthTypeNone \/ c = WebhookAuthTypeBasic \/ c = WebhookAuthTypeHMAC) /\
  (t = WebhookAuthTypeNone \/ t = WebhookAuthTypeBasic \/ t = WebhookAuthTypeHMAC -> c = t).
Proof.
  cbv zeta.
  destruct (String.eqb_spec t WebhookAuthTypeNone) as [->|Hn]; cbn [negb andb].
  { split; [left; reflexivity | reflexivity]. }
  destruct (String.eqb_spec t WebhookAuthTypeBasic) as [->|Hb]; cbn [negb andb].
  { split; [right; left; reflexivity | reflexivity]. }
  destruct (String.eqb_spec t WebhookAuthTypeHMAC) as [->|Hh]; cbn [negb andb].
  { split; [right; right; reflexivity | reflexivity]. }
  split; [left; reflexivity|]. intros [H|[H|H]]; congruence.
Qed.

Lemma CreateWebhook_row `{Runtime} (input : Webhook.t) (w : World) :
  Core.validate input = None ->
  next_fault w = None ->
  Webhook.Status input = EmptyString \/ is_webhook_status (Webhook.Status input) = true ->
  let i := Core.set_defaults (Core.coerce_auth_type input) in
  let id := webhooks_id_seq (db w) + 1 in
  let now := clock w + next_tick w in
  webhooks (db (snd (Core.CreateWebhook input w))) = webhooks (db w) ++
    [Webhook.mk id (gen_random_uuid id) (Webhook.Name i) (Webhook.URL i) (Webhook.Status i)
       (Webhook.Events i) (Webhook.AuthType i) (Webhook.AuthBasicUser i)
       (Webhook.AuthBasicPass i) (Webhook.AuthHMACSecret i) (Webhook.MaxRetries i)
       (Webhook.RetryInterval i) (Webhook.Timeout i) now now] /\
  webhooks_id_seq (db (snd (Core.CreateWebhook input w))) = id /\
  webhook_logs (db (snd (Core.CreateWebhook input w))) = webhook_logs (db w).
Proof.
  intros Hval Hf Hs. cbv zeta.
  pose proof (defaults_status_valid input Hs) as Hst.
  unfold Core.CreateWebhook. rewrite Hval.
  unfold bind, Queries.CreateWebhook, db_run, time_Now, create_webhook.
  unfold next_fault in *.
  cbn [db clock ticks faults responses sent issued out].
  rewrite Hf, Hst. cbn [negb].
  rewrite GetWebhook_db. cbn [db webhooks webhooks_id_seq webhook_logs].
  repeat split; reflexivity.
Qed.

(** X22: what [CreateWebhook] stores for an admitted webhook: a new row
    with the next id of the sequence and a generated uuid; name, URL and
    the credentials as given (the secrets in clear); an authentication
    mode that is one of [none], [basic], [hmac] (the given one when it is
    one of them, [none] otherwise); and [enabled], ["30s"], ["30s"] for a
    status, retry interval or timeout given empty. *)
Theorem CreateWebhook_stores `{Runtime} (input : Webhook.t) (w : World) :
  Core.validate input = None ->
  next_fault w = None ->
  Webhook.Status input = EmptyString \/ is_webhook_status (Webhook.Status input) = true ->
  exists row,
    webhooks (db (snd (Core.CreateWebhook input w))) = webhooks (db w) ++ [row] /\
    Webhook.ID row = webhooks_id_seq (db w) + 1 /\
    webhooks_id_seq (db (snd (Core.CreateWebhook input w))) = webhooks_id_seq (db w) + 1 /\
    Webhook.UUID row = gen_random_uuid (webhooks_id_seq (db w) + 1) /\
    Webhook.Name row = Webhook.Name input /\
    Webhook.URL row = Webhook.URL input /\
    Webhook.Events row = Webhook.Events input /\
    Webhook.AuthBasicUser row = Webhook.AuthBasicUser input /\
    Webhook.AuthBasicPass row = Webhook.AuthBasicPass input /\
    Webhook.AuthHMACSecret row = Webhook.AuthHMACSecret input /\
    (Webhook.AuthType row = WebhookAuthTypeNone \/
     Webhook.AuthType row = WebhookAuthTypeBasic \/
     Webhook.AuthType row = WebhookAuthTypeHMAC) /\
    (Webhook.AuthType input = WebhookAuthTypeNone \/
     Webhook.AuthType input = WebhookAuthTypeBasic \/
     Webhook.AuthType input = WebhookAuthTypeHMAC ->
     Webhook.AuthType row = Webhook.AuthType input) /\
    Webhook.Status row = (if String.eqb (Webhook.Status input) EmptyString
                          then WebhookStatusEnabled else Webhook.Status input) /\
    Webhook.RetryInterval row = (if String.eqb (Webhook.RetryInterval input) EmptyString
                                 then "30s" else Webhook.RetryInterval input) /\
    Webhook.Timeout row = (if String.eqb (Webhook.Timeout input) EmptyString
                           then "30s" else Webhook.Timeout input).
Proof.
  intros Hval Hf Hs.
  destruct (CreateWebhook_row input w Hval Hf Hs) as (Hrows & Hseq & _).
  cbv zeta in Hrows, Hseq.
  eexists. split; [exact Hrows|]. cbn [Webhook.ID Webhook.UUID Webhook.Name Webhook.URL
    Webhook.Events Webhook.AuthBasicUser Webhook.AuthBasicPass Webhook.AuthHMACSecret
    Webhook.AuthType Webhook.Status Webhook.RetryInterval Webhook.Timeout].
  pose proof (defaults_fields (Core.coerce_auth_type input)) as Hd. cbv zeta in Hd.
  destruct Hd as (D1 & D2 & D3 & D4 & D5 & D6 & D7 & D8).
  pose proof (coerce_fields input) as Hc. cbv zeta in Hc.
  destruct Hc as (C1 & C2 & C3 & C4 & C5 & C6 & C7 & C8).
  pose proof (auth_type_known (Webhook.AuthType input)) as Hk. cbv zeta in Hk.
  rewrite <- C8, <- D6 in Hk. destruct Hk as [Hk1 Hk2].
  rewrite D1, D2, D3, D4, D5, D7, D8, C1, C2, C3, C4, C5, C6, C7.
  rewrite (proj2 (defaults_Events input)), defaults_Status.
  repeat split; try reflexivity; assumption.
Qed.

Lemma CreateWebhook_stores_witness :
  let w := example_world 0 3 [] [] in
  let input := Webhook.mk 0 EmptyString "hook" "http://r/ok" EmptyString
                 ["subscriber.created"] "oauth" "u" "p" "k" 5 EmptyString EmptyString 0 0 in
  exists row,
    webhooks (db (snd (@Core.CreateWebhook ExampleRuntime input w)))
    = webhooks (db w) ++ [row] /\
    Webhook.ID row = webhooks_id_seq (db w) + 1 /\
    webhooks_id_seq (db (snd (@Core.CreateWebhook ExampleRuntime input w)))
    = webhooks_id_seq (db w) + 1 /\
    Webhook.UUID row = @gen_random_uuid ExampleRuntime (webhooks_id_seq (db w) + 1) /\
    Webhook.Name row = Webhook.Name input /\
    Webhook.URL row = Webhook.URL input /\
    Webhook.Events row = Webhook.Events input /\
    Webhook.AuthBasicUser row = Webhook.AuthBasicUser input /\
    Webhook.AuthBasicPass row = Webhook.AuthBasicPass input /\
    Webhook.AuthHMACSecret row = Webhook.AuthHMACSecret input /\
    (Webhook.AuthType row = WebhookAuthTypeNone \/
     Webhook.AuthType row = WebhookAuthTypeBasic \/
     Webhook.AuthType row = WebhookAuthTypeHMAC) /\
    (Webhook.AuthType input = WebhookAuthTypeNone \/
     Webhook.AuthType input = WebhookAuthTypeBasic \/
     Webhook.AuthType input = WebhookAuthTypeHMAC ->
     Webhook.AuthType row = Webhook.AuthType input) /\
    Webhook.Status row = (if String.eqb (Webhook.Status input) EmptyString
                          then WebhookStatusEnabled else Webhook.Status input) /\
    Webhook.RetryInterval row = (if String.eqb (Webhook.RetryInterval input) EmptyString
                                 then "30s" else Webhook.RetryInterval input) /\
    Webhook.Timeout row = (if String.eqb (Webhook.Timeout input) EmptyString
                           then "30s" else Webhook.Timeout input).
Proof.
  cbv zeta.
  apply (@CreateWebhook_stores ExampleRuntime
           (Webhook.mk 0 EmptyString "hook" "http://r/ok" EmptyString
              ["subscriber.created"] "oauth" "u" "p" "k" 5 EmptyString EmptyString 0 0)
           (example_world 0 3 [] [])).
  - reflexivity.
  - reflexivity.
  - left. reflexivity.
Defined.

(** ** Updates of webhooks *)

Lemma UpdateWebhook_run (id : Z) (input : Webhook.t) (w : World) :
  Core.validate input = None ->
  next_fault w = None ->
  let c := Core.coerce_auth_type input in
  let w1 d' := mkWorld d' (clock w + next_tick w) (tl (ticks w)) (tl (faults w))
                 (responses w) (sent w) (issued w ++ [UpdateWebhookStmt id c]) (out w) in
  Core.UpdateWebhook id input w =
  match update_webhook id c (clock w + next_tick w) (db w) with
  | inl err =>
      (inl (NewHTTPError StatusInternalServerError "globals.messages.errorUpdating"
              ["name"; "{globals.terms.webhook}"; "error"; err]),
       snd (log_Printf ("error updating webhook: " +++ err) (w1 (db w))))
  | inr (n, d') =>
      if n =? 0 then
        (inl (NewHTTPError StatusBadRequest "globals.messages.notFound"
                ["name"; "{globals.terms.webhook}"]), w1 d')
      else Core.GetWebhook id (w1 d')
  end.
Proof.
  intros Hval Hf. cbv zeta.
  unfold Core.UpdateWebhook. rewrite Hval.
  unfold bind, Queries.UpdateWebhook, db_run, time_Now.
  unfold next_fault in *.
  cbn [db clock ticks faults responses sent issued out].
  rewrite Hf.
  destruct (update_webhook id (Core.coerce_auth_type input) (clock w + next_tick w) (db w))
    as [err|[n d']]; [reflexivity|].
  destruct (n =? 0); reflexivity.
Qed.

(** X23: an update of an admitted webhook rewrites the row with the given
    id and no other: the row keeps its id, uuid and creation time; it
    takes name, URL, status, events, retry settings and timeout as given
    (nothing is defaulted, an empty timeout is stored empty); and a secret
    given empty leaves the stored secret in place, while a secret given
    non-empty replaces it. *)
Theorem UpdateWebhook_rewrites_one_row (id : Z) (input : Webhook.t) (w : World) :
  Core.validate input = None ->
  next_fault w = None ->
  is_webhook_status (Webhook.Status input) = true ->
  exists f,
    webhooks (db (snd (Core.UpdateWebhook id input w))) = map f (webhooks (db w)) /\
    forall r,
      (Webhook.ID r <> id -> f r = r) /\
      (Webhook.ID r = id ->
       Webhook.ID (f r) = id /\
       Webhook.UUID (f r) = Webhook.UUID r /\
       Webhook.CreatedAt (f r) = Webhook.CreatedAt r /\
       Webhook.UpdatedAt (f r) = clock w + next_tick w /\
       Webhook.Name (f r) = Webhook.Name input /\
       Webhook.URL (f r) = Webhook.URL input /\
       Webhook.Status (f r) = Webhook.Status input /\
       Webhook.Events (f r) = Webhook.Events input /\
       Webhook.RetryInterval (f r) = Webhook.RetryInterval input /\
       Webhook.Timeout (f r) = Webhook.Timeout input /\
       Webhook.AuthBasicUser (f r) = Webhook.AuthBasicUser input /\
       Webhook.AuthBasicPass (f r) =
         (if String.eqb (Webhook.AuthBasicPass input) EmptyString
          then Webhook.AuthBasicPass r else Webhook.AuthBasicPass input) /\
       Webhook.AuthHMACSecret (f r) =
         (if String.eqb (Webhook.AuthHMACSecret input) EmptyString
          then Webhook.AuthHMACSecret r else Webhook.AuthHMACSecret input)).
Proof.
  intros Hval Hf Hs.
  exists (update_webhook_row id (Core.coerce_auth_type input) (clock w + next_tick w)).
  split; [apply UpdateWebhook_db; assumption|].
  intros r. unfold update_webhook_row. split.
  - intros Hne. apply Z.eqb_neq in Hne. rewrite Hne. reflexivity.
  - intros He. pose proof He as Heb. apply Z.eqb_eq in Heb. rewrite Heb.
    pose proof (coerce_fields input) as Hc. cbv zeta in Hc.
    destruct Hc as (C1 & C2 & C3 & C4 & C5 & C6 & C7 & _).
    destruct (coerce_MaxRetries input) as [_ Cs].
    cbn [Webhook.ID Webhook.UUID Webhook.Name Webhook.URL Webhook.Events
         Webhook.AuthBasicUser Webhook.AuthBasicPass Webhook.AuthHMACSecret
         Webhook.Status Webhook.RetryInterval Webhook.Timeout Webhook.CreatedAt
         Webhook.UpdatedAt].
    rewrite C1, C2, C3, C4, C5, C6, C7, Cs, (proj1 (defaults_Events input)).
    repeat split; try reflexivity. exact He.
Qed.

Lemma UpdateWebhook_rewrites_one_row_witness :
  let w := example_world 0 3 [] [] in
  let input := example_input 0 in
  exists f,
    webhooks (db (snd (Core.UpdateWebhook 1 input w))) = map f (webhooks (db w)) /\
    forall r,
      (Webhook.ID r <> 1 -> f r = r) /\
      (Webhook.ID r = 1 ->
       Webhook.ID (f r) = 1 /\
       Webhook.UUID (f r) = Webhook.UUID r /\
       Webhook.CreatedAt (f r) = Webhook.CreatedAt r /\
       Webhook.UpdatedAt (f r) = clock w + next_tick w /\
       Webhook.Name (f r) = Webhook.Name input /\
       Webhook.URL (f r) = Webhook.URL input /\
       Webhook.Status (f r) = Webhook.Status input /\
       Webhook.Events (f r) = Webhook.Events input /\
       Webhook.RetryInterval (f r) = Webhook.RetryInterval input /\
       Webhook.Timeout (f r) = Webhook.Timeout input /\
       Webhook.AuthBasicUser (f r) = Webhook.AuthBasicUser input /\
       Webhook.AuthBasicPass (f r) =
         (if String.eqb (Webhook.AuthBasicPass input) EmptyString
          then Webhook.AuthBasicPass r else Webhook.AuthBasicPass input) /\
       Webhook.AuthHMACSecret (f r) =
         (if String.eqb (Webhook.AuthHMACSecret input) EmptyString
          then Webhook.AuthHMACSecret r else Webhook.AuthHMACSecret input)).
Proof.
  apply (UpdateWebhook_rewrites_one_row 1 (example_input 0) (example_world 0 3 [] []));
    reflexivity.
Defined.

Lemma map_id_on {A} (f : A -> A) (l : list A) :
  (forall x, In x l -> f x = x) -> map f l = l.
Proof.
  induction l as [|x l IH]; intros Hf; [reflexivity|].
  cbn [map]. rewrite Hf by (left; reflexivity).
  rewrite IH; [reflexivity|]. intros y Hy. apply Hf. right. exact Hy.
Qed.

(** X24: an update that names an id no stored webhook has is answered
    with the 400 "not found", and both tables are as before. *)
Theorem UpdateWebhook_unknown_id (id : Z) (input : Webhook.t) (w : World) :
  Core.validate input = None ->
  next_fault w = None ->
  is_webhook_status (Webhook.Status input) = true ->
  (forall r, In r (webhooks (db w)) -> Webhook.ID r <> id) ->
  fst (Core.UpdateWebhook id input w)
    = inl (NewHTTPError 400 "globals.messages.notFound" ["name"; "{globals.terms.webhook}"]) /\
  webhooks (db (snd (Core.UpdateWebhook id input w))) = webhooks (db w) /\
  webhook_logs (db (snd (Core.UpdateWebhook id input w))) = webhook_logs (db w).
Proof.
  intros Hval Hf Hs Hnone.
  assert (Hst : is_webhook_status (Webhook.Status (Core.coerce_auth_type input)) = true)
    by (rewrite (proj2 (coerce_MaxRetries input)); exact Hs).
  rewrite (UpdateWebhook_run id input w Hval Hf). cbv zeta.
  unfold update_webhook. rewrite Hst. cbn [negb].
  assert (Hfil : filter (fun r => Webhook.ID r =? id) (webhooks (db w)) = []).
  { induction (webhooks (db w)) as [|x l IH]; [reflexivity|]. cbn [filter].
    assert (Hx : (Webhook.ID x =? id) = false)
      by (apply Z.eqb_neq, Hnone; left; reflexivity).
    rewrite Hx. apply IH. intros r Hr. apply Hnone. right. exact Hr. }
  rewrite Hfil. cbn [List.length Z.of_nat Z.eqb fst snd db webhooks webhook_logs].
  split; [reflexivity|]. split; [|reflexivity].
  apply map_id_on. intros x Hx. unfold update_webhook_row.
  assert (Hxe : (Webhook.ID x =? id) = false) by (apply Z.eqb_neq, Hnone, Hx).
  rewrite Hxe. reflexivity.
Qed.

Lemma UpdateWebhook_unknown_id_witness :
  let w := example_world 0 3 [] [] in
  fst (Core.UpdateWebhook 7 (example_input 0) w)
    = inl (NewHTTPError 400 "globals.messages.notFound" ["name"; "{globals.terms.webhook}"]) /\
  webhooks (db (snd (Core.UpdateWebhook 7 (example_input 0) w))) = webhooks (db w) /\
  webhook_logs (db (snd (Core.UpdateWebhook 7 (example_input 0) w))) = webhook_logs (db w).
Proof.
  apply (UpdateWebhook_unknown_id 7 (example_input 0) (example_world 0 3 [] []));
    try reflexivity.
  intros r [<-|[]]. cbn. discriminate.
Defined.

(** X25: [UpdateWebhook] sets no default status: a status that is not a
    value of [webhook_status], the empty one included, is refused by the
    database; the answer is the 500 "error updating", one line is logged
    and the tables are as before. *)
Theorem UpdateWebhook_invalid_status (id : Z) (input : Webhook.t) (w : World) :
  Core.validate input = None ->
  next_fault w = None ->
  is_webhook_status (Webhook.Status input) = false ->
  exists err,
    fst (Core.UpdateWebhook id input w)
      = inl (NewHTTPError 500 "globals.messages.errorUpdating"
               ["name"; "{globals.terms.webhook}"; "error"; err]) /\
    db (snd (Core.UpdateWebhook id input w)) = db w /\
    out (snd (Core.UpdateWebhook id input w)) = out w ++ ["error updating webhook: " +++ err].
Proof.
  intros Hval Hf Hs.
  assert (Hst : is_webhook_status (Webhook.Status (Core.coerce_auth_type input)) = false)
    by (rewrite (proj2 (coerce_MaxRetries input)); exact Hs).
  rewrite (UpdateWebhook_run id input w Hval Hf). cbv zeta.
  unfold update_webhook. rewrite Hst. cbn [negb].
  eexists. repeat split; reflexivity.
Qed.

Lemma UpdateWebhook_invalid_status_witness :
  let w := example_world 0 3 [] [] in
  let input := Webhook.with_Status EmptyString (example_input 3) in
  exists err,
    fst (Core.UpdateWebhook 1 input w)
      = inl (NewHTTPError 500 "globals.messages.errorUpdating"
               ["name"; "{globals.terms.webhook}"; "error"; err]) /\
    db (snd (Core.UpdateWebhook 1 input w)) = db w /\
    out (snd (Core.UpdateWebhook 1 input w)) = out w ++ ["error updating webhook: " +++ err].
Proof.
  apply (UpdateWebhook_invalid_status 1 (Webhook.with_Status EmptyString (example_input 3))
           (example_world 0 3 [] [])); reflexivity.
Defined.

(** ** Reading webhooks *)

Lemma GetWebhooks_run (id : Z) (w : World) :
  next_fault w = None ->
  Core.GetWebhooks id w =
  (inr (map Core.mask_secrets
          (rev (order_by Webhook.CreatedAt
                  (filter (fun r => (id =? 0) || (Webhook.ID r =? id)) (webhooks (db w)))))),
   after_statement (GetWebhooksStmt id) w).
Proof.
  intros Hf. unfold Core.GetWebhooks, bind, Queries.GetWebhooks, db_run, time_Now,
    get_webhooks, after_statement.
  unfold next_fault in *. cbn [db clock ticks faults responses sent issued out].
  rewrite Hf. reflexivity.
Qed.

Lemma mask_secrets_fields (r : Webhook.t) :
  let m := Core.mask_secrets r in
  Webhook.ID m = Webhook.ID r /\ Webhook.UUID m = Webhook.UUID r /\
  Webhook.Name m = Webhook.Name r /\ Webhook.URL m = Webhook.URL r /\
  Webhook.Status m = Webhook.Status r /\ Webhook.Events m = Webhook.Events r /\
  Webhook.AuthType m = Webhook.AuthType r /\
  Webhook.AuthBasicUser m = Webhook.AuthBasicUser r /\
  Webhook.MaxRetries m = Webhook.MaxRetries r /\
  Webhook.AuthBasicPass m = shown_secret (Webhook.AuthBasicPass r) /\
  Webhook.AuthHMACSecret m = shown_secret (Webhook.AuthHMACSecret r).
Proof.
  destruct r. unfold Core.mask_secrets, shown_secret, Webhook.with_AuthBasicPass,
    Webhook.with_AuthHMACSecret.
  cbn [Webhook.ID Webhook.UUID Webhook.Name Webhook.URL Webhook.Status Webhook.Events
       Webhook.AuthType Webhook.AuthBasicUser Webhook.AuthBasicPass Webhook.AuthHMACSecret
       Webhook.MaxRetries Webhook.RetryInterval Webhook.Timeout Webhook.CreatedAt
       Webhook.UpdatedAt].
  cbv zeta.
  destruct (String.eqb AuthBasicPass EmptyString) eqn:Hp; cbn [negb];
    cbn [Webhook.ID Webhook.UUID Webhook.Name Webhook.URL Webhook.Status Webhook.Events
         Webhook.AuthType Webhook.AuthBasicUser Webhook.AuthBasicPass Webhook.AuthHMACSecret
         Webhook.MaxRetries];
    destruct (String.eqb AuthHMACSecret EmptyString) eqn:Hh; cbn [negb];
    cbn [Webhook.ID Webhook.UUID Webhook.Name Webhook.URL Webhook.Status Webhook.Events
         Webhook.AuthType Webhook.AuthBasicUser Webhook.AuthBasicPass Webhook.AuthHMACSecret
         Webhook.MaxRetries];
    repeat split; try reflexivity;
    try (apply String.eqb_eq in Hp; exact Hp);
    try (apply String.eqb_eq in Hh; exact Hh).
Qed.

(** X26: [GetWebhooks] answers with the stored webhooks (all of them for
    id 0, else those with the id) with each secret replaced: an empty
    secret is shown empty, any other as eight bullets, so the answer
    holds nothing else in the place of a secret; id, name, URL,
    authentication mode and user are shown as stored, and the table keeps
    the real secrets. *)
Theorem GetWebhooks_masks_secrets (id : Z) (w : World) :
  next_fault w = None ->
  exists rows,
    fst (Core.GetWebhooks id w) = inr (map Core.mask_secrets rows) /\
    (forall r, In r rows <-> In r (webhooks (db w)) /\ (id = 0 \/ Webhook.ID r = id)) /\
    db (snd (Core.GetWebhooks id w)) = db w /\
    forall r,
      let m := Core.mask_secrets r in
      Webhook.ID m = Webhook.ID r /\ Webhook.Name m = Webhook.Name r /\
      Webhook.URL m = Webhook.URL r /\ Webhook.AuthType m = Webhook.AuthType r /\
      Webhook.AuthBasicUser m = Webhook.AuthBasicUser r /\
      (Webhook.AuthBasicPass m = EmptyString <-> Webhook.AuthBasicPass r = EmptyString) /\
      (Webhook.AuthHMACSecret m = EmptyString <-> Webhook.AuthHMACSecret r = EmptyString) /\
      (Webhook.AuthBasicPass m = EmptyString \/ Webhook.AuthBasicPass m = mask) /\
      (Webhook.AuthHMACSecret m = EmptyString \/ Webhook.AuthHMACSecret m = mask).
Proof.
  intros Hf. rewrite (GetWebhooks_run id w Hf). cbn [fst snd].
  eexists. split; [reflexivity|]. split; [|split; [reflexivity|]].
  - intros r. rewrite <- in_rev, order_by_In, filter_In.
    rewrite orb_true_iff, !Z.eqb_eq. reflexivity.
  - intros r. cbv zeta.
    destruct (mask_secrets_fields r)
      as (F1 & _ & F3 & F4 & _ & _ & F7 & F8 & _ & F10 & F11).
    rewrite F1, F3, F4, F7, F8, F10, F11. unfold shown_secret.
    repeat split; try reflexivity.
    + destruct (String.eqb_spec (Webhook.AuthBasicPass r) EmptyString);
        [trivial | intros Hm; vm_compute in Hm; discriminate].
    + intros ->. reflexivity.
    + destruct (String.eqb_spec (Webhook.AuthHMACSecret r) EmptyString);
        [trivial | intros Hm; vm_compute in Hm; discriminate].
    + intros ->. reflexivity.
    + destruct (String.eqb (Webhook.AuthBasicPass r) EmptyString); [left | right];
        reflexivity.
    + destruct (String.eqb (Webhook.AuthHMACSecret r) EmptyString); [left | right];
        reflexivity.
Qed.

Lemma GetWebhooks_masks_secrets_witness :
  let w := example_world 0 3 [] [] in
  exists rows,
    fst (Core.GetWebhooks 0 w) = inr (map Core.mask_secrets rows) /\
    (forall r, In r rows <-> In r (webhooks (db w)) /\ (0 = 0 \/ Webhook.ID r = 0)) /\
    db (snd (Core.GetWebhooks 0 w)) = db w /\
    forall r,
      let m := Core.mask_secrets r in
      Webhook.ID m = Webhook.ID r /\ Webhook.Name m = Webhook.Name r /\
      Webhook.URL m = Webhook.URL r /\ Webhook.AuthType m = Webhook.AuthType r /\
      Webhook.AuthBasicUser m = Webhook.AuthBasicUser r /\
      (Webhook.AuthBasicPass m = EmptyString <-> Webhook.AuthBasicPass r = EmptyString) /\
      (Webhook.AuthHMACSecret m = EmptyString <-> Webhook.AuthHMACSecret r = EmptyString) /\
      (Webhook.AuthBasicPass m = EmptyString \/ Webhook.AuthBasicPass m = mask) /\
      (Webhook.AuthHMACSecret m = EmptyString \/ Webhook.AuthHMACSecret m = mask).
Proof.
  apply (GetWebhooks_masks_secrets 0 (example_world 0 3 [] [])). reflexivity.
Defined.

Lemma rev_order_by_head {A} (key : A -> Z) (l : list A) (x : A) (t : list A) :
  rev (order_by key l) = x :: t ->
  In x l /\ forall y, In y l -> key y <= key x.
Proof.
  intros Hrev.
  assert (Hin : In x (order_by key l))
    by (apply in_rev; rewrite Hrev; left; reflexivity).
  split; [apply (proj1 (order_by_In key l x)), Hin|].
  intros y Hy. apply (proj2 (order_by_In key l y)) in Hy.
  pose proof (order_by_sorted key l) as Hs.
  assert (Hl : order_by key l = rev t ++ [x]).
  { rewrite <- (rev_involutive (order_by key l)), Hrev. reflexivity. }
  rewrite Hl in Hs, Hy. clear Hl Hrev Hin.
  induction (rev t) as [|z zs IH]; cbn [app] in *.
  - destruct Hy as [->|[]]. lia.
  - inversion Hs as [|? ? Hs' Hall]; subst.
    destruct Hy as [->|Hy]; [|apply IH; assumption].
    rewrite Forall_forall in Hall. apply Hall. apply in_or_app. right. left. reflexivity.
Qed.

Lemma GetWebhook_cases (id : Z) (w : World) :
  next_fault w = None ->
  ((forall r, In r (webhooks (db w)) -> ~ (id = 0 \/ Webhook.ID r = id)) ->
   fst (Core.GetWebhook id w)
   = inl (NewHTTPError 400 "globals.messages.notFound" ["name"; "{globals.terms.webhook}"]))
  /\
  ((exists r, In r (webhooks (db w)) /\ (id = 0 \/ Webhook.ID r = id)) ->
   exists r,
     In r (webhooks (db w)) /\ (id = 0 \/ Webhook.ID r = id) /\
     fst (Core.GetWebhook id w) = inr (Core.mask_secrets r) /\
     forall r', In r' (webhooks (db w)) -> (id = 0 \/ Webhook.ID r' = id) ->
                Webhook.CreatedAt r' <= Webhook.CreatedAt r).
Proof.
  intros Hf. unfold Core.GetWebhook, bind. rewrite (GetWebhooks_run id w Hf).
  set (sel := filter (fun r => (id =? 0) || (Webhook.ID r =? id)) (webhooks (db w))).
  assert (Hsel : forall r, In r sel <-> In r (webhooks (db w)) /\ (id = 0 \/ Webhook.ID r = id)).
  { intros r. unfold sel. rewrite filter_In, orb_true_iff, !Z.eqb_eq. reflexivity. }
  destruct (rev (order_by Webhook.CreatedAt sel)) as [|x t] eqn:Hrev; cbn [map fst].
  - split; [intros _; reflexivity|].
    intros (r & Hr & Hid). exfalso.
    assert (Hin : In r (rev (order_by Webhook.CreatedAt sel)))
      by (apply in_rev; rewrite rev_involutive;
          apply (proj2 (order_by_In Webhook.CreatedAt sel r)), Hsel; split; assumption).
    rewrite Hrev in Hin. exact Hin.
  - destruct (rev_order_by_head _ _ _ _ Hrev) as [Hx Hmax].
    apply Hsel in Hx. destruct Hx as [Hx Hxid].
    split.
    + intros Hnone. exfalso. apply (Hnone x Hx Hxid).
    + intros _. exists x. split; [exact Hx|]. split; [exact Hxid|].
      split; [reflexivity|].
      intros r' Hr' Hid'. apply Hmax, Hsel. split; assumption.
Qed.

(** X27: [GetWebhook] answers with the 400 "not found" when the select
    finds no row.  Otherwise it answers with a stored row, secrets masked:
    the row with the id, or, for id 0, which the select reads as "all",
    the most recently created webhook of the table. *)
Theorem GetWebhook_by_id (id : Z) (w : World) :
  next_fault w = None ->
  ((forall r, In r (webhooks (db w)) -> ~ (id = 0 \/ Webhook.ID r = id)) ->
   fst (Core.GetWebhook id w)
   = inl (NewHTTPError 400 "globals.messages.notFound" ["name"; "{globals.terms.webhook}"]))
  /\
  ((exists r, In r (webhooks (db w)) /\ (id = 0 \/ Webhook.ID r = id)) ->
   exists r,
     In r (webhooks (db w)) /\ (id = 0 \/ Webhook.ID r = id) /\
     fst (Core.GetWebhook id w) = inr (Core.mask_secrets r) /\
     forall r', In r' (webhooks (db w)) -> (id = 0 \/ Webhook.ID r' = id) ->
                Webhook.CreatedAt r' <= Webhook.CreatedAt r).
Proof.
  intros Hf. destruct (GetWebhook_cases id w Hf) as [Hnone Hsome].
  split; [exact Hnone | exact Hsome].
Qed.

Lemma GetWebhook_by_id_witness :
  let w := example_world 0 3 [] [] in
  exists r,
    In r (webhooks (db w)) /\ (0 = 0 \/ Webhook.ID r = 0) /\
    fst (Core.GetWebhook 0 w) = inr (Core.mask_secrets r) /\
    forall r', In r' (webhooks (db w)) -> (0 = 0 \/ Webhook.ID r' = 0) ->
               Webhook.CreatedAt r' <= Webhook.CreatedAt r.
Proof.
  cbv zeta.
  apply (proj2 (GetWebhook_by_id 0 (example_world 0 3 [] []) eq_refl)).
  exists (example_webhook 3). split; [left; reflexivity | left; reflexivity].
Defined.

Lemma rejected_none_2 (w : World) :
  rejected_among 2 (faults w) = 0%nat ->
  next_fault w = None /\
  match tl (faults w) with [] => None | x :: _ => x end = None.
Proof.
  unfold next_fault. destruct (faults w) as [|[e|] [|[e'|] fl]]; cbn;
    try discriminate; split; reflexivity.
Qed.

(** X28: when the database accepts the insert and the select after it,
    [CreateWebhook] answers with the row it stored, secrets masked; ids
    come from the sequence, so the select by the new id finds that row
    and no other. *)
Theorem CreateWebhook_returns_stored_row `{Runtime} (input : Webhook.t) (w : World) :
  Core.validate input = None ->
  rejected_among 2 (faults w) = 0%nat ->
  Webhook.Status input = EmptyString \/ is_webhook_status (Webhook.Status input) = true ->
  0 <= webhooks_id_seq (db w) ->
  (forall r, In r (webhooks (db w)) -> Webhook.ID r <= webhooks_id_seq (db w)) ->
  exists row,
    webhooks (db (snd (Core.CreateWebhook input w))) = webhooks (db w) ++ [row] /\
    Webhook.ID row = webhooks_id_seq (db w) + 1 /\
    fst (Core.CreateWebhook input w) = inr (Core.mask_secrets row).
Proof.
  intros Hval Hrej Hs Hseq Hids.
  destruct (rejected_none_2 w Hrej) as [Hf Hf2].
  destruct (CreateWebhook_row input w Hval Hf Hs) as (Hrows & _ & _).
  cbv zeta in Hrows.
  eexists. split; [exact Hrows|]. split; [reflexivity|].
  pose proof (defaults_status_valid input Hs) as Hst.
  unfold Core.CreateWebhook. rewrite Hval.
  unfold bind, Queries.CreateWebhook, db_run, time_Now, create_webhook.
  unfold next_fault in Hf |- *.
  cbn [db clock ticks faults responses sent issued out].
  rewrite Hf, Hst. cbn [negb].
  match goal with |- fst (Core.GetWebhook ?i ?w1) = _ =>
    assert (Hf1 : next_fault w1 = None) by exact Hf2;
    destruct (GetWebhook_cases i w1 Hf1) as [_ Hfound];
    destruct Hfound as (r & Hr & Hid & Hres & _)
  end.
  - eexists. split; [cbn [db webhooks]; apply in_or_app; right; left; reflexivity|].
    right. reflexivity.
  - rewrite Hres. f_equal. f_equal.
    cbn [db webhooks] in Hr. apply in_app_or in Hr.
    destruct Hid as [Hz|Hid]; [lia|].
    destruct Hr as [Hold|[<-|[]]]; [|reflexivity].
    specialize (Hids r Hold). lia.
Qed.

Lemma CreateWebhook_returns_stored_row_witness :
  let w := example_world 0 3 [] [] in
  exists row,
    webhooks (db (snd (@Core.CreateWebhook ExampleRuntime (example_input 0) w)))
    = webhooks (db w) ++ [row] /\
    Webhook.ID row = webhooks_id_seq (db w) + 1 /\
    fst (@Core.CreateWebhook ExampleRuntime (example_input 0) w)
    = inr (Core.mask_secrets row).
Proof.
  apply (@CreateWebhook_returns_stored_row ExampleRuntime (example_input 0)
           (example_world 0 3 [] [])).
  - reflexivity.
  - reflexivity.
  - right. reflexivity.
  - cbn. lia.
  - intros r [<-|[]]. cbn. lia.
Defined.

(** ** The life of the pool *)

(** X29: the stop channel is made once, in [New], and closed by the first
    effective [Close]; no step opens it again.  A manager that was closed
    can therefore not be run again: the workers a later [Run] starts may
    take the stop case at once, and the [Close] after that [Run] closes
    the closed channel and panics. *)
Theorem closed_manager_cannot_restart `{Runtime} (s : Sys) :
  panicked s = false ->
  stopCh_closed s = true ->
  (forall e s', sys_step e s = Some s' -> stopCh_closed s' = true) /\
  (forall g, is_live g (Run s) = true ->
     exists s', sys_step (Select g RecvStop) (Run s) = Some s') /\
  (isRunning s = false ->
     panicked (Close (Run s)) = true /\ forall e, sys_step e (Close (Run s)) = None).
Proof.
  intros Hp Hc. split; [|split].
  - intros e s' Hstep. unfold sys_step, worker in Hstep. rewrite Hp in Hstep.
    destruct e as [| | |g|g [|]].
    + injection Hstep as <-. unfold Run. destruct (isRunning s); exact Hc.
    + injection Hstep as <-. unfold Close.
      destruct (isRunning s); cbn [negb]; [rewrite Hc|]; try reflexivity. exact Hc.
    + destruct (waiting s); [discriminate|]. destruct (workers s); [|discriminate].
      injection Hstep as <-. exact Hc.
    + destruct (is_live g s); [|discriminate]. injection Hstep as <-. exact Hc.
    + destruct (is_live g s && stopCh_closed s); [|discriminate].
      injection Hstep as <-. exact Hc.
    + destruct (has_tick g s); [|discriminate]. injection Hstep as <-. exact Hc.
  - intros g Hl. unfold sys_step, worker.
    assert (Hp' : panicked (Run s) = false)
      by (unfold Run; destruct (isRunning s); exact Hp).
    assert (Hc' : stopCh_closed (Run s) = true)
      by (unfold Run; destruct (isRunning s); exact Hc).
    rewrite Hp', Hl, Hc'. eexists. reflexivity.
  - intros Hr. unfold Run, Close. rewrite Hr. cbn [isRunning negb stopCh_closed].
    rewrite Hc. split; [reflexivity|].
    intros e. unfold sys_step. reflexivity.
Qed.

Lemma closed_manager_cannot_restart_witness :
  let s := example_closed_pool in
  (forall e s', @sys_step ExampleRuntime e s = Some s' -> stopCh_closed s' = true) /\
  (forall g, is_live g (Run s) = true ->
     exists s', @sys_step ExampleRuntime (Select g RecvStop) (Run s) = Some s') /\
  (isRunning s = false ->
     panicked (Close (Run s)) = true /\
     forall e, @sys_step ExampleRuntime e (Close (Run s)) = None).
Proof.
  apply (@closed_manager_cannot_restart ExampleRuntime example_closed_pool);
    vm_compute; reflexivity.
Defined.

Lemma filter_length_lt {A} (p : A -> bool) (l : list A) (x : A) :
  In x l -> p x = false -> (List.length (filter p l) < List.length l)%nat.
Proof.
  induction l as [|y l IH]; cbn [In filter List.length]; [tauto|].
  intros [->|Hin] Hp.
  - rewrite Hp. pose proof (filter_length_le p l). lia.
  - specialize (IH Hin Hp). destruct (p y); cbn [List.length]; lia.
Qed.

Lemma stop_all `{Runtime} (n : nat) :
  forall s : Sys,
  (List.length (workers s) <= n)%nat ->
  panicked s = false ->
  stopCh_closed s = true ->
  exists es s',
    sys_run es s = Some s' /\
    Forall (fun e => exists g, e = Select g RecvStop) es /\
    workers s' = [] /\ world s' = world s /\ waiting s' = waiting s /\
    panicked s' = false.
Proof.
  induction n as [|n IH]; intros s Hlen Hp Hc.
  - exists [], s. destruct (workers s); [|cbn in Hlen; lia].
    repeat split; try reflexivity; try assumption. constructor.
  - destruct (workers s) as [|r rs] eqn:Hw.
    { exists [], s. repeat split; try reflexivity; try assumption. constructor. }
    set (s1 := with_workers (filter (fun x => negb (Nat.eqb (gid x) (gid r))) (workers s)) s).
    assert (Hstep : sys_step (Select (gid r) RecvStop) s = Some s1).
    { unfold sys_step, worker. rewrite Hp, Hc.
      assert (Hl : is_live (gid r) s = true).
      { unfold is_live. rewrite Hw. cbn [existsb]. rewrite Nat.eqb_refl. reflexivity. }
      rewrite Hl. reflexivity. }
    assert (Hlen1 : (List.length (workers s1) <= n)%nat).
    { unfold s1, with_workers. cbn [workers].
      assert (Hlt : (List.length (filter (fun x => negb (Nat.eqb (gid x) (gid r)))
                                    (workers s)) < List.length (workers s))%nat).
      { apply (filter_length_lt _ _ r); [rewrite Hw; left; reflexivity|].
        rewrite Nat.eqb_refl. reflexivity. }
      rewrite Hw in Hlt at 2. cbn [List.length] in *. lia. }
    destruct (IH s1 Hlen1 Hp Hc) as (es & s' & Hrun & Hall & Hnone & Hworld & Hwait & Hp').
    exists (Select (gid r) RecvStop :: es), s'.
    split; [cbn [sys_run]; rewrite Hstep; exact Hrun|].
    split; [constructor; [eexists; reflexivity | exact Hall]|].
    repeat split; assumption.
Qed.

(** X30: shutdown can always complete: from any state in which the stop
    channel is closed there is a schedule, made of stop cases only, after
    which no worker is left; it reads no pending logs, and a [Close] that
    was waiting can then return. *)
Theorem shutdown_can_complete `{Runtime} (s : Sys) :
  panicked s = false ->
  stopCh_closed s = true ->
  exists es s',
    sys_run es s = Some s' /\
    Forall (fun e => exists g, e = Select g RecvStop) es /\
    workers s' = [] /\
    world s' = world s /\
    ((0 < waiting s)%nat -> exists s'', sys_step CloseReturns s' = Some s'').
Proof.
  intros Hp Hc.
  destruct (stop_all (List.length (workers s)) s (le_n _) Hp Hc)
    as (es & s' & Hrun & Hall & Hnone & Hworld & Hwait & Hp').
  exists es, s'. split; [exact Hrun|]. split; [exact Hall|].
  split; [exact Hnone|]. split; [exact Hworld|].
  intros Hw. unfold sys_step. rewrite Hp', Hwait, Hnone.
  destruct (waiting s); [lia|]. eexists. reflexivity.
Qed.

Lemma shutdown_can_complete_witness :
  let s := example_closed_pool in
  exists es s',
    @sys_run ExampleRuntime es s = Some s' /\
    Forall (fun e => exists g, e = Select g RecvStop) es /\
    workers s' = [] /\
    world s' = world s /\
    ((0 < waiting s)%nat -> exists s'', @sys_step ExampleRuntime CloseReturns s' = Some s'').
Proof.
  apply (@shutdown_can_complete ExampleRuntime example_closed_pool);
    vm_compute; reflexivity.
Defined.

(** * The log rows among racing workers *)

(** ** Reads and updates, one statement at a time *)

Lemma GetPendingWebhookLogs_eq (w : World) :
  Queries.GetPendingWebhookLogs 100 w =
  (match next_fault w with Some e => inl e | None => inr (batch_of w) end,
   after_statement (GetPendingWebhookLogsStmt 100) w).
Proof.
  unfold Queries.GetPendingWebhookLogs, db_run, time_Now, batch_of, after_statement,
    get_pending_webhook_logs.
  cbn [db clock ticks faults responses sent issued out].
  unfold next_fault. cbn [faults].
  change (100 <? 0) with false. cbv iota.
  destruct (faults w) as [|[e|] fl]; reflexivity.
Qed.

(** The one update an attempt ends in writes one more than the attempts
    of the copy, and keeps the row pending only within the copy's
    [max_retries]. *)
Lemma deliverWebhook_writes `{Runtime} (l : pendingLog.t) (w : World) :
  exists st code body err next,
    writes w (snd (deliverWebhook l w)) (pendingLog.ID l) st code body err
      (int_add (pendingLog.Attempts l) 1) next /\
    (st = WebhookLogStatusPending ->
     int_add (pendingLog.Attempts l) 1 <= pendingLog.MaxRetries l).
Proof.
  pose proof (deliverWebhook_outcome l w) as Ho. unfold delivery_outcome in Ho.
  assert (Hr : forall code body err,
             retries_or_fails w (snd (deliverWebhook l w)) l code body err ->
             exists st code body err next,
               writes w (snd (deliverWebhook l w)) (pendingLog.ID l) st code body err
                 (int_add (pendingLog.Attempts l) 1) next /\
               (st = WebhookLogStatusPending ->
                int_add (pendingLog.Attempts l) 1 <= pendingLog.MaxRetries l)).
  { intros code body err [Hf Hp].
    destruct (Z_gt_le_dec (int_add (pendingLog.Attempts l) 1) (pendingLog.MaxRetries l))
      as [Hc|Hc].
    - do 5 eexists. split; [apply Hf, Hc | discriminate].
    - destruct (Hp Hc) as (now & _ & Hwr).
      do 5 eexists. split; [exact Hwr | intros _; exact Hc]. }
  destruct (NewRequest_check (pendingLog.URL l)).
  { do 5 eexists. split; [exact Ho | discriminate]. }
  destruct (next_response w) as [e|code body]; [eapply Hr, Ho|].
  destruct ((code >=? 200) && (code <? 300)); [|eapply Hr, Ho].
  do 5 eexists. split; [exact Ho | discriminate].
Qed.




Lemma batch_of_joined (w : World) (l : pendingLog.t) :
  In l (batch_of w) ->
  In (pendingLog.Log l) (webhook_logs (db w)) /\
  WebhookLog.Status (pendingLog.Log l) = WebhookLogStatusPending /\
  exists wh, In wh (webhooks (db w)) /\
             Webhook.ID wh = WebhookLog.WebhookID (pendingLog.Log l) /\
             pendingLog.MaxRetries l = Webhook.MaxRetries wh.
Proof.
  unfold batch_of, get_pending_webhook_logs. change (100 <? 0) with false. cbv iota.
  intros Hin. apply In_firstn in Hin. apply order_by_In in Hin.
  apply filter_In in Hin. destruct Hin as [Hin Hdue].
  apply in_flat_map in Hin. destruct Hin as (r & Hr & Hl).
  unfold join_webhook in Hl. apply in_map_iff in Hl. destruct Hl as (x & <- & Hx).
  apply filter_In in Hx. destruct Hx as [Hx Hid].
  cbn [pendingLog.Log pendingLog.MaxRetries] in *.
  split; [exact Hr|]. split.
  - unfold log_is_due in Hdue. apply andb_prop in Hdue.
    apply String.eqb_eq. apply Hdue.
  - exists x. split; [exact Hx|]. split; [apply Z.eqb_eq, Hid | reflexivity].
Qed.

Lemma log_ids_fresh_update id st code body err a next now (d : DB) :
  log_ids_fresh d -> log_ids_fresh (db_after_update id st code body err a next now d).
Proof.
  intros [Hnd Hle].
  unfold log_ids_fresh, db_after_update. cbn [webhook_logs webhook_logs_id_seq].
  split.
  - rewrite map_map.
    rewrite (map_ext _ WebhookLog.ID
               (fun r => ID_update_log_row id st code body err a next now r)).
    exact Hnd.
  - rewrite Forall_forall in *. intros r Hin. apply in_map_iff in Hin.
    destruct Hin as (r0 & <- & Hin0). rewrite ID_update_log_row. apply Hle, Hin0.
Qed.

Lemma log_ids_fresh_insert wid event url payload status next now d id d' :
  create_webhook_log wid event url payload status next now d = inr (id, d') ->
  log_ids_fresh d -> log_ids_fresh d'.
Proof.
  intros Hc [Hnd Hle].
  apply create_webhook_log_inv in Hc.
  destruct Hc as (Hid & _ & _ & Hseq & _ & Hl).
  unfold log_ids_fresh. rewrite Hl, Hseq, map_app. cbn [map WebhookLog.ID]. split.
  - apply NoDup_snoc; [exact Hnd|].
    intros Hin. apply in_map_iff in Hin. destruct Hin as (r & Hr & Hin).
    rewrite Forall_forall in Hle. specialize (Hle r Hin). lia.
  - apply Forall_app. split.
    + eapply Forall_impl; [|exact Hle]. cbn. intros; lia.
    + constructor; [cbn; lia | constructor].
Qed.

Lemma In_set_held (g g' : nat) (l x : pendingLog.t) (rest : list pendingLog.t)
    (h : nat -> list pendingLog.t) :
  h g = l :: rest -> In x (set_held g rest h g') -> In x (h g').
Proof.
  unfold set_held. intros Hg Hin.
  destruct (Nat.eqb_spec g' g) as [->|_]; [rewrite Hg; right; exact Hin | exact Hin].
Qed.







Lemma UpdateWebhook_tables (id : Z) (input : Webhook.t) (w : World) :
  db (snd (Core.UpdateWebhook id input w)) = db w \/
  exists now,
    db (snd (Core.UpdateWebhook id input w))
    = mkDB (map (update_webhook_row id (Core.coerce_auth_type input) now) (webhooks (db w)))
        (webhook_logs (db w)) (webhooks_id_seq (db w)) (webhook_logs_id_seq (db w)).
Proof.
  destruct (UpdateWebhook_cases id input w) as [Hd | (_ & now & n & Hu)]; [left; exact Hd|].
  right. exists now. unfold update_webhook in Hu.
  destruct (is_webhook_status _); cbn [negb] in Hu; [|discriminate].
  injection Hu as _ <-. reflexivity.
Qed.







(** [processPendingLogs] is the run of one worker that nothing
    interrupts: its read, then one attempt for each row read. *)
Lemma deliveries_in_a_row `{Runtime} (g : nat) (q : list pendingLog.t) (s : Race) :
  held s g = q ->
  exists s',
    race_run (repeat (Deliver g) (List.length q)) s = Some s' /\
    shared s' = snd (for_range q deliverWebhook (shared s)) /\
    held s' g = [].
Proof.
  revert s. induction q as [|l q IH]; intros s Hg.
  - exists s. repeat split; assumption.
  - cbn [List.length repeat race_run race_step]. rewrite Hg.
    set (s1 := mkRace (set_held g q (held s)) (snd (deliverWebhook l (shared s)))).
    destruct (IH s1) as (s' & Hrun & Hw & Hh).
    { unfold s1, set_held. cbn [held]. rewrite Nat.eqb_refl. reflexivity. }
    exists s'. split; [exact Hrun|]. split; [|exact Hh].
    rewrite Hw. unfold s1. cbn [shared for_range]. unfold bind.
    destruct (deliverWebhook l (shared s)) as [[] w1]. reflexivity.
Qed.

Lemma batch_as_actions `{Runtime} (g : nat) (s : Race) :
  held s g = [] ->
  exists n s',
    race_run (Poll g :: repeat (Deliver g) n) s = Some s' /\
    shared s' = snd (processPendingLogs (shared s)) /\
    held s' g = [].
Proof.
  intros Hg. rewrite processPendingLogs_eq.
  cbn [race_run race_step]. rewrite Hg, GetPendingWebhookLogs_eq.
  destruct (next_fault (shared s)) as [e|].
  - exists 0%nat. eexists. split; [reflexivity|]. split; [reflexivity | exact Hg].
  - set (s1 := mkRace _ _).
    destruct (deliveries_in_a_row g (batch_of (shared s)) s1) as (s' & Hrun & Hw & Hh).
    { unfold s1, set_held. cbn [held]. rewrite Nat.eqb_refl. reflexivity. }
    exists (List.length (batch_of (shared s))), s'.
    split; [exact Hrun|]. split; [exact Hw | exact Hh].
Qed.

(** ** A single worker holds no stale copy *)











(** ** C7: the attempts of a row *)




(** ** Closed rows *)

Lemma race_step_keeps_row `{Runtime} (a : Action) (s s' : Race) (r : WebhookLog.t) :
  race_step a s = Some s' ->
  log_ids_fresh (db (shared s)) ->
  In r (webhook_logs (db (shared s))) ->
  WebhookLog.Status r <> WebhookLogStatusPending ->
  (forall g l, In l (held s g) -> pendingLog.ID l <> WebhookLog.ID r) ->
  log_ids_fresh (db (shared s')) /\
  In r (webhook_logs (db (shared s'))) /\
  (forall g l, In l (held s' g) -> pendingLog.ID l <> WebhookLog.ID r).
Proof.
  intros Hstep Hfresh Hin Hclosed Hheld.
  destruct a as [event data | g | g | id input]; cbn [race_step] in Hstep.
  - injection Hstep as <-. cbn [held shared]. split; [|split; [|exact Hheld]].
    + apply (Trigger_keeps log_ids_fresh); [|exact Hfresh].
      intros wid url payload now d i d' Hc. apply (log_ids_fresh_insert _ _ _ _ _ _ _ _ _ _ Hc).
    + apply (Trigger_keeps (fun d => In r (webhook_logs d))); [|exact Hin].
      intros wid url payload now d i d' Hc Hd.
      apply create_webhook_log_inv in Hc. destruct Hc as (_ & _ & _ & _ & _ & ->).
      apply in_or_app. left. exact Hd.
  - destruct (held s g) eqn:Hg; [|discriminate].
    rewrite GetPendingWebhookLogs_eq in Hstep.
    destruct (next_fault (shared s)); injection Hstep as <-; cbn [held shared];
      [split; [exact Hfresh | split; [exact Hin | exact Hheld]]|].
    split; [exact Hfresh|]. split; [exact Hin|].
    intros g' l Hl. unfold set_held in Hl.
    destruct (Nat.eqb g' g); [|apply (Hheld g'), Hl].
    destruct (batch_of_joined (shared s) l Hl) as (Hlin & Hpend & _).
    intros Heq. apply Hclosed.
    rewrite (NoDup_map_inj WebhookLog.ID _ r (pendingLog.Log l) (proj1 Hfresh) Hin Hlin
               (eq_sym Heq)).
    exact Hpend.
  - destruct (held s g) as [|l rest] eqn:Hg; [discriminate|].
    injection Hstep as <-. cbn [held shared].
    assert (Hrest : forall g' x, In x (set_held g rest (held s) g') ->
                                 pendingLog.ID x <> WebhookLog.ID r).
    { intros g' x Hx. apply (Hheld g'). eapply In_set_held; eassumption. }
    destruct (deliverWebhook_writes l (shared s))
      as (st & code & body & err & next & (_ & _ & Hdb) & _).
    rewrite Hdb.
    destruct (next_fault (shared s));
      [split; [exact Hfresh | split; [exact Hin | exact Hrest]]|].
    split; [apply log_ids_fresh_update, Hfresh|]. split; [|exact Hrest].
    unfold db_after_update. cbn [webhook_logs].
    apply in_map_iff. exists r. split; [|exact Hin].
    unfold update_log_row.
    destruct (Z.eqb_spec (WebhookLog.ID r) (pendingLog.ID l)) as [Heq|Hne]; [|reflexivity].
    exfalso. apply (Hheld g l); [rewrite Hg; left; reflexivity | congruence].
  - injection Hstep as <-. cbn [held shared].
    destruct (UpdateWebhook_tables id input (shared s)) as [-> | (now & ->)];
      (split; [exact Hfresh | split; [exact Hin | exact Hheld]]).
Qed.

(** X8: a row that is closed (success or failed), and of which no worker
    holds a copy read earlier, stays exactly as it is whatever the
    workers, [Trigger] and [UpdateWebhook] do next, in any order: a poll
    takes pending rows only, and an update names the row of the copy it
    was computed from. *)
Theorem closed_row_is_settled `{Runtime} (es : list Action) (s s' : Race)
    (r : WebhookLog.t) :
  log_ids_fresh (db (shared s)) ->
  In r (webhook_logs (db (shared s))) ->
  WebhookLog.Status r <> WebhookLogStatusPending ->
  (forall g l, In l (held s g) -> pendingLog.ID l <> WebhookLog.ID r) ->
  race_run es s = Some s' ->
  In r (webhook_logs (db (shared s'))).
Proof.
  revert s. induction es as [|a es IH]; intros s Hfresh Hin Hclosed Hheld Hrun;
    cbn [race_run] in Hrun.
  - injection Hrun as <-. exact Hin.
  - destruct (race_step a s) as [s1|] eqn:Hstep; [|discriminate].
    destruct (race_step_keeps_row a s s1 r Hstep Hfresh Hin Hclosed Hheld)
      as (Hfresh1 & Hin1 & Hheld1).
    apply (IH s1); assumption.
Qed.

Lemma closed_row_is_settled_witness :
  let done := WebhookLog.mk 1 1 "subscriber.created" "http://r/ok" "{}" "success"
                (Some 200) "ok" EmptyString 1 None 10 11 in
  match @race_run ExampleRuntime [Poll 0; Poll 1; Deliver 1; Deliver 0] example_settled with
  | Some s' => In done (webhook_logs (db (shared s')))
  | None => False
  end.
Proof.
  cbv zeta.
  destruct (@race_run ExampleRuntime [Poll 0; Poll 1; Deliver 1; Deliver 0] example_settled)
    as [s'|] eqn:Hrun; [|vm_compute in Hrun; discriminate].
  apply (@closed_row_is_settled ExampleRuntime [Poll 0; Poll 1; Deliver 1; Deliver 0]
           example_settled s').
  - unfold log_ids_fresh. cbn. split.
    + repeat constructor; cbn; intuition discriminate.
    + repeat constructor; cbn; lia.
  - left. reflexivity.
  - cbn. discriminate.
  - intros g l [].
  - exact Hrun.
Defined.

(** A copy read before the row was closed is another matter: both workers
    read the new row, worker 0 gets 204 and closes it as success, worker
    1 gets 500 on its copy and the row is pending again. *)
Example stale_copy_reopens_closed_row :
  let s := idle (scenario_world 3 [] [Response 204 "ok"; Response 500 "no"]) in
  row_after [example_fire; Poll 0; Poll 1; Deliver 0] s 1 = Some ("success", 1) /\
  row_after [example_fire; Poll 0; Poll 1; Deliver 0; Deliver 1] s 1 = Some ("pending", 1).
Proof. split; vm_compute; reflexivity. Qed.
